(** * pybricksdev: the hub communication protocol engine

    A shallow embedding of [pybricksdev/connections.py] and
    [pybricksdev/compile.py].  Python objects become records, methods
    become state-passing functions, raised exceptions become the [Raise]
    outcome, and the asynchronous notification callbacks become handlers
    applied to a stream of events delivered while a coroutine waits. *)

From Stdlib Require Import ZArith List Bool Lia Arith.
From Stdlib.Strings Require Import Byte.
From Stdlib.Strings Require String Ascii.
Import ListNotations.
Import String.StringSyntax.
Delimit Scope string_scope with string.
Open Scope Z_scope.

(** ** Bytes and Python's byte-string primitives *)

Definition bytes := list byte.

(** The integer value of a byte, as Python gives it when indexing or
    iterating a [bytes] object. *)
Definition byte_val (b : byte) : Z := Z.of_N (Byte.to_N b).

Definition byte_of_Z (z : Z) : byte :=
  match Byte.of_N (Z.to_N (z mod 256)) with
  | Some b => b
  | None => x00
  end.

(** Exceptions the modelled code raises, named as in Python. *)
Inductive exn :=
| ValueError_too_much_data                (* "Cannot send this much data at once" *)
| ValueError_checksum (expected : Z) (reply : option Z)
                                          (* "Expected checksum {0} but received {1}." *)
| RuntimeError_checksum (expected got : Z) (* "Expected checksum ... but got ..." *)
| RuntimeError_log_already_open           (* "Log file is already open!" *)
| RuntimeError_no_log_open                (* "No log file is currently open!" *)
| ValueError_mpy_version                  (* "mpy_version must be 5" *)
| TypeError_missing_abi                   (* missing 1 required positional argument: 'abi' *)
| TimeoutError                            (* asyncio.TimeoutError *)
| IndexError
| StructError
| OverflowError
| UnicodeDecodeError
| FileNotFoundError
| CalledProcessError (returncode : Z)
| AttributeError
| OSError
| BleakError.

Inductive outcome := Ok | Raise (e : exn).

(** Modelled from the spec: [pybricksdev.tools.checksum.xor_bytes] is
    imported by connections.py but is not among the sources.  The spec
    gives it as the XOR of all bytes of the data, a running XOR starting
    from the given value. *)
Definition xor_bytes (data : bytes) (checksum : Z) : Z :=
  fold_left (fun acc b => Z.lxor acc (byte_val b)) data checksum.

(** [n.to_bytes(4, byteorder="little")]; Python raises [OverflowError]
    when the integer does not fit. *)
Definition to_bytes4_little (n : Z) : option bytes :=
  if (0 <=? n) && (n <? 2 ^ 32)
  then Some [byte_of_Z n; byte_of_Z (n / 2 ^ 8);
             byte_of_Z (n / 2 ^ 16); byte_of_Z (n / 2 ^ 24)]
  else None.

(** [struct.unpack("<I", b)]: exactly four bytes, little endian. *)
Definition unpack_u32_little (b : bytes) : option Z :=
  match b with
  | [b0; b1; b2; b3] =>
      Some (byte_val b0 + 2 ^ 8 * byte_val b1
            + 2 ^ 16 * byte_val b2 + 2 ^ 24 * byte_val b3)
  | _ => None
  end.

(** [range(0, stop, step)] for a positive step. *)
Definition range0 (stop step : nat) : list nat :=
  map (fun k => (k * step)%nat) (seq 0 ((stop + step - 1) / step)).

(** [[data[i : i + n] for i in range(0, len(data), n)]]. *)
Definition chunks (n : nat) (data : bytes) : list bytes :=
  map (fun i => firstn n (skipn i data)) (range0 (length data) n).

(** [sub] occurs at the front of [l]. *)
Fixpoint starts_with (sub l : bytes) : bool :=
  match sub, l with
  | [], _ => true
  | _ :: _, [] => false
  | a :: sub', b :: l' => Byte.eqb a b && starts_with sub' l'
  end.

(** [bytearray.find(sub)]: lowest index of an occurrence, or -1. *)
Fixpoint find (l sub : bytes) : Z :=
  if starts_with sub l then 0
  else match l with
       | [] => -1
       | _ :: l' => let r := find l' sub in if r <? 0 then -1 else r + 1
       end.

(** [sub in l] on byte strings. *)
Definition contains (sub l : bytes) : bool := 0 <=? find l sub.

(** ** [io.BytesIO]

    One stream position is shared by reads and writes: [write] stores at
    the position and advances it, [read()] returns what lies between the
    position and the end and moves the position to the end. *)
Module BytesIO.

Record t := mk { buf : bytes; pos : nat }.

Definition empty : t := mk [] 0.

Definition write (f : t) (data : bytes) : t :=
  let padded := buf f ++ repeat x00 (pos f - length (buf f)) in
  mk (firstn (pos f) padded ++ data
        ++ skipn (pos f + length data) padded)
     (pos f + length data).

Definition read (f : t) : bytes * t :=
  (skipn (pos f) (buf f), mk (buf f) (Nat.max (pos f) (length (buf f)))).

Definition getvalue (f : t) : bytes := buf f.

End BytesIO.

(** ** [CharacterGlue]: the line framing buffer

    [char_handler] and [line_handler] are methods that subclasses
    override, so [data_handler] is written once over the interface
    below. *)
Class Glue (S : Type) := {
  EOL : S -> option bytes;
  char_buf : S -> bytes;
  set_char_buf : bytes -> S -> S;
  char_handler : S -> byte -> option byte * S;
  line_handler : S -> bytes -> outcome * S
}.

Section DataHandler.
Context {S : Type} `{Glue S}.

(** [for byte in data: append = self.char_handler(byte); ...] *)
Fixpoint feed_chars (s : S) (data : bytes) : S :=
  match data with
  | [] => s
  | byte :: rest =>
      let (append, s1) := char_handler s byte in
      let s2 := match append with
                | Some c => set_char_buf (char_buf s1 ++ [c]) s1
                | None => s1
                end in
      feed_chars s2 rest
  end.

(** The [while True] loop that takes complete lines out of the buffer.
    Each round is one iteration; [None] means the rounds ran out, which
    stands for a loop that has not ended. *)
Fixpoint split_lines (rounds : nat) (eol buf : bytes) (lines : list bytes)
  : option (list bytes * bytes) :=
  match rounds with
  | O => None
  | Datatypes.S r =>
      let index := find buf eol in
      if index <? 0 then Some (lines, buf)
      else split_lines r eol
             (skipn (Z.to_nat index + length eol) buf)
             (lines ++ [firstn (Z.to_nat index) buf])
  end.

(** [for line in lines: self.line_handler(line)]; an exception leaves
    the loop. *)
Fixpoint handle_lines (s : S) (lines : list bytes) : outcome * S :=
  match lines with
  | [] => (Ok, s)
  | line :: rest =>
      match line_handler s line with
      | (Ok, s1) => handle_lines s1 rest
      | (Raise e, s1) => (Raise e, s1)
      end
  end.

Definition data_handler (s : S) (data : bytes) : option (outcome * S) :=
  let s1 := feed_chars s data in
  match EOL s1 with
  | None => Some (Ok, s1)
  | Some eol =>
      match split_lines (Datatypes.S (length (char_buf s1))) eol (char_buf s1) [] with
      | None => None
      | Some (lines, rest) => Some (handle_lines (set_char_buf rest s1) lines)
      end
  end.

(** Successive calls of [data_handler], one per fragment; a call that
    raises ends the sequence. *)
Fixpoint feed_fragments (s : S) (fragments : list bytes) : option (outcome * S) :=
  match fragments with
  | [] => Some (Ok, s)
  | d :: rest =>
      match data_handler s d with
      | Some (Ok, s1) => feed_fragments s1 rest
      | r => r
      end
  end.

End DataHandler.

(** The base class itself: [char_handler] passes every byte through and
    [line_handler] prints the line. *)
Module CharacterGlue.

Record t := mk {
  glue_EOL : option bytes;
  glue_char_buf : bytes;
  printed : list bytes        (* the lines given to [print], in order *)
}.

Definition init (eol : option bytes) : t := mk eol [] [].

#[global] Instance glue : Glue t := {
  EOL := glue_EOL;
  char_buf := glue_char_buf;
  set_char_buf := fun b s => mk (glue_EOL s) b (printed s);
  char_handler := fun s char => (Some char, s);
  line_handler := fun s line => (Ok, mk (glue_EOL s) (glue_char_buf s) (printed s ++ [line]))
}.

End CharacterGlue.

(** ** The world outside the protocol objects *)

(** Effects in program order: writes to the channel, to the terminal
    and to files, and the operations on the checksum slot and on the
    two [asyncio.Event] objects. *)
Inductive effect :=
| Tx (data : bytes)                    (* a write to the hub's receive characteristic *)
| Stdout (data : bytes)                (* sys.stdout.buffer.write(data); flush() *)
| Print (text : String.string)         (* print(text) *)
| SetExpected (z : Z)                  (* self.expected_checksum = z *)
| ReadyClear                           (* self.checksum_ready.clear() *)
| ReadySet                             (* self.checksum_ready.set() *)
| StoppedClear                         (* self.user_program_stopped.clear() *)
| StoppedSet                           (* self.user_program_stopped.set() *)
| Progress (n : nat)                   (* pbar.update(n) *)
| MakeDirs (path : String.string)      (* os.makedirs(path) *)
| FileOpen (path : String.string)      (* open(path, "w") *)
| FileWrite (path text : String.string) (* print(text, file=log_file) *)
| FileClose (path : String.string)     (* log_file.close() *)
| CallbackRaised (e : exn).            (* an exception left a notification callback *)

(** What arrives from outside while a coroutine is suspended, in the
    order the event loop delivers it. *)
Inductive event :=
| Nus (data : bytes)       (* notification on the hub's transmit characteristic *)
| Control (data : bytes)   (* notification on the Pybricks control characteristic *)
| LinkLost                 (* the connection drops *)
| Deadline.                (* the timeout of the pending [asyncio.wait_for] expires *)

(** Modelled from the spec: [HubKind] of [pybricksdev.ble.lwp3.bytecodes]
    is not among the sources; the code only asks whether the hub is the
    BOOST Move hub, the device class with the constrained transmission
    unit. *)
Inductive HubKind := BOOST | OTHER_HUB.

Definition is_boost (k : HubKind) : bool :=
  match k with BOOST => true | OTHER_HUB => false end.

(** What the code takes from the Python library, the operating system
    and modules that are not among the sources. *)
Record Host := {
  decode : bytes -> option String.string;          (* bytes.decode(); None: UnicodeDecodeError *)
  path_join : String.string -> String.string -> String.string;   (* os.path.join *)
  path_split : String.string -> String.string * String.string;   (* os.path.split *)
  path_exists : String.string -> bool;             (* os.path.exists *)
  can_makedirs : String.string -> bool;            (* os.makedirs succeeds; else OSError *)
  can_open : String.string -> bool;                (* open(path, "w") succeeds; else OSError *)
  source_opens : String.string -> bool;            (* open(path, "r") succeeds; else FileNotFoundError *)
  read_source : String.string -> exn + String.string;   (* f.read(), or what it raises *)
  mpy_cross_compile :                              (* mpy_cross_v5.mpy_cross_compile *)
    String.string -> String.string -> option (list String.string) -> Z * bytes;
  STATUS_REPORT : Z;                               (* Event.STATUS_REPORT *)
  USER_PROGRAM_RUNNING_flag : Z                    (* Status.USER_PROGRAM_RUNNING.flag *)
}.

(** [b"PB_OF"], [b"PB_EOF"] and [b"\r\n"]. *)
Definition PB_OF : bytes := [x50; x42; x5f; x4f; x46].
Definition PB_EOF : bytes := [x50; x42; x5f; x45; x4f; x46].
Definition CRLF : bytes := [x0d; x0a].

(** ** [compile_file] *)
Section Compile.
Variable h : Host.

(** The body of [compile_file(path, abi, compile_args)].  The file is
    opened before the ABI version is looked at, and read only when the
    version is 5, as the argument of the call of the compiler. *)
Definition compile_file (path : String.string) (abi : Z)
    (compile_args : option (list String.string)) : exn + bytes :=
  if source_opens h path then
    if abi =? 5 then
      match read_source h path with
      | inl e => inl e
      | inr source =>
          let (returncode, mpy) := mpy_cross_compile h path source compile_args in
          if returncode =? 0 then inr mpy
          else inl (CalledProcessError returncode)
      end
    else inl ValueError_mpy_version
  else inl FileNotFoundError.

(** A call of [compile_file] as Python binds it: [abi] has no default
    value, so a call that leaves it out raises [TypeError] before the
    body runs; [compile_args] defaults to [None]. *)
Definition call_compile_file (path : String.string) (abi : option Z)
    (compile_args : option (list String.string)) : exn + bytes :=
  match abi with
  | None => inl TypeError_missing_abi
  | Some a => compile_file path a compile_args
  end.

End Compile.

(** ** [PybricksPUPProtocol] *)
Module PUP.

Definition UNKNOWN : Z := 0.
Definition IDLE : Z := 1.
Definition RUNNING : Z := 2.
Definition ERROR : Z := 3.
Definition AWAITING_CHECKSUM : Z := 4.

(** The object's attributes ([EOL] is fixed to [b"\r\n"] by [__init__]),
    the state of the connection it writes to, and the effects so far. *)
Record t := mk {
  char_buf_ : bytes;
  state : Z;
  checksum : option Z;
  checksum_ready : bool;
  log_file : option String.string;
  output : list bytes;
  print_output : bool;
  link_up : bool;
  trace : list effect
}.

Definition with_char_buf_ (v : bytes) (s : t) : t :=
  mk v (state s) (checksum s) (checksum_ready s) (log_file s) (output s) (print_output s) (link_up s) (trace s).

Definition with_state (v : Z) (s : t) : t :=
  mk (char_buf_ s) v (checksum s) (checksum_ready s) (log_file s) (output s) (print_output s) (link_up s) (trace s).

Definition with_checksum (v : option Z) (s : t) : t :=
  mk (char_buf_ s) (state s) v (checksum_ready s) (log_file s) (output s) (print_output s) (link_up s) (trace s).

Definition with_checksum_ready (v : bool) (s : t) : t :=
  mk (char_buf_ s) (state s) (checksum s) v (log_file s) (output s) (print_output s) (link_up s) (trace s).

Definition with_log_file (v : option String.string) (s : t) : t :=
  mk (char_buf_ s) (state s) (checksum s) (checksum_ready s) v (output s) (print_output s) (link_up s) (trace s).

Definition with_output (v : list bytes) (s : t) : t :=
  mk (char_buf_ s) (state s) (checksum s) (checksum_ready s) (log_file s) v (print_output s) (link_up s) (trace s).

Definition with_print_output (v : bool) (s : t) : t :=
  mk (char_buf_ s) (state s) (checksum s) (checksum_ready s) (log_file s) (output s) v (link_up s) (trace s).

Definition with_link_up (v : bool) (s : t) : t :=
  mk (char_buf_ s) (state s) (checksum s) (checksum_ready s) (log_file s) (output s) (print_output s) v (trace s).

Definition with_trace (v : list effect) (s : t) : t :=
  mk (char_buf_ s) (state s) (checksum s) (checksum_ready s) (log_file s) (output s) (print_output s) (link_up s) v.
(** The attributes as [__init__] leaves them, on a connection that is
    up; [print_output], which only [run] assigns, starts as [run]'s
    default. *)
Definition init : t := mk [] UNKNOWN None false None [] true true [].

Definition emit (e : effect) (s : t) : t := with_trace (trace s ++ [e]) s.

Definition char_handler (s : t) (char : byte) : option byte * t :=
  if state s =? AWAITING_CHECKSUM then
    (None, emit ReadySet (with_checksum_ready true
                            (with_checksum (Some (byte_val char)) s)))
  else (Some char, s).

Definition set_state (new_state : Z) (s : t) : t :=
  if new_state =? state s then s else with_state new_state s.

Definition prepare_checksum (s : t) : t :=
  emit ReadyClear
    (with_checksum_ready false
       (with_checksum None (set_state AWAITING_CHECKSUM s))).

(** Modelled from the spec: [write] belongs to the connection classes
    ([BLEConnection], [USBConnection]), which are not among the sources;
    the spec gives the channel's [write(bytes)] as failing on
    disconnect. *)
Definition write (s : t) (data : bytes) : outcome * t :=
  if link_up s then (Ok, emit (Tx data) s) else (Raise BleakError, s).

Section WithHost.
Variable h : Host.

Definition line_handler (s : t) (line : bytes) : outcome * t :=
  if contains PB_OF line then
    match log_file s with
    | Some _ => (Raise RuntimeError_log_already_open, s)
    | None =>
        match decode h (skipn 6 line) with
        | None => (Raise UnicodeDecodeError, s)
        | Some name =>
            if can_open h name
            then (Ok, with_log_file (Some name) (emit (FileOpen name) s))
            else (Raise OSError, s)
        end
    end
  else if contains PB_EOF line then
    match log_file s with
    | None => (Raise RuntimeError_no_log_open, s)
    | Some f => (Ok, with_log_file None (emit (FileClose f) s))
    end
  else
    match log_file s with
    | Some f =>
        match decode h line with
        | None => (Raise UnicodeDecodeError, s)
        | Some text => (Ok, emit (FileWrite f text) s)
        end
    | None =>
        let s1 := with_output (output s ++ [line]) s in
        if print_output s then
          match decode h line with
          | None => (Raise UnicodeDecodeError, s1)
          | Some text => (Ok, emit (Print text) s1)
          end
        else (Ok, s1)
    end.

Definition glue : Glue t :=
  Build_Glue t (fun _ => Some CRLF) char_buf_ with_char_buf_
    char_handler line_handler.

(** One event taken from the loop while a coroutine of this object is
    suspended.  Only data notifications have a callback here. *)
Definition deliver (s : t) (ev : event) : t :=
  match ev with
  | Nus data =>
      match @data_handler t glue s data with
      | Some (Ok, s1) => s1
      | Some (Raise e, s1) => emit (CallbackRaised e) s1
      | None => s
      end
  | LinkLost => with_link_up false s
  | _ => s
  end.

(** [await asyncio.wait_for(self.checksum_ready.wait(), timeout=0.5)] *)
Fixpoint await_checksum_ready (s : t) (stream : list event)
  : outcome * t * list event :=
  if checksum_ready s then (Ok, s, stream)
  else match stream with
       | [] => (Raise TimeoutError, s, [])
       | Deadline :: rest => (Raise TimeoutError, s, rest)
       | ev :: rest => await_checksum_ready (deliver s ev) rest
       end.

Definition wait_for_checksum (s : t) (stream : list event)
  : (exn + option Z) * t * list event :=
  match await_checksum_ready s stream with
  | (Raise e, s1, rest) => (inl e, s1, rest)
  | (Ok, s1, rest) =>
      let result := checksum s1 in
      (inr result, set_state IDLE (prepare_checksum s1), rest)
  end.

Definition send_message (s : t) (data : bytes) (stream : list event)
  : outcome * t * list event :=
  if (100 <? length data)%nat then (Raise ValueError_too_much_data, s, stream)
  else
    let checksum := xor_bytes data 0 in
    let s1 := prepare_checksum s in
    match write s1 data with
    | (Raise e, s2) => (Raise e, s2, stream)
    | (Ok, s2) =>
        match wait_for_checksum s2 stream with
        | (inl e, s3, rest) => (Raise e, s3, rest)
        | (inr reply, s3, rest) =>
            match reply with
            | Some r => if r =? checksum then (Ok, s3, rest)
                        else (Raise (ValueError_checksum checksum reply), s3, rest)
            | None => (Raise (ValueError_checksum checksum reply), s3, rest)
            end
        end
    end.

(** [for chunk in chunks: await self.send_message(chunk); pbar.update(len(chunk))] *)
Fixpoint send_chunks (s : t) (blocks : list bytes) (stream : list event)
  : outcome * t * list event :=
  match blocks with
  | [] => (Ok, s, stream)
  | chunk :: rest =>
      match send_message s chunk stream with
      | (Ok, s1, stream1) => send_chunks (emit (Progress (length chunk)) s1) rest stream1
      | r => r
      end
  end.

(** [run], from the length block to the last chunk, for the payload
    [mpy] that [compile_file] returned. *)
Definition run_transfer (s : t) (mpy : bytes) (stream : list event)
  : outcome * t * list event :=
  match to_bytes4_little (Z.of_nat (length mpy)) with
  | None => (Raise OverflowError, s, stream)
  | Some length =>
      match send_message s length stream with
      | (Ok, s1, stream1) => send_chunks s1 (chunks 100 mpy) stream1
      | r => r
      end
  end.

(** [run] up to the end of the transfer; the wait for the program to
    end follows it. *)
Definition run (s : t) (py_path : String.string) (print_output : bool)
    (stream : list event) : outcome * t * list event :=
  let s1 := with_print_output print_output (with_output [] (with_log_file None s)) in
  match call_compile_file h py_path None None with
  | inl e => (Raise e, s1, stream)
  | inr mpy => run_transfer s1 mpy stream
  end.

End WithHost.
End PUP.

(** ** [PybricksHub] *)
Module Hub.

(** The object's attributes, for a connected hub, with the state of the
    connection and the effects so far. *)
Record t := mk {
  output : list bytes;
  print_output : bool;
  expected_checksum : Z;
  checksum_ready : bool;
  loading : bool;
  program_running : bool;
  user_program_stopped : bool;
  hub_kind : HubKind;
  buffered_stdout : BytesIO.t;
  log_file : option String.string;
  script_dir : option String.string;
  link_up : bool;
  trace : list effect
}.

Definition with_output (v : list bytes) (s : t) : t :=
  mk v (print_output s) (expected_checksum s) (checksum_ready s) (loading s) (program_running s) (user_program_stopped s) (hub_kind s) (buffered_stdout s) (log_file s) (script_dir s) (link_up s) (trace s).

Definition with_print_output (v : bool) (s : t) : t :=
  mk (output s) v (expected_checksum s) (checksum_ready s) (loading s) (program_running s) (user_program_stopped s) (hub_kind s) (buffered_stdout s) (log_file s) (script_dir s) (link_up s) (trace s).

Definition with_expected_checksum (v : Z) (s : t) : t :=
  mk (output s) (print_output s) v (checksum_ready s) (loading s) (program_running s) (user_program_stopped s) (hub_kind s) (buffered_stdout s) (log_file s) (script_dir s) (link_up s) (trace s).

Definition with_checksum_ready (v : bool) (s : t) : t :=
  mk (output s) (print_output s) (expected_checksum s) v (loading s) (program_running s) (user_program_stopped s) (hub_kind s) (buffered_stdout s) (log_file s) (script_dir s) (link_up s) (trace s).

Definition with_loading (v : bool) (s : t) : t :=
  mk (output s) (print_output s) (expected_checksum s) (checksum_ready s) v (program_running s) (user_program_stopped s) (hub_kind s) (buffered_stdout s) (log_file s) (script_dir s) (link_up s) (trace s).

Definition with_program_running (v : bool) (s : t) : t :=
  mk (output s) (print_output s) (expected_checksum s) (checksum_ready s) (loading s) v (user_program_stopped s) (hub_kind s) (buffered_stdout s) (log_file s) (script_dir s) (link_up s) (trace s).

Definition with_user_program_stopped (v : bool) (s : t) : t :=
  mk (output s) (print_output s) (expected_checksum s) (checksum_ready s) (loading s) (program_running s) v (hub_kind s) (buffered_stdout s) (log_file s) (script_dir s) (link_up s) (trace s).

Definition with_buffered_stdout (v : BytesIO.t) (s : t) : t :=
  mk (output s) (print_output s) (expected_checksum s) (checksum_ready s) (loading s) (program_running s) (user_program_stopped s) (hub_kind s) v (log_file s) (script_dir s) (link_up s) (trace s).

Definition with_log_file (v : option String.string) (s : t) : t :=
  mk (output s) (print_output s) (expected_checksum s) (checksum_ready s) (loading s) (program_running s) (user_program_stopped s) (hub_kind s) (buffered_stdout s) v (script_dir s) (link_up s) (trace s).

Definition with_script_dir (v : option String.string) (s : t) : t :=
  mk (output s) (print_output s) (expected_checksum s) (checksum_ready s) (loading s) (program_running s) (user_program_stopped s) (hub_kind s) (buffered_stdout s) (log_file s) v (link_up s) (trace s).

Definition with_link_up (v : bool) (s : t) : t :=
  mk (output s) (print_output s) (expected_checksum s) (checksum_ready s) (loading s) (program_running s) (user_program_stopped s) (hub_kind s) (buffered_stdout s) (log_file s) (script_dir s) v (trace s).

Definition with_trace (v : list effect) (s : t) : t :=
  mk (output s) (print_output s) (expected_checksum s) (checksum_ready s) (loading s) (program_running s) (user_program_stopped s) (hub_kind s) (buffered_stdout s) (log_file s) (script_dir s) (link_up s) v.
(** The attributes as [__init__] leaves them, on a connected hub of the
    given kind. *)
Definition init (kind : HubKind) : t :=
  mk [] true (-1) false false false false kind BytesIO.empty None None true [].

Definition emit (e : effect) (s : t) : t := with_trace (trace s ++ [e]) s.

(** [await self.client.write_gatt_char(NUS_RX_UUID, data, False)] *)
Definition write_gatt_char (s : t) (data : bytes) : outcome * t :=
  if link_up s then (Ok, emit (Tx data) s) else (Raise BleakError, s).

(** [for i in range(0, len(data), 20): await write_gatt_char(data[i : i + 20])] *)
Fixpoint write_pieces (s : t) (pieces : list bytes) : outcome * t :=
  match pieces with
  | [] => (Ok, s)
  | piece :: rest =>
      match write_gatt_char s piece with
      | (Ok, s1) => write_pieces s1 rest
      | r => r
      end
  end.

Definition nus_handler (s : t) (data : bytes) : outcome * t :=
  if negb (expected_checksum s =? -1) then
    match data with
    | [] => (Raise IndexError, s)
    | b :: _ =>
        let checksum := byte_val b in
        if negb (checksum =? expected_checksum s) then
          (Raise (RuntimeError_checksum (expected_checksum s) checksum), s)
        else
          let s1 := emit (SetExpected (-1)) (with_expected_checksum (-1) s) in
          (Ok, emit ReadySet (with_checksum_ready true s1))
    end
  else if loading s then
    (Ok, with_buffered_stdout (BytesIO.write (buffered_stdout s) data) s)
  else (Ok, emit (Stdout data) s).

Section WithHost.
Variable h : Host.

Definition line_handler (s : t) (line : bytes) : outcome * t :=
  if contains PB_OF line then
    match log_file s with
    | Some _ => (Raise RuntimeError_log_already_open, s)
    | None =>
        match script_dir s, decode h (skipn 6 line) with
        | None, _ => (Raise AttributeError, s)
        | _, None => (Raise UnicodeDecodeError, s)
        | Some dir, Some name =>
            let full_path := path_join h dir name in
            let dir_path := fst (path_split h full_path) in
            if negb (path_exists h dir_path) && negb (can_makedirs h dir_path)
            then (Raise OSError, s)
            else
              let s1 := if path_exists h dir_path then s
                        else emit (MakeDirs dir_path) s in
              if can_open h full_path
              then (Ok, with_log_file (Some full_path) (emit (FileOpen full_path) s1))
              else (Raise OSError, s1)
        end
    end
  else if contains PB_EOF line then
    match log_file s with
    | None => (Raise RuntimeError_no_log_open, s)
    | Some f => (Ok, with_log_file None (emit (FileClose f) s))
    end
  else
    match log_file s with
    | Some f =>
        match decode h line with
        | None => (Raise UnicodeDecodeError, s)
        | Some text => (Ok, emit (FileWrite f text) s)
        end
    | None =>
        let s1 := with_output (output s ++ [line]) s in
        if print_output s then
          match decode h line with
          | None => (Raise UnicodeDecodeError, s1)
          | Some text => (Ok, emit (Print text) s1)
          end
        else (Ok, s1)
    end.

Definition pybricks_service_handler (s : t) (data : bytes) : outcome * t :=
  match data with
  | [] => (Raise IndexError, s)
  | kind :: payload =>
      if byte_val kind =? STATUS_REPORT h then
        match unpack_u32_little payload with
        | None => (Raise StructError, s)
        | Some flags =>
            let program_running_now :=
              negb (Z.land flags (USER_PROGRAM_RUNNING_flag h) =? 0) in
            if negb (loading s) then
              let s1 :=
                if negb (Bool.eqb (program_running s) program_running_now) then
                  let s' := with_program_running program_running_now s in
                  let (held, f) := BytesIO.read (buffered_stdout s') in
                  emit (Stdout held) (with_buffered_stdout f s')
                else s in
              if negb program_running_now then
                (Ok, emit StoppedSet (with_user_program_stopped true s1))
              else (Ok, s1)
            else (Ok, s)
        end
      else (Ok, s)
  end.

(** One event taken from the loop.  An exception that leaves a
    notification callback does not reach the coroutines of the hub
    object; it is recorded. *)
Definition deliver (s : t) (ev : event) : t :=
  match ev with
  | Nus data =>
      match nus_handler s data with
      | (Ok, s1) => s1
      | (Raise e, s1) => emit (CallbackRaised e) s1
      end
  | Control data =>
      match pybricks_service_handler s data with
      | (Ok, s1) => s1
      | (Raise e, s1) => emit (CallbackRaised e) s1
      end
  | LinkLost => with_link_up false s
  | Deadline => s
  end.

(** [await asyncio.wait_for(self.checksum_ready.wait(), timeout=0.5)] *)
Fixpoint await_checksum_ready (s : t) (stream : list event)
  : outcome * t * list event :=
  if checksum_ready s then (Ok, s, stream)
  else match stream with
       | [] => (Raise TimeoutError, s, [])
       | Deadline :: rest => (Raise TimeoutError, s, rest)
       | ev :: rest => await_checksum_ready (deliver s ev) rest
       end.

(** [send_block].  The events of [stream] are those that the loop
    hands to the object while the coroutine waits for the checksum; the
    writes before the wait complete with nothing handled in between. *)
Definition send_block (s : t) (data : bytes) (stream : list event)
  : outcome * t * list event :=
  let s1 := emit ReadyClear (with_checksum_ready false s) in
  let expected := xor_bytes data 0 in
  let s2 := emit (SetExpected expected) (with_expected_checksum expected s1) in
  let written :=
    if is_boost (hub_kind s2) then write_pieces s2 (chunks 20 data)
    else write_gatt_char s2 data in
  let attempt :=
    match written with
    | (Raise e, s3) => (Raise e, s3, stream)
    | (Ok, s3) => await_checksum_ready s3 stream
    end in
  match attempt with
  | (Raise e, s4, rest) =>
      (Raise e, emit (SetExpected (-1)) (with_expected_checksum (-1) s4), rest)
  | (Ok, s4, rest) => (Ok, s4, rest)
  end.

(** [for chunk in chunks: await self.send_block(chunk); pbar.update(len(chunk))] *)
Fixpoint send_chunks (s : t) (blocks : list bytes) (stream : list event)
  : outcome * t * list event :=
  match blocks with
  | [] => (Ok, s, stream)
  | chunk :: rest =>
      match send_block s chunk stream with
      | (Ok, s1, stream1) => send_chunks (emit (Progress (length chunk)) s1) rest stream1
      | r => r
      end
  end.

(** The [try ... finally] block of [run], for the payload [mpy] that
    [compile_file] returned. *)
Definition run_transfer (s : t) (mpy : bytes) (stream : list event)
  : outcome * t * list event :=
  let s1 := with_loading true s in
  let s2 := emit StoppedClear (with_user_program_stopped false s1) in
  let body :=
    match to_bytes4_little (Z.of_nat (length mpy)) with
    | None => (Raise OverflowError, s2, stream)
    | Some length =>
        match send_block s2 length stream with
        | (Ok, s3, stream1) => send_chunks s3 (chunks 100 mpy) stream1
        | r => r
        end
    end in
  let '(result, s4, rest) := body in
  (result, with_loading false s4, rest).

(** [run] up to the end of the transfer; with [wait] the interactive
    session follows it. *)
Definition run (s : t) (py_path : String.string) (print_output : bool)
    (stream : list event) : outcome * t * list event :=
  let s1 := with_print_output print_output (with_output [] (with_log_file None s)) in
  let s2 := with_script_dir (Some (fst (path_split h py_path))) s1 in
  match call_compile_file h py_path None None with
  | inl e => (Raise e, s2, stream)
  | inr mpy => run_transfer s2 mpy stream
  end.

End WithHost.
End Hub.

(** ** A host to evaluate examples on

    ASCII text, scripts in the working directory, a file system that
    accepts every request, and the control-characteristic constants set
    to header 0 and bit 6. *)
Definition decode_ascii (l : bytes) : option String.string :=
  if forallb (fun b => byte_val b <? 128) l
  then Some (String.string_of_list_ascii (map Ascii.ascii_of_byte l))
  else None.

Definition sample_mpy : bytes := [x4d; x05; x02; x1f; x20].

Definition sample_host : Host := {|
  decode := decode_ascii;
  path_join := fun dir name =>
    match dir with
    | String.EmptyString => name
    | _ => String.append dir (String.String (Ascii.ascii_of_byte x2f) name)
    end;
  path_split := fun p => (String.EmptyString, p);
  path_exists := fun _ => true;
  can_makedirs := fun _ => true;
  can_open := fun _ => true;
  source_opens := fun _ => true;
  read_source := fun _ => inr String.EmptyString;
  mpy_cross_compile := fun _ _ _ => (0, sample_mpy);
  STATUS_REPORT := 0;
  USER_PROGRAM_RUNNING_flag := 64
|}.

(** ** The line buffer's invariant

    After a call of [data_handler] the buffer holds no complete line. *)
Definition drained {T : Type} `{Glue T} (s : T) : Prop :=
  match EOL s with
  | None => True
  | Some eol => find (char_buf s) eol < 0
  end.

(** ** The complete lines of a byte stream

    [lines], each followed by the marker, and then [rest] make up the
    stream; every line ends at the first marker after its start, and
    [rest], the unfinished end of the stream, holds no marker. *)
Definition complete_lines (eol stream : bytes) (lines : list bytes) (rest : bytes)
  : Prop :=
  concat (map (fun l => l ++ eol) lines) ++ rest = stream
  /\ Forall (fun l => find (l ++ eol) eol = Z.of_nat (length l)) lines
  /\ find rest eol < 0.


(** What [data_handler] relies on in a class that leaves the framing to
    it: in the states [passing], [char_handler] hands every byte on,
    unchanged, and changes nothing; [line_handler] neither reads nor
    writes the buffer, and a call that returns leaves the marker as it
    was and the object in such a state; [char_buf] is an attribute like
    any other. *)
Record plain_framing {T : Type} (G : Glue T) (passing : T -> Prop) : Prop := {
  char_passes : forall s c, passing s -> char_handler s c = (Some c, s);
  buf_set : forall b s, char_buf (set_char_buf b s) = b;
  set_set : forall b b' s, set_char_buf b (set_char_buf b' s) = set_char_buf b s;
  set_same : forall s, set_char_buf (char_buf s) s = s;
  eol_set : forall b s, EOL (set_char_buf b s) = EOL s;
  passing_set : forall b s, passing s -> passing (set_char_buf b s);
  line_apart : forall b s l,
    line_handler (set_char_buf b s) l
    = (fst (line_handler s l), set_char_buf b (snd (line_handler s l)));
  line_keeps : forall s l s1,
    passing s -> line_handler s l = (Ok, s1) -> passing s1 /\ EOL s1 = EOL s
}.

(** ** What an acknowledged transfer leaves in the trace *)

(** The writes [send_block] makes for one block on a hub of the given
    kind. *)
Definition pieces (kind : HubKind) (block : bytes) : list bytes :=
  if is_boost kind then chunks 20 block else [block].

(** The hub object once [send_block] has armed the slot and written the
    block, on a connection that is up. *)
Definition armed (s : Hub.t) (data : bytes) : Hub.t :=
  Hub.with_trace
    (Hub.trace s ++ [ReadyClear; SetExpected (xor_bytes data 0)]
       ++ map Tx (pieces (Hub.hub_kind s) data))
    (Hub.with_expected_checksum (xor_bytes data 0)
       (Hub.with_checksum_ready false s)).

(** The hub object once the matching checksum has arrived. *)
Definition acked (s : Hub.t) (data : bytes) : Hub.t :=
  Hub.with_trace
    (Hub.trace (armed s data) ++ [SetExpected (-1); ReadySet])
    (Hub.with_checksum_ready true
       (Hub.with_expected_checksum (-1) (armed s data))).

(** The reply of a device that acknowledges [block]. *)
Definition ack (block : bytes) : event := Nus [byte_of_Z (xor_bytes block 0)].

(** The effects of one acknowledged block, and of one acknowledged chunk
    of the payload with its progress report. *)
Definition block_effects (kind : HubKind) (block : bytes) : list effect :=
  [ReadyClear; SetExpected (xor_bytes block 0)]
    ++ map Tx (pieces kind block) ++ [SetExpected (-1); ReadySet].

Definition chunk_effects (kind : HubKind) (chunk : bytes) : list effect :=
  block_effects kind chunk ++ [Progress (length chunk)].

(** The attributes of the older protocol object that its checksum
    handshake reads. *)
Definition handshake (s : PUP.t) : Z * option Z * bool * bool :=
  (PUP.state s, PUP.checksum s, PUP.checksum_ready s, PUP.link_up s).


(** The data written to the channel, in order. *)
Fixpoint sent (tr : list effect) : list bytes :=
  match tr with
  | [] => []
  | Tx data :: rest => data :: sent rest
  | _ :: rest => sent rest
  end.

(** The data written to the terminal, in order. *)
Fixpoint terminal (tr : list effect) : bytes :=
  match tr with
  | [] => []
  | Stdout data :: rest => data ++ terminal rest
  | _ :: rest => terminal rest
  end.

(** Nothing arrives before the timeout of the pending wait expires. *)
Definition no_reply (stream : list event) : Prop :=
  match stream with
  | [] => True
  | Deadline :: _ => True
  | _ => False
  end.

(** What the program lifecycle shows of the hub object: the loading
    flag, the running flag, the stopped signal and the terminal. *)
Definition lifecycle (s : Hub.t) : bool * bool * bool * bytes :=
  (Hub.loading s, Hub.program_running s, Hub.user_program_stopped s,
   terminal (Hub.trace s)).

(** The events of a list, delivered in order. *)
Definition deliver_all (h : Host) (s : Hub.t) (evs : list event) : Hub.t :=
  fold_left (Hub.deliver h) evs s.

(** The stream position of a [BytesIO] object is at its end, as it is
    for one that has only been written to and read with [read()]. *)
Definition appending (f : BytesIO.t) : Prop :=
  BytesIO.pos f = length (BytesIO.buf f).

(** The older protocol object as the channel sees it: whether the
    connection is up and what has been written to it. *)
Definition channel (s : PUP.t) : bool * list bytes :=
  (PUP.link_up s, sent (PUP.trace s)).

(** The text forwarded to a log file or to the terminal by [print]. *)
Fixpoint forwarded (tr : list effect) : list String.string :=
  match tr with
  | [] => []
  | FileWrite _ text :: rest => text :: forwarded rest
  | Print text :: rest => text :: forwarded rest
  | _ :: rest => forwarded rest
  end.

(** The token occurs somewhere in the line. *)
Definition occurs (token line : bytes) : Prop :=
  exists before after, line = before ++ token ++ after.

(** ** The interactive session of [PybricksHub.run]

    [pipe_and_wait] creates two tasks, [pipe_stdin] and
    [wait_for_program_end], and gives the second a done callback that
    cancels the first.  Each coroutine is a machine whose states are its
    suspension points; a label is one thing the event loop does next. *)
Module Session.

(** Where [pipe_stdin] stands. *)
Inductive pipe_state :=
| PipeCreated            (* the task exists, the coroutine has not started *)
| PipeConnecting         (* await loop.connect_read_pipe(...) *)
| PipeReading            (* data = await reader.read(chunk_size) *)
| PipeWriting            (* await self.client.write_gatt_char(NUS_RX_UUID, data) *)
| PipeReturned           (* the coroutine returned *)
| PipeCancelled          (* CancelledError left the coroutine *)
| PipeFailed (e : exn).  (* another exception left the coroutine *)

(** Where [wait_for_program_end] stands. *)
Inductive wait_state :=
| WaitCreated
| WaitStopped            (* await self.user_program_stopped.wait() *)
| WaitSettle             (* await asyncio.sleep(0.3) *)
| WaitStoppedAgain       (* the second await self.user_program_stopped.wait() *)
| WaitReturned.

Record t := mk {
  hub : Hub.t;
  pipe_task : pipe_state;
  must_cancel : bool;     (* pipe_task.cancel() was accepted, CancelledError not yet thrown *)
  cancel_calls : nat;     (* how often pipe_task.cancel() has been called *)
  wait_task : wait_state;
  callback_due : bool     (* wait_task is done, its done callback has not run yet *)
}.

Inductive label :=
| PipeStart              (* the loop runs the first step of pipe_task *)
| Connected              (* connect_read_pipe completes *)
| ConnectFailed          (* connect_read_pipe raises *)
| StdinData (data : bytes)  (* reader.read returns data *)
| StdinEOF               (* reader.read returns b"" *)
| WriteDone              (* write_gatt_char completes *)
| CancelDelivered        (* the loop resumes pipe_task with CancelledError *)
| WaitStart              (* the loop runs the first step of wait_task *)
| StoppedWake            (* user_program_stopped.wait() returns *)
| SettleElapsed          (* asyncio.sleep(0.3) returns *)
| DoneCallback           (* the loop runs the done callback of wait_task *)
| Deliver (ev : event).  (* a notification reaches its handler *)

(** [pipe_and_wait()]: both tasks created, the callback registered. *)
Definition pipe_and_wait (hub : Hub.t) : t :=
  mk hub PipeCreated false 0 WaitCreated false.

Definition pipe_done (p : pipe_state) : bool :=
  match p with
  | PipeReturned | PipeCancelled | PipeFailed _ => true
  | _ => false
  end.

(** [chunk_size = 20 if self.hub_kind == HubKind.BOOST else 100] *)
Definition chunk_size (hub : Hub.t) : nat :=
  if is_boost (Hub.hub_kind hub) then 20%nat else 100%nat.

Definition with_pipe (p : pipe_state) (s : t) : t :=
  mk (hub s) p (must_cancel s) (cancel_calls s) (wait_task s) (callback_due s).

Definition with_hub (hb : Hub.t) (s : t) : t :=
  mk hb (pipe_task s) (must_cancel s) (cancel_calls s) (wait_task s) (callback_due s).

Definition with_wait (w : wait_state) (s : t) : t :=
  mk (hub s) (pipe_task s) (must_cancel s) (cancel_calls s) w (callback_due s).

(** [wait_for_program_end] returns: the task is done and its callback
    is scheduled. *)
Definition wait_returns (s : t) : t :=
  mk (hub s) (pipe_task s) (must_cancel s) (cancel_calls s) WaitReturned true.

(** [lambda _: pipe_task.cancel()].  [Task.cancel] does nothing to a
    task that is done; otherwise the task gets [CancelledError] thrown
    into it the next time it runs. *)
Definition done_callback (s : t) : t :=
  mk (hub s) (pipe_task s)
     (if pipe_done (pipe_task s) then must_cancel s else true)
     (S (cancel_calls s)) (wait_task s) false.

Section WithHost.
Variable h : Host.

(** One step of the event loop; [None] when the loop cannot do this
    next.  A task with a cancellation pending runs next only to receive
    it.  The tasks take their first step in the order in which
    [create_task] made them. *)
Definition step (s : t) (l : label) : option t :=
  match l with
  | PipeStart =>
      match pipe_task s with
      | PipeCreated =>
          if must_cancel s
          then Some (mk (hub s) PipeCancelled false (cancel_calls s)
                        (wait_task s) (callback_due s))
          else Some (with_pipe PipeConnecting s)
      | _ => None
      end
  | Connected =>
      match pipe_task s, must_cancel s with
      | PipeConnecting, false => Some (with_pipe PipeReading s)
      | _, _ => None
      end
  | ConnectFailed =>
      match pipe_task s, must_cancel s with
      | PipeConnecting, false => Some (with_pipe (PipeFailed OSError) s)
      | _, _ => None
      end
  | StdinData data =>
      match pipe_task s, must_cancel s with
      | PipeReading, false =>
          if (0 <? length data)%nat && (length data <=? chunk_size (hub s))%nat then
            match Hub.write_gatt_char (hub s) data with
            | (Ok, hb) => Some (with_pipe PipeWriting (with_hub hb s))
            | (Raise e, hb) => Some (with_pipe (PipeFailed e) (with_hub hb s))
            end
          else None
      | _, _ => None
      end
  | StdinEOF =>
      match pipe_task s, must_cancel s with
      | PipeReading, false => Some (with_pipe PipeReturned s)
      | _, _ => None
      end
  | WriteDone =>
      match pipe_task s, must_cancel s with
      | PipeWriting, false => Some (with_pipe PipeReading s)
      | _, _ => None
      end
  | CancelDelivered =>
      match pipe_task s, must_cancel s with
      | (PipeConnecting | PipeReading | PipeWriting), true =>
          (* except asyncio.CancelledError: pass *)
          Some (mk (hub s) PipeReturned false (cancel_calls s)
                   (wait_task s) (callback_due s))
      | _, _ => None
      end
  | WaitStart =>
      match wait_task s, pipe_task s with
      | WaitCreated, PipeCreated => None
      | WaitCreated, _ =>
          if Hub.user_program_stopped (hub s)
          then Some (with_wait WaitSettle s)
          else Some (with_wait WaitStopped s)
      | _, _ => None
      end
  | StoppedWake =>
      match wait_task s, Hub.user_program_stopped (hub s) with
      | WaitStopped, true => Some (with_wait WaitSettle s)
      | WaitStoppedAgain, true => Some (wait_returns s)
      | _, _ => None
      end
  | SettleElapsed =>
      match wait_task s with
      | WaitSettle =>
          if Hub.program_running (hub s) then
            Some (with_wait WaitStoppedAgain
                    (with_hub (Hub.emit StoppedClear
                                 (Hub.with_user_program_stopped false (hub s))) s))
          else Some (wait_returns s)
      | _ => None
      end
  | DoneCallback =>
      if callback_due s then Some (done_callback s) else None
  | Deliver ev => Some (with_hub (Hub.deliver h (hub s) ev) s)
  end.

Fixpoint steps (s : t) (ls : list label) : option t :=
  match ls with
  | [] => Some s
  | l :: rest =>
      match step s l with
      | Some s1 => steps s1 rest
      | None => None
      end
  end.

End WithHost.
End Session.

(** [true] counts as one. *)
Definition count (b : bool) : nat := if b then 1%nat else 0%nat.

Definition wait_returned (w : Session.wait_state) : bool :=
  match w with Session.WaitReturned => true | _ => false end.

Definition pipe_suspended (p : Session.pipe_state) : bool :=
  match p with
  | Session.PipeConnecting | Session.PipeReading | Session.PipeWriting => true
  | _ => false
  end.

(** What holds of a session however the event loop orders its steps. *)
Definition session_invariant (s : Session.t) : Prop :=
  (Session.cancel_calls s + count (Session.callback_due s)
   = count (wait_returned (Session.wait_task s)))%nat
  /\ (Session.must_cancel s = true ->
      pipe_suspended (Session.pipe_task s) = true /\ Session.cancel_calls s = 1%nat)
  /\ Session.pipe_task s <> Session.PipeCancelled
  /\ (Session.pipe_task s = Session.PipeCreated ->
      Session.wait_task s = Session.WaitCreated).

(** How often the readiness event of the checksum slot was set. *)
Fixpoint acks (tr : list effect) : nat :=
  match tr with
  | [] => 0%nat
  | ReadySet :: rest => S (acks rest)
  | _ :: rest => acks rest
  end.

(** The blocks of a transfer: the length of the payload and then its
    chunks; none when the length does not fit in four bytes. *)
Definition transfer_blocks (mpy : bytes) : list bytes :=
  match to_bytes4_little (Z.of_nat (length mpy)) with
  | Some len_block => len_block :: chunks 100 mpy
  | None => []
  end.

(** What a notification on the control characteristic says about the
    user program, when it is a status report with a payload of four
    bytes. *)
Definition status_of (h : Host) (data : bytes) : option bool :=
  match data with
  | [] => None
  | kind :: payload =>
      if byte_val kind =? STATUS_REPORT h then
        match unpack_u32_little payload with
        | Some flags => Some (negb (Z.land flags (USER_PROGRAM_RUNNING_flag h) =? 0))
        | None => None
        end
      else None
  end.

(** ** The end of [PybricksPUPProtocol.run] *)

(** The events of a list, delivered in order to the older protocol
    object. *)
Definition pup_deliver_all (h : Host) (s : PUP.t) (evs : list event) : PUP.t :=
  fold_left (PUP.deliver h) evs s.

(** [wait_until_state_is_not]: every round is one [asyncio.sleep(0.1)],
    during which the events of the round are delivered, and then the
    test of the state.  [None] means that the rounds ran out with the
    loop still going. *)
Fixpoint wait_until_state_is_not (h : Host) (s : PUP.t) (state : Z)
    (rounds : list (list event)) : option (PUP.t * list (list event)) :=
  match rounds with
  | [] => None
  | evs :: rest =>
      let s1 := pup_deliver_all h s evs in
      if negb (PUP.state s1 =? state) then Some (s1, rest)
      else wait_until_state_is_not h s1 state rest
  end.

(** The last lines of [run]: with [wait], [asyncio.sleep(0.2)], whose
    events are the first round, and then [wait_until_state_is_not] for
    the state [RUNNING]. *)
Definition run_wait (h : Host) (s : PUP.t) (wait : bool)
    (rounds : list (list event)) : option (PUP.t * list (list event)) :=
  if wait then
    match rounds with
    | [] => None
    | evs :: rest => wait_until_state_is_not h (pup_deliver_all h s evs) PUP.RUNNING rest
    end
  else Some (s, rounds).

(** ** Measures on a run of the interactive session *)

(** What [reader.read] returned, call after call. *)
Fixpoint stdin_chunks (ls : list Session.label) : list bytes :=
  match ls with
  | [] => []
  | Session.StdinData data :: rest => data :: stdin_chunks rest
  | _ :: rest => stdin_chunks rest
  end.

Definition is_link_loss (l : Session.label) : bool :=
  match l with Session.Deliver LinkLost => true | _ => false end.

(** How often the stopped signal was set. *)
Fixpoint stops (tr : list effect) : nat :=
  match tr with
  | [] => 0%nat
  | StoppedSet :: rest => S (stops rest)
  | _ :: rest => stops rest
  end.

(** The end watcher has seen the stopped signal. *)
Definition past_first_stop (w : Session.wait_state) : bool :=
  match w with
  | Session.WaitSettle | Session.WaitStoppedAgain | Session.WaitReturned => true
  | _ => false
  end.

(** ** The terminal mode of the interactive session

    [run], when stdin is a terminal, reads the attributes of the
    terminal and changes them before it sets them for the time of the
    session. *)
Module Tty.

(** An entry of the control-character list: a byte string of length
    one as [tcgetattr] gives it, or an integer. *)
Inductive cc_entry := CcByte (b : byte) | CcInt (n : Z).

(** What [tcgetattr] returns; the indices are those of the [tty]
    module: [IFLAG] 0, [OFLAG] 1, [CFLAG] 2, [LFLAG] 3, [ISPEED] 4,
    [OSPEED] 5, [CC] 6. *)
Record mode := mk {
  iflag : Z;
  oflag : Z;
  cflag : Z;
  lflag : Z;
  ispeed : Z;
  ospeed : Z;
  cc : list cc_entry
}.

(** The constants that the code imports from [termios]; their values
    belong to the platform. *)
Record Termios := {
  ECHO : Z;
  ICANON : Z;
  ICRNL : Z;
  INLCR : Z;
  VINTR : nat;
  VMIN : nat;
  VTIME : nat
}.

(** [l[i] = v] for an index that is not negative; [None] is Python's
    [IndexError]. *)
Definition list_set {A} (l : list A) (i : nat) (v : A) : option (list A) :=
  if (i <? length l)%nat then Some (firstn i l ++ v :: skipn (S i) l) else None.

(** The assignments to [new_mode] between [tcgetattr] and [tcsetattr]. *)
Definition raw_mode (k : Termios) (m : mode) : option mode :=
  let lflag1 := Z.land (lflag m) (Z.lnot (Z.lor (ECHO k) (ICANON k))) in
  let iflag1 := Z.lor (Z.land (iflag m) (Z.lnot (ICRNL k))) (INLCR k) in
  match list_set (cc m) (VINTR k) (CcInt 24) with
  | None => None
  | Some cc1 =>
      match list_set cc1 (VMIN k) (CcInt 1) with
      | None => None
      | Some cc2 =>
          match list_set cc2 (VTIME k) (CcInt 0) with
          | None => None
          | Some cc3 =>
              Some (mk iflag1 (oflag m) (cflag m) lflag1 (ispeed m) (ospeed m) cc3)
          end
      end
  end.

End Tty.

(** The [termios] constants of Linux, to evaluate examples on. *)
Definition linux_termios : Tty.Termios := {|
  Tty.ECHO := 8;
  Tty.ICANON := 2;
  Tty.ICRNL := 256;
  Tty.INLCR := 64;
  Tty.VINTR := 0;
  Tty.VMIN := 6;
  Tty.VTIME := 5
|}.

Definition sample_mode : Tty.mode :=
  Tty.mk 17664 5 191 35387 15 15
    (map Tty.CcByte [x03; x1c; x7f; x15; x04; x00; x01; x00]).

(** ** [make_build_dir] and [save_script]

    The file system is a map from paths to what is there, and it
    grants what is asked of it. *)
Module Build.



Inductive error := FileExistsError | IsADirectoryError.






Section WithHost.
Variable h : Host.


End WithHost.
End Build.

(** ** [USBRPCConnection]: waiting for the response to a command *)
Module RPC.

(** The JSON values the code looks at. *)
Inductive json :=
| JNull                          (* None *)
| JInt (n : Z)
| JStr (s : String.string)
| JOther.                        (* any other value *)

(** A message taken from [i_data]: a JSON object, as a list of keys and
    values. *)
Definition message := list (String.string * json).

Inductive error := KeyError (key : String.string).

(** [data[key]] *)
Fixpoint lookup (key : String.string) (data : message) : option json :=
  match data with
  | [] => None
  | (k, v) :: rest => if String.eqb k key then Some v else lookup key rest
  end.

(** [value == data_id], for the string [data_id]. *)
Definition is_id (value : json) (data_id : String.string) : bool :=
  match value with
  | JStr s => String.eqb s data_id
  | _ => false
  end.

(** The [while len(self.i_data) > 0] loop: messages are popped from the
    front until one carries the id; the result is the response, if any,
    and what is left of [i_data]. *)
Fixpoint pop_until (data_id : String.string) (i_data : list message)
  : (error + option message) * list message :=
  match i_data with
  | [] => (inr None, [])
  | data :: rest =>
      match lookup "i"%string data with
      | None => (inl (KeyError "i"%string), rest)
      | Some v =>
          if is_id v data_id then (inr (Some data), rest)
          else pop_until data_id rest
      end
  end.

(** The [for i in range(30)] loop of [send_command_and_get_response],
    after the command is sent, with [rounds] rounds to go.  [arrivals]
    holds, for each [asyncio.sleep(0.1)], the messages that the line
    handler appends to [i_data] during it.  The result is the value
    returned ([JNull] when the loop ends without a response), [i_data]
    and the arrivals not yet consumed. *)
Fixpoint await_response (rounds : nat) (data_id : String.string)
    (i_data : list message) (arrivals : list (list message))
  : (error + json) * list message * list (list message) :=
  match rounds with
  | O => (inr JNull, i_data, arrivals)
  | S r =>
      match pop_until data_id i_data with
      | (inl e, queue) => (inl e, queue, arrivals)
      | (inr (Some response), queue) =>
          match lookup "r"%string response with
          | Some v => (inr v, queue, arrivals)
          | None => (inl (KeyError "r"%string), queue, arrivals)
          end
      | (inr None, queue) =>
          match arrivals with
          | [] => await_response r data_id queue []
          | a :: rest => await_response r data_id (queue ++ a) rest
          end
      end
  end.

End RPC.

(** A message that carries an id other than the one waited for. *)
Definition for_another (data_id : String.string) (data : RPC.message) : Prop :=
  exists v, RPC.lookup "i"%string data = Some v /\ RPC.is_id v data_id = false.

(** * Properties *)

(** ** Bytes, checksums and chunking *)

Lemma byte_val_range (b : byte) : 0 <= byte_val b < 256.
Proof.
  unfold byte_val. pose proof (Byte.to_N_bounded b). lia.
Qed.

Lemma lxor_byte_range (a b : Z) :
  0 <= a < 256 -> 0 <= b < 256 -> 0 <= Z.lxor a b < 256.
Proof.
  intros Ha Hb.
  assert (H0 : 0 <= Z.lxor a b) by (apply Z.lxor_nonneg; lia).
  split; [exact H0|].
  destruct (Z.eq_dec (Z.lxor a b) 0) as [E|E]; [lia|].
  change 256 with (2 ^ 8). apply Z.log2_lt_pow2; [lia|].
  pose proof (Z.log2_lxor a b ltac:(lia) ltac:(lia)) as Hl.
  assert (La : Z.log2 a < 8).
  { destruct (Z.eq_dec a 0) as [->|]; [reflexivity|].
    apply Z.log2_lt_pow2; lia. }
  assert (Lb : Z.log2 b < 8).
  { destruct (Z.eq_dec b 0) as [->|]; [reflexivity|].
    apply Z.log2_lt_pow2; lia. }
  lia.
Qed.

Lemma xor_bytes_range (data : bytes) (c : Z) :
  0 <= c < 256 -> 0 <= xor_bytes data c < 256.
Proof.
  unfold xor_bytes. revert c.
  induction data as [|b data IH]; intros c Hc; simpl; [exact Hc|].
  apply IH. apply lxor_byte_range; [exact Hc|apply byte_val_range].
Qed.

Lemma xor_bytes_armed (data : bytes) : (xor_bytes data 0 =? -1) = false.
Proof.
  pose proof (xor_bytes_range data 0 ltac:(lia)). apply Z.eqb_neq. lia.
Qed.

Lemma firstn_skipn_add {A} (a b : nat) (l : list A) :
  firstn a l ++ firstn b (skipn a l) = firstn (a + b) l.
Proof.
  revert l. induction a as [|a IH]; intros l; simpl; [reflexivity|].
  destruct l as [|x l]; simpl.
  - now rewrite firstn_nil.
  - now rewrite IH.
Qed.

Lemma concat_pieces {A} (n k : nat) (l : list A) :
  concat (map (fun i => firstn n (skipn i l))
              (map (fun j => (j * n)%nat) (seq 0 k)))
  = firstn (k * n) l.
Proof.
  induction k as [|k IH]; [reflexivity|].
  rewrite seq_S, !map_app, concat_app, IH. simpl.
  rewrite app_nil_r, firstn_skipn_add. f_equal. lia.
Qed.

Lemma ceil_covers (len n : nat) : (0 < n)%nat -> (len <= (len + n - 1) / n * n)%nat.
Proof.
  intros Hn.
  pose proof (Nat.div_mod_eq (len + n - 1) n) as E.
  pose proof (Nat.mod_upper_bound (len + n - 1) n ltac:(lia)) as U.
  nia.
Qed.

(** The chunks, put back together, are the data. *)
Lemma chunks_concat (n : nat) (data : bytes) :
  (0 < n)%nat -> concat (chunks n data) = data.
Proof.
  intros Hn. unfold chunks, range0. rewrite concat_pieces.
  apply firstn_all2. now apply ceil_covers.
Qed.

Lemma chunks_bounded (n : nat) (data : bytes) :
  Forall (fun c => (length c <= n)%nat) (chunks n data).
Proof.
  unfold chunks. apply Forall_forall. intros c Hc.
  apply in_map_iff in Hc as (i & <- & _).
  rewrite length_firstn. lia.
Qed.

Lemma chunks_nonempty (n : nat) (data : bytes) :
  (0 < n)%nat -> Forall (fun c => c <> []) (chunks n data).
Proof.
  intros Hn. unfold chunks, range0. apply Forall_forall. intros c Hc.
  apply in_map_iff in Hc as (i & <- & Hi).
  apply in_map_iff in Hi as (k & <- & Hk). apply in_seq in Hk.
  assert (Hlt : (k * n < length data)%nat).
  { pose proof (Nat.div_mod_eq (length data + n - 1) n) as E.
    pose proof (Nat.mod_upper_bound (length data + n - 1) n ltac:(lia)) as U.
    nia. }
  intros Habs. apply (f_equal (@length byte)) in Habs.
  rewrite length_firstn, length_skipn in Habs. simpl in Habs. lia.
Qed.

(** ** The line framing buffer *)

Lemma starts_with_iff (sub l : bytes) :
  starts_with sub l = true <-> exists after, l = sub ++ after.
Proof.
  revert l. induction sub as [|a sub IH]; intros l; cbn [starts_with].
  - split; [intros _; now exists l|reflexivity].
  - destruct l as [|b l].
    + split; [discriminate|]. intros [after E]. discriminate E.
    + rewrite andb_true_iff, IH. split.
      * intros [Hab [after ->]]. apply Byte.byte_dec_bl in Hab. subst.
        now exists after.
      * intros [after E]. injection E as -> ->. split.
        -- now apply Byte.byte_dec_lb.
        -- now exists after.
Qed.

(** [token in line] holds exactly when the token occurs somewhere in the
    line. *)
Lemma contains_iff (token line : bytes) :
  contains token line = true <-> occurs token line.
Proof.
  unfold contains, occurs. rewrite Z.leb_le.
  induction line as [|b line IH]; cbn [find].
  - destruct (starts_with token []) eqn:E.
    + split; [|lia]. intros _. apply starts_with_iff in E as [after Ea].
      exists [], after. exact Ea.
    + split; [lia|]. intros (before & after & Eo).
      symmetry in Eo. apply app_eq_nil in Eo as [-> Eo].
      apply app_eq_nil in Eo as [-> _]. discriminate.
  - destruct (starts_with token (b :: line)) eqn:E.
    + split; [|lia]. intros _. apply starts_with_iff in E as [after Ea].
      exists [], after. exact Ea.
    + destruct (find line token <? 0) eqn:F.
      * apply Z.ltb_lt in F. split; [lia|].
        intros ([|b' before] & after & Eo).
        -- assert (starts_with token (b :: line) = true)
             by (apply starts_with_iff; now exists after).
           congruence.
        -- injection Eo as _ Eo. assert (0 <= find line token)
             by (apply IH; now exists before, after). lia.
      * apply Z.ltb_ge in F. split; [|lia]. intros _.
        destruct (proj1 IH F) as (before & after & ->).
        now exists (b :: before), after.
Qed.

Lemma starts_with_length (sub l : bytes) :
  starts_with sub l = true -> (length sub <= length l)%nat.
Proof.
  revert l. induction sub as [|a sub IH]; intros [|b l]; simpl; try lia; try discriminate.
  intros Hs. apply andb_prop in Hs as [_ Hs]. apply IH in Hs. lia.
Qed.

Lemma starts_with_app (sub l more : bytes) :
  starts_with sub l = true -> starts_with sub (l ++ more) = true.
Proof.
  revert l. induction sub as [|a sub IH]; intros [|b l]; simpl; try easy.
  intros Hs. apply andb_prop in Hs as [Hab Hs]. now rewrite Hab, IH.
Qed.

Lemma starts_with_app_inv (sub l more : bytes) :
  starts_with sub (l ++ more) = true -> (length sub <= length l)%nat ->
  starts_with sub l = true.
Proof.
  revert l. induction sub as [|a sub IH]; intros [|b l]; simpl; try easy; try lia.
  intros Hs Hlen. apply andb_prop in Hs as [Hab Hs].
  rewrite Hab, IH; [reflexivity|exact Hs|lia].
Qed.

Lemma find_lower (l sub : bytes) : -1 <= find l sub.
Proof.
  induction l as [|b l IH]; simpl.
  - destruct (starts_with sub []); lia.
  - destruct (starts_with sub (b :: l)); [lia|].
    destruct (find l sub <? 0) eqn:E; [lia|]. apply Z.ltb_ge in E. lia.
Qed.

(** An occurrence that [find] reports lies inside the buffer. *)
Lemma find_fits (l sub : bytes) :
  0 <= find l sub -> (Z.to_nat (find l sub) + length sub <= length l)%nat.
Proof.
  induction l as [|b l IH]; simpl.
  - destruct (starts_with sub []) eqn:E; [|lia].
    intros _. apply starts_with_length in E. simpl in *. lia.
  - destruct (starts_with sub (b :: l)) eqn:E.
    + intros _. apply starts_with_length in E. simpl in *. lia.
    + destruct (find l sub <? 0) eqn:F; [lia|]. apply Z.ltb_ge in F.
      intros _. specialize (IH F). rewrite Z2Nat.inj_add by lia.
      change (Z.to_nat 1) with 1%nat. lia.
Qed.

(** The first occurrence in a buffer is still the first one after more
    bytes arrive. *)
Lemma find_app (l sub more : bytes) :
  0 <= find l sub -> find (l ++ more) sub = find l sub.
Proof.
  induction l as [|b l IH]; simpl.
  - destruct (starts_with sub []) eqn:E; [|lia].
    intros _. destruct sub; [|discriminate]. now destruct more.
  - destruct (starts_with sub (b :: l)) eqn:E.
    + intros _. change (b :: l ++ more) with ((b :: l) ++ more).
      now rewrite (starts_with_app _ _ more E).
    + destruct (find l sub <? 0) eqn:Fb; [lia|].
      pose proof (proj1 (Z.ltb_ge _ _) Fb) as F.
      intros _. pose proof (find_fits l sub F) as Hfit.
      destruct (starts_with sub (b :: l ++ more)) eqn:E'.
      * change (b :: l ++ more) with ((b :: l) ++ more) in E'.
        apply starts_with_app_inv in E'; [congruence|simpl; lia].
      * rewrite (IH F), Fb. reflexivity.
Qed.

Lemma split_lines_fuel (eol : bytes) (r r' : nat) (buf : bytes) (acc : list bytes) :
  eol <> [] -> (length buf < r)%nat -> (length buf < r')%nat ->
  split_lines r eol buf acc = split_lines r' eol buf acc.
Proof.
  intros Heol. revert r' buf acc.
  induction r as [|r IH]; intros r' buf acc Hr Hr'; [lia|].
  destruct r' as [|r']; [lia|]. simpl.
  destruct (find buf eol <? 0) eqn:F; [reflexivity|]. apply Z.ltb_ge in F.
  pose proof (find_fits buf eol F) as Hfit.
  assert (0 < length eol)%nat by (destruct eol; [congruence|simpl; lia]).
  apply IH; rewrite length_skipn; lia.
Qed.

(** With a marker that is not empty the loop ends. *)
Lemma split_lines_total (eol : bytes) (r : nat) (buf : bytes) (acc : list bytes) :
  eol <> [] -> (length buf < r)%nat ->
  exists ls rest, split_lines r eol buf acc = Some (ls, rest).
Proof.
  intros Heol. revert buf acc.
  induction r as [|r IH]; intros buf acc Hr; [lia|]. simpl.
  destruct (find buf eol <? 0) eqn:F; [now eauto|]. apply Z.ltb_ge in F.
  pose proof (find_fits buf eol F) as Hfit.
  assert (0 < length eol)%nat by (destruct eol; [congruence|simpl; lia]).
  apply IH. rewrite length_skipn. lia.
Qed.

Lemma split_lines_acc (eol : bytes) (r : nat) (buf : bytes) (acc : list bytes) :
  split_lines r eol buf acc
  = match split_lines r eol buf [] with
    | Some (ls, rest) => Some (acc ++ ls, rest)
    | None => None
    end.
Proof.
  revert buf acc. induction r as [|r IH]; intros buf acc; simpl; [reflexivity|].
  destruct (find buf eol <? 0); [now rewrite app_nil_r|].
  simpl. rewrite (IH _ (acc ++ _)), (IH _ [_]).
  destruct (split_lines r eol _ []) as [[ls rest]|]; [|reflexivity].
  now rewrite <- app_assoc.
Qed.

(** What the loop leaves in the buffer holds no marker. *)
Lemma split_lines_drained (eol : bytes) (r : nat) (buf : bytes)
    (acc ls : list bytes) (rest : bytes) :
  split_lines r eol buf acc = Some (ls, rest) -> find rest eol < 0.
Proof.
  revert buf acc. induction r as [|r IH]; intros buf acc; simpl; [discriminate|].
  destruct (find buf eol <? 0) eqn:F.
  - intros [= <- <-]. now apply Z.ltb_lt.
  - apply IH.
Qed.

(** Taking the lines out of a buffer and then out of what is left plus
    more bytes gives what taking them out of the whole gives. *)
Lemma split_lines_app (eol : bytes) (r1 r2 r3 : nat) (buf more : bytes)
    (acc ls : list bytes) (rest : bytes) :
  eol <> [] ->
  split_lines r1 eol buf acc = Some (ls, rest) ->
  (length (buf ++ more) < r2)%nat -> (length (rest ++ more) < r3)%nat ->
  split_lines r2 eol (buf ++ more) acc = split_lines r3 eol (rest ++ more) ls.
Proof.
  intros Heol. revert r2 buf acc.
  induction r1 as [|r1 IH]; intros r2 buf acc; simpl; [discriminate|].
  destruct (find buf eol <? 0) eqn:F.
  - intros [= <- <-] H2 H3. now apply split_lines_fuel.
  - apply Z.ltb_ge in F. intros Hs H2 H3.
    pose proof (find_fits buf eol F) as Hfit.
    assert (0 < length eol)%nat by (destruct eol; [congruence|simpl; lia]).
    destruct r2 as [|r2]; [lia|]. simpl.
    rewrite (find_app buf eol more F).
    destruct (find buf eol <? 0) eqn:F'; [apply Z.ltb_lt in F'; lia|].
    rewrite skipn_app, firstn_app.
    replace (Z.to_nat (find buf eol) + length eol - length buf)%nat with 0%nat by lia.
    replace (Z.to_nat (find buf eol) - length buf)%nat with 0%nat by lia.
    simpl. rewrite app_nil_r.
    apply (IH _ _ _ Hs); [|exact H3].
    rewrite length_app in *. rewrite length_skipn. lia.
Qed.

(** The marker sits where [find] reports it. *)
Lemma find_occurrence (l sub : bytes) :
  0 <= find l sub ->
  exists after, skipn (Z.to_nat (find l sub)) l = sub ++ after.
Proof.
  induction l as [|b l IH]; cbn [find].
  - destruct (starts_with sub []) eqn:E; [|lia].
    intros _. apply starts_with_iff in E as [after Ea]. now exists after.
  - destruct (starts_with sub (b :: l)) eqn:E.
    + intros _. apply starts_with_iff in E as [after Ea]. now exists after.
    + destruct (find l sub <? 0) eqn:F; [lia|]. apply Z.ltb_ge in F. intros _.
      destruct (IH F) as [after Ea]. exists after.
      rewrite Z2Nat.inj_add by lia. change (Z.to_nat 1) with 1%nat.
      rewrite Nat.add_1_r. exact Ea.
Qed.

(** Before the first occurrence there is none. *)
Lemma find_nothing_before (l sub : bytes) :
  sub <> [] -> 0 <= find l sub ->
  find (firstn (Z.to_nat (find l sub)) l) sub < 0.
Proof.
  intros Hne Hf. remember (Z.to_nat (find l sub)) as i eqn:Hi.
  destruct (Z.ltb_spec (find (firstn i l) sub) 0) as [|Hge]; [assumption|exfalso].
  pose proof (find_fits _ _ Hge) as Hfit.
  pose proof (find_app _ sub (skipn i l) Hge) as Happ.
  rewrite firstn_skipn in Happ. rewrite length_firstn, <- Happ in Hfit.
  assert (0 < length sub)%nat by (destruct sub; [congruence|simpl; lia]).
  lia.
Qed.

Lemma split_lines_rebuild (eol : bytes) (r : nat) (buf : bytes)
    (acc ls : list bytes) (rest : bytes) :
  eol <> [] ->
  split_lines r eol buf acc = Some (ls, rest) ->
  exists new,
    ls = acc ++ new
    /\ concat (map (fun l => l ++ eol) new) ++ rest = buf
    /\ Forall (fun l => find l eol < 0) new.
Proof.
  intros Hne. revert buf acc.
  induction r as [|r IH]; intros buf acc; cbn [split_lines]; [discriminate|].
  destruct (find buf eol <? 0) eqn:F.
  - intros [= <- <-]. exists []. rewrite app_nil_r. repeat split. constructor.
  - apply Z.ltb_ge in F. intros Hs.
    destruct (IH _ _ Hs) as (new & -> & Hcat & Hall).
    exists (firstn (Z.to_nat (find buf eol)) buf :: new).
    split; [now rewrite <- app_assoc|]. split.
    + cbn [map concat]. rewrite <- !app_assoc, Hcat.
      destruct (find_occurrence buf eol F) as [after Ea].
      transitivity (firstn (Z.to_nat (find buf eol)) buf
                      ++ skipn (Z.to_nat (find buf eol)) buf);
        [|apply firstn_skipn].
      f_equal. rewrite Ea. f_equal.
      rewrite Nat.add_comm, <- skipn_skipn, Ea.
      now rewrite skipn_app, skipn_all, Nat.sub_diag.
    + constructor; [|exact Hall]. now apply find_nothing_before.
Qed.


Lemma glue_feed_chars (s : CharacterGlue.t) (data : bytes) :
  feed_chars s data
  = CharacterGlue.mk (CharacterGlue.glue_EOL s)
      (CharacterGlue.glue_char_buf s ++ data) (CharacterGlue.printed s).
Proof.
  revert s. induction data as [|b data IH]; intros [eol buf out]; simpl.
  - now rewrite app_nil_r.
  - rewrite IH. simpl. now rewrite <- app_assoc.
Qed.

Lemma glue_handle_lines (s : CharacterGlue.t) (lines : list bytes) :
  handle_lines s lines
  = (Ok, CharacterGlue.mk (CharacterGlue.glue_EOL s)
           (CharacterGlue.glue_char_buf s) (CharacterGlue.printed s ++ lines)).
Proof.
  revert s. induction lines as [|l lines IH]; intros [eol buf out]; simpl.
  - now rewrite app_nil_r.
  - rewrite IH. simpl. now rewrite <- app_assoc.
Qed.

(** [data_handler] of the base class, in one equation. *)
Lemma glue_data_handler (s : CharacterGlue.t) (data : bytes) :
  data_handler s data
  = let buf := CharacterGlue.glue_char_buf s ++ data in
    match CharacterGlue.glue_EOL s with
    | None => Some (Ok, CharacterGlue.mk None buf (CharacterGlue.printed s))
    | Some eol =>
        match split_lines (S (length buf)) eol buf [] with
        | Some (ls, rest) =>
            Some (Ok, CharacterGlue.mk (Some eol) rest (CharacterGlue.printed s ++ ls))
        | None => None
        end
    end.
Proof.
  unfold data_handler. rewrite glue_feed_chars. destruct s as [[eol|] buf out]; simpl; [|reflexivity].
  destruct (find (buf ++ data) eol <? 0); [now rewrite app_nil_r|].
  destruct (split_lines _ _ _ _) as [[ls rest]|]; [|reflexivity].
  now rewrite glue_handle_lines.
Qed.

Lemma glue_data_handler_drained (s s1 : CharacterGlue.t) (data : bytes) :
  data_handler s data = Some (Ok, s1) -> drained s1.
Proof.
  rewrite glue_data_handler. destruct s as [[eol|] buf out]; cbn -[split_lines].
  - destruct (split_lines _ _ _ _) as [[ls rest]|] eqn:E; [|discriminate].
    intros [= <-]. unfold drained. simpl. eapply split_lines_drained, E.
  - intros [= <-]. exact I.
Qed.

(** One call on [data ++ more] does what a call on [data] followed by a
    call on [more] does. *)
Lemma glue_data_handler_app (s s1 : CharacterGlue.t) (data more : bytes) :
  CharacterGlue.glue_EOL s <> Some [] ->
  data_handler s data = Some (Ok, s1) ->
  data_handler s (data ++ more) = data_handler s1 more.
Proof.
  intros Heol. rewrite !glue_data_handler.
  destruct s as [[eol|] buf out]; cbn -[split_lines].
  - assert (Hne : eol <> []) by (intros ->; now apply Heol).
    destruct (split_lines (S (length (buf ++ data))) eol (buf ++ data) [])
      as [[ls rest]|] eqn:E; [|discriminate].
    intros [= <-]. cbn -[split_lines].
    rewrite app_assoc.
    rewrite (split_lines_app eol _ _ (S (length (rest ++ more))) _ more _ _ _ Hne E)
      by lia.
    rewrite (split_lines_acc eol _ (rest ++ more) ls).
    destruct (split_lines _ eol (rest ++ more) []) as [[ls' rest']|]; [|reflexivity].
    now rewrite app_assoc.
  - intros [= <-]. simpl. now rewrite app_assoc.
Qed.

Lemma glue_data_handler_total (s : CharacterGlue.t) (data : bytes) :
  CharacterGlue.glue_EOL s <> Some [] ->
  exists s1, data_handler s data = Some (Ok, s1)
             /\ CharacterGlue.glue_EOL s1 = CharacterGlue.glue_EOL s.
Proof.
  intros Heol. rewrite glue_data_handler.
  destruct s as [[eol|] buf out]; cbn -[split_lines]; [|now eauto].
  assert (Hne : eol <> []) by (intros ->; now apply Heol).
  destruct (split_lines_total eol (S (length (buf ++ data))) (buf ++ data) [] Hne)
    as (ls & rest & ->); [lia|]. now eauto.
Qed.

(** ** The complete lines of a stream *)




(** A stream has one list of complete lines and one unfinished end. *)
Lemma complete_lines_first (eol stream l : bytes) (ls : list bytes) (r : bytes) :
  complete_lines eol stream (l :: ls) r ->
  find stream eol = Z.of_nat (length l)
  /\ complete_lines eol (skipn (length l + length eol) stream) ls r.
Proof.
  intros (C & A & R). pose proof (Forall_inv A) as H. pose proof (Forall_inv_tail A) as A'.
  cbn beta in H. cbn [map concat] in C. rewrite <- app_assoc in C.
  assert (Hge : 0 <= find (l ++ eol) eol) by lia.
  pose proof (find_app _ eol (concat (map (fun l => l ++ eol) ls) ++ r) Hge) as Happ.
  rewrite C, H in Happ. split; [exact Happ|].
  split; [|split; [exact A'|exact R]].
  rewrite <- C, <- length_app, skipn_app, skipn_all, Nat.sub_diag. reflexivity.
Qed.

Lemma complete_lines_unique (eol stream : bytes) (ls1 ls2 : list bytes)
    (r1 r2 : bytes) :
  complete_lines eol stream ls1 r1 -> complete_lines eol stream ls2 r2 ->
  ls1 = ls2 /\ r1 = r2.
Proof.
  revert stream ls2. induction ls1 as [|l1 ls1 IH]; intros stream ls2 H1 H2.
  - destruct ls2 as [|l2 ls2].
    + destruct H1 as (C1 & _), H2 as (C2 & _). cbn in C1, C2. split; congruence.
    + exfalso. destruct H1 as (C1 & _ & R1). cbn in C1.
      destruct (complete_lines_first _ _ _ _ _ H2) as [F _]. rewrite <- C1 in F. lia.
  - destruct (complete_lines_first _ _ _ _ _ H1) as [F1 T1].
    destruct ls2 as [|l2 ls2].
    + exfalso. destruct H2 as (C2 & _ & R2). cbn in C2. rewrite <- C2 in F1. lia.
    + destruct (complete_lines_first _ _ _ _ _ H2) as [F2 T2].
      assert (Hlen : length l1 = length l2) by lia.
      assert (l1 = l2).
      { destruct H1 as (C1 & _), H2 as (C2 & _). cbn [map concat] in C1, C2.
        rewrite <- C2, <- !app_assoc in C1.
        pose proof (f_equal (firstn (length l1)) C1) as E.
        rewrite firstn_app, firstn_all, Nat.sub_diag in E.
        cbn [firstn] in E. rewrite app_nil_r in E.
        rewrite Hlen, firstn_app, firstn_all, Nat.sub_diag in E.
        cbn [firstn] in E. now rewrite app_nil_r in E. }
      subst l2. destruct (IH _ _ T1 T2) as [-> ->]. now split.
Qed.

(** ** [data_handler] in a class that leaves the framing to it *)



Section Framing.
Context {T : Type} {G : Glue T} (passing : T -> Prop).
Hypothesis plain : plain_framing G passing.











End Framing.

(** ** The checksum slot of [PybricksHub] *)

(** C10. While a checksum is awaited ([expected_checksum] is not -1), a
    notification is judged by its first byte alone: the bytes after it
    change nothing, so they are neither buffered nor printed nor read as
    another checksum.  When the first byte matches, the slot is set back
    to -1 and then the readiness event is set, in that order, and nothing
    else changes; when it differs, the handler raises and leaves the
    object as it was. *)
Theorem pending_checksum_takes_first_byte (s : Hub.t) (b : byte) (rest : bytes) :
  Hub.expected_checksum s <> -1 ->
  Hub.nus_handler s (b :: rest) = Hub.nus_handler s [b]
  /\ (byte_val b = Hub.expected_checksum s ->
      Hub.nus_handler s (b :: rest)
      = (Ok, Hub.with_trace (Hub.trace s ++ [SetExpected (-1); ReadySet])
               (Hub.with_checksum_ready true (Hub.with_expected_checksum (-1) s))))
  /\ (byte_val b <> Hub.expected_checksum s ->
      Hub.nus_handler s (b :: rest)
      = (Raise (RuntimeError_checksum (Hub.expected_checksum s) (byte_val b)), s)).
Proof.
  intros Harmed. unfold Hub.nus_handler.
  apply Z.eqb_neq in Harmed. rewrite Harmed. cbn [negb].
  split; [reflexivity|]. split; intros Hb.
  - apply Z.eqb_eq in Hb. rewrite Hb. cbn [negb].
    unfold Hub.emit. cbn. now rewrite <- app_assoc.
  - apply Z.eqb_neq in Hb. now rewrite Hb.
Qed.

Lemma pending_checksum_takes_first_byte_witness :
  let s := Hub.with_expected_checksum 7 (Hub.init OTHER_HUB) in
  Hub.nus_handler s (x07 :: [x68; x69]) = Hub.nus_handler s [x07]
  /\ (byte_val x07 = Hub.expected_checksum s ->
      Hub.nus_handler s (x07 :: [x68; x69])
      = (Ok, Hub.with_trace (Hub.trace s ++ [SetExpected (-1); ReadySet])
               (Hub.with_checksum_ready true (Hub.with_expected_checksum (-1) s))))
  /\ (byte_val x07 <> Hub.expected_checksum s ->
      Hub.nus_handler s (x07 :: [x68; x69])
      = (Raise (RuntimeError_checksum (Hub.expected_checksum s) (byte_val x07)), s)).
Proof.
  apply (pending_checksum_takes_first_byte
           (Hub.with_expected_checksum 7 (Hub.init OTHER_HUB)) x07 [x68; x69]).
  simpl. lia.
Defined.

(** Whatever makes [send_block] fail, the slot is back at -1 when the
    exception reaches the caller. *)
Lemma send_block_failure_disarms (h : Host) (s : Hub.t) (data : bytes)
    (stream : list event) (e : exn) :
  fst (fst (Hub.send_block h s data stream)) = Raise e ->
  Hub.expected_checksum (snd (fst (Hub.send_block h s data stream))) = -1.
Proof.
  unfold Hub.send_block.
  match goal with
  | |- context [match ?a with (_, _) => _ end] => destruct a as [[[|e'] s4] rest']
  end; cbn; [discriminate|reflexivity].
Qed.

(** ** [send_block] *)

Lemma byte_val_of_Z (z : Z) : byte_val (byte_of_Z z) = z mod 256.
Proof.
  unfold byte_val, byte_of_Z.
  pose proof (Z.mod_pos_bound z 256 ltac:(lia)) as Hz.
  destruct (Byte.of_N (Z.to_N (z mod 256))) as [b|] eqn:E.
  - apply Byte.to_of_N in E. rewrite E. lia.
  - apply Byte.of_N_None_iff in E. lia.
Qed.

Lemma ack_value (block : bytes) :
  byte_val (byte_of_Z (xor_bytes block 0)) = xor_bytes block 0.
Proof.
  rewrite byte_val_of_Z. apply Z.mod_small. apply xor_bytes_range. lia.
Qed.

(** Unfolds the attribute updates of the hub object. *)
Ltac hub_fields :=
  unfold Hub.emit, Hub.with_trace, Hub.with_expected_checksum,
    Hub.with_checksum_ready, Hub.with_loading, Hub.with_program_running,
    Hub.with_user_program_stopped, Hub.with_buffered_stdout, Hub.with_log_file,
    Hub.with_output, Hub.with_print_output, Hub.with_script_dir, Hub.with_link_up in *;
  cbn [Hub.output Hub.print_output Hub.expected_checksum Hub.checksum_ready
       Hub.loading Hub.program_running Hub.user_program_stopped Hub.hub_kind
       Hub.buffered_stdout Hub.log_file Hub.script_dir Hub.link_up Hub.trace] in *.

Lemma write_pieces_ok (s : Hub.t) (ps : list bytes) :
  Hub.link_up s = true ->
  Hub.write_pieces s ps = (Ok, Hub.with_trace (Hub.trace s ++ map Tx ps) s).
Proof.
  revert s. induction ps as [|p ps IH]; intros s Hup.
  - destruct s. hub_fields. cbn. now rewrite app_nil_r.
  - cbn [Hub.write_pieces]. unfold Hub.write_gatt_char. rewrite Hup.
    rewrite IH by exact Hup. hub_fields. cbn [map]. now rewrite <- app_assoc.
Qed.

(** On a connection that is up [send_block] arms the slot, writes the
    block and waits. *)
Lemma send_block_armed (h : Host) (s : Hub.t) (data : bytes) (stream : list event) :
  Hub.link_up s = true ->
  Hub.send_block h s data stream
  = match Hub.await_checksum_ready h (armed s data) stream with
    | (Raise e, s4, rest) =>
        (Raise e, Hub.emit (SetExpected (-1)) (Hub.with_expected_checksum (-1) s4), rest)
    | (Ok, s4, rest) => (Ok, s4, rest)
    end.
Proof.
  intros Hup. unfold Hub.send_block.
  match goal with
  | |- match match ?w with _ => _ end with _ => _ end = _ =>
      replace w with (Ok, armed s data)
  end; [reflexivity|].
  unfold armed, pieces. hub_fields.
  destruct (is_boost (Hub.hub_kind s)).
  - rewrite write_pieces_ok by exact Hup. hub_fields.
    now rewrite <- !app_assoc.
  - unfold Hub.write_gatt_char. hub_fields. rewrite Hup. cbn [map].
    now rewrite <- !app_assoc.
Qed.

(** The matching checksum ends the wait. *)
Lemma await_ack (h : Host) (s : Hub.t) (data : bytes) (b : byte) (more : bytes)
    (stream : list event) :
  byte_val b = xor_bytes data 0 ->
  Hub.await_checksum_ready h (armed s data) (Nus (b :: more) :: stream)
  = (Ok, acked s data, stream).
Proof.
  intros Hb. cbn [Hub.await_checksum_ready].
  change (Hub.checksum_ready (armed s data)) with false. cbn iota.
  cbn [Hub.deliver]. unfold Hub.nus_handler.
  change (Hub.expected_checksum (armed s data)) with (xor_bytes data 0).
  rewrite xor_bytes_armed, Hb, Z.eqb_refl. cbn [negb].
  replace (Hub.emit ReadySet _) with (acked s data)
    by (unfold acked; hub_fields; now rewrite <- app_assoc).
  destruct stream as [|ev stream]; reflexivity.
Qed.

(** Any other first byte makes the callback raise and the wait go on. *)
Lemma await_mismatch (h : Host) (s : Hub.t) (data : bytes) (b : byte) (more : bytes)
    (stream : list event) :
  byte_val b <> xor_bytes data 0 ->
  Hub.await_checksum_ready h (armed s data) (Nus (b :: more) :: stream)
  = Hub.await_checksum_ready h
      (Hub.emit (CallbackRaised (RuntimeError_checksum (xor_bytes data 0) (byte_val b)))
         (armed s data)) stream.
Proof.
  intros Hb. cbn [Hub.await_checksum_ready].
  change (Hub.checksum_ready (armed s data)) with false. cbn iota.
  cbn [Hub.deliver]. unfold Hub.nus_handler.
  change (Hub.expected_checksum (armed s data)) with (xor_bytes data 0).
  apply Z.eqb_neq in Hb. rewrite xor_bytes_armed, Hb. reflexivity.
Qed.

(** ** [send_message] *)

Ltac pup_fields :=
  unfold PUP.emit, PUP.with_trace, PUP.with_checksum, PUP.with_checksum_ready,
    PUP.with_state, PUP.with_char_buf_, PUP.with_log_file, PUP.with_output,
    PUP.with_print_output, PUP.with_link_up in *;
  cbn [PUP.char_buf_ PUP.state PUP.checksum PUP.checksum_ready PUP.log_file
       PUP.output PUP.print_output PUP.link_up PUP.trace] in *.

Lemma pup_line_handler_handshake (h : Host) (s : PUP.t) (line : bytes) :
  handshake (snd (PUP.line_handler h s line)) = handshake s.
Proof.
  unfold PUP.line_handler.
  repeat match goal with
         | |- context [if ?c then _ else _] => destruct c
         | |- context [match ?o with Some _ => _ | None => _ end] => destruct o
         end; reflexivity.
Qed.

Lemma pup_handle_lines_handshake (h : Host) (s : PUP.t) (lines : list bytes) :
  handshake (snd (@handle_lines PUP.t (PUP.glue h) s lines)) = handshake s.
Proof.
  revert s. induction lines as [|l lines IH]; intros s; [reflexivity|].
  cbn [handle_lines line_handler PUP.glue].
  pose proof (pup_line_handler_handshake h s l) as Hl.
  destruct (PUP.line_handler h s l) as [[|e] s1]; cbn [snd] in *.
  - now rewrite IH.
  - exact Hl.
Qed.

(** While the state is [AWAITING_CHECKSUM] every byte of a notification
    is taken as the checksum, so the last one stays. *)
Lemma pup_feed_chars_awaiting (h : Host) (s : PUP.t) (data : bytes) :
  PUP.state s = PUP.AWAITING_CHECKSUM ->
  let s' := @feed_chars PUP.t (PUP.glue h) s data in
  PUP.state s' = PUP.AWAITING_CHECKSUM
  /\ PUP.link_up s' = PUP.link_up s
  /\ PUP.char_buf_ s' = PUP.char_buf_ s
  /\ (data <> [] ->
      PUP.checksum_ready s' = true
      /\ PUP.checksum s' = Some (byte_val (last data x00))).
Proof.
  revert s. induction data as [|b data IH]; intros s Hst; cbn zeta.
  - repeat split; try reflexivity; try exact Hst; congruence.
  - cbn [feed_chars char_handler PUP.glue]. unfold PUP.char_handler.
    rewrite Hst. cbn [Z.eqb PUP.AWAITING_CHECKSUM Pos.eqb].
    set (s1 := PUP.emit ReadySet _).
    destruct (IH s1 Hst) as (H1 & H2 & H3 & H4).
    repeat split; try assumption.
    + destruct data as [|b' data]; [reflexivity|]. apply H4. discriminate.
    + destruct data as [|b' data]; [reflexivity|]. apply H4. discriminate.
Qed.

Lemma pup_data_handler_total (h : Host) (s : PUP.t) (data : bytes) :
  exists r s', @data_handler PUP.t (PUP.glue h) s data = Some (r, s')
    /\ handshake s' = handshake (@feed_chars PUP.t (PUP.glue h) s data).
Proof.
  unfold data_handler. cbn [EOL char_buf set_char_buf PUP.glue].
  set (s1 := feed_chars s data).
  destruct (split_lines_total CRLF (S (length (PUP.char_buf_ s1))) (PUP.char_buf_ s1) [])
    as (ls & rest & ->); [discriminate|lia|].
  pose proof (pup_handle_lines_handshake h (PUP.with_char_buf_ rest s1) ls) as Hh.
  destruct (handle_lines _ ls) as [r s']. exists r, s'. split; [reflexivity|].
  exact Hh.
Qed.

Lemma pup_deliver_awaiting (h : Host) (s : PUP.t) (b : byte) (more : bytes) :
  PUP.state s = PUP.AWAITING_CHECKSUM ->
  let s' := PUP.deliver h s (Nus (b :: more)) in
  PUP.state s' = PUP.AWAITING_CHECKSUM
  /\ PUP.checksum_ready s' = true
  /\ PUP.checksum s' = Some (byte_val (last (b :: more) x00))
  /\ PUP.link_up s' = PUP.link_up s.
Proof.
  intros Hst. cbn zeta. unfold PUP.deliver.
  destruct (pup_data_handler_total h s (b :: more)) as (r & s' & -> & Hh).
  destruct (pup_feed_chars_awaiting h s (b :: more) Hst) as (H1 & H2 & _ & H4).
  destruct H4 as [H4 H5]; [discriminate|].
  unfold handshake in Hh. injection Hh as E1 E2 E3 E4.
  destruct r; pup_fields; rewrite ?E1, ?E2, ?E3, ?E4; auto.
Qed.

Lemma pup_prepare_checksum_state (s : PUP.t) :
  PUP.state (PUP.prepare_checksum s) = PUP.AWAITING_CHECKSUM
  /\ PUP.checksum_ready (PUP.prepare_checksum s) = false
  /\ PUP.link_up (PUP.prepare_checksum s) = PUP.link_up s.
Proof.
  unfold PUP.prepare_checksum, PUP.set_state.
  destruct (PUP.AWAITING_CHECKSUM =? PUP.state s) eqn:E; pup_fields; auto.
  apply Z.eqb_eq in E. auto.
Qed.

(** ** Fragments of a stream *)

(** The base class leaves the framing to [data_handler] in every
    state. *)
Lemma character_glue_plain : plain_framing CharacterGlue.glue (fun _ => True).
Proof.
  constructor.
  - intros s c _. reflexivity.
  - intros b s. reflexivity.
  - intros b b' s. reflexivity.
  - intros [eol buf out]. reflexivity.
  - intros b s. reflexivity.
  - intros b s _. exact I.
  - intros b s l. reflexivity.
  - intros s l s1 _ [= <-]. now split.
Qed.






Example framing_three_fragments :
  feed_fragments (CharacterGlue.init (Some CRLF))
    [[x61; x0d]; [x0a; x62]; [x0d; x0a; x63]]
  = Some (Ok, CharacterGlue.mk (Some CRLF) [x63] [[x61]; [x62]]).
Proof. reflexivity. Qed.

Lemma pup_await_unfold (h : Host) (s : PUP.t) (stream : list event) :
  PUP.await_checksum_ready h s stream
  = if PUP.checksum_ready s then (Ok, s, stream)
    else match stream with
         | [] => (Raise TimeoutError, s, [])
         | Deadline :: rest => (Raise TimeoutError, s, rest)
         | ev :: rest => PUP.await_checksum_ready h (PUP.deliver h s ev) rest
         end.
Proof. destruct stream; reflexivity. Qed.

Lemma hub_await_unfold (h : Host) (s : Hub.t) (stream : list event) :
  Hub.await_checksum_ready h s stream
  = if Hub.checksum_ready s then (Ok, s, stream)
    else match stream with
         | [] => (Raise TimeoutError, s, [])
         | Deadline :: rest => (Raise TimeoutError, s, rest)
         | ev :: rest => Hub.await_checksum_ready h (Hub.deliver h s ev) rest
         end.
Proof. destruct stream; reflexivity. Qed.

(** [send_message] with a reply in one notification: the last byte of
    the notification is compared with the checksum. *)
Lemma pup_send_message_reply (h : Host) (s : PUP.t) (data : bytes) (b : byte)
    (more : bytes) (stream : list event) :
  (length data <= 100)%nat -> PUP.link_up s = true ->
  fst (fst (PUP.send_message h s data (Nus (b :: more) :: stream)))
  = if byte_val (last (b :: more) x00) =? xor_bytes data 0 then Ok
    else Raise (ValueError_checksum (xor_bytes data 0)
                  (Some (byte_val (last (b :: more) x00)))).
Proof.
  intros Hlen Hup. unfold PUP.send_message.
  destruct (100 <? length data)%nat eqn:E; [apply Nat.ltb_lt in E; lia|].
  destruct (pup_prepare_checksum_state s) as (P1 & P2 & P3).
  unfold PUP.write. rewrite P3, Hup.
  unfold PUP.wait_for_checksum. rewrite pup_await_unfold.
  replace (PUP.checksum_ready (PUP.emit (Tx data) (PUP.prepare_checksum s)))
    with false by (pup_fields; now rewrite P2).
  destruct (pup_deliver_awaiting h (PUP.emit (Tx data) (PUP.prepare_checksum s)) b more)
    as (D1 & D2 & D3 & D4); [pup_fields; exact P1|].
  rewrite pup_await_unfold, D2, D3.
  destruct (_ =? _); reflexivity.
Qed.

Lemma pup_send_message_timeout (h : Host) (s : PUP.t) (data : bytes) (stream : list event) :
  (length data <= 100)%nat -> PUP.link_up s = true -> no_reply stream ->
  fst (fst (PUP.send_message h s data stream)) = Raise TimeoutError
  /\ PUP.state (snd (fst (PUP.send_message h s data stream))) = PUP.AWAITING_CHECKSUM.
Proof.
  intros Hlen Hup Hno. unfold PUP.send_message.
  destruct (100 <? length data)%nat eqn:E; [apply Nat.ltb_lt in E; lia|].
  destruct (pup_prepare_checksum_state s) as (P1 & P2 & P3).
  unfold PUP.write. rewrite P3, Hup.
  unfold PUP.wait_for_checksum. rewrite pup_await_unfold.
  replace (PUP.checksum_ready (PUP.emit (Tx data) (PUP.prepare_checksum s)))
    with false by (pup_fields; now rewrite P2).
  destruct stream as [|[| | |] rest]; try contradiction; cbn [fst snd];
    (split; [reflexivity|pup_fields; exact P1]).
Qed.

Lemma sent_app (tr1 tr2 : list effect) : sent (tr1 ++ tr2) = sent tr1 ++ sent tr2.
Proof.
  induction tr1 as [|e tr1 IH]; [reflexivity|].
  destruct e; cbn [sent app]; rewrite IH; reflexivity.
Qed.

Lemma sent_map_Tx (blocks : list bytes) : sent (map Tx blocks) = blocks.
Proof. induction blocks as [|b bs IH]; [reflexivity|]. cbn. now rewrite IH. Qed.

Ltac trace_extension :=
  first [ exists []; split; [now rewrite app_nil_r|reflexivity]
        | eexists; split; [reflexivity|reflexivity]
        | eexists; split; [rewrite <- app_assoc; reflexivity|reflexivity] ].

(** What the handlers add to the trace comes after what was there, and
    no handler writes to the channel. *)
Lemma hub_deliver_extends (h : Host) (s : Hub.t) (ev : event) :
  exists tr, Hub.trace (Hub.deliver h s ev) = Hub.trace s ++ tr /\ sent tr = [].
Proof.
  destruct ev as [data|data| |]; cbn [Hub.deliver].
  - unfold Hub.nus_handler.
    repeat match goal with
           | |- context [if ?c then _ else _] => destruct c
           | |- context [match ?l with [] => _ | _ :: _ => _ end] => destruct l
           end; hub_fields; trace_extension.
  - unfold Hub.pybricks_service_handler.
    repeat match goal with
           | |- context [if ?c then _ else _] => destruct c
           | |- context [match ?l with [] => _ | _ :: _ => _ end] => destruct l
           | |- context [match ?o with Some _ => _ | None => _ end] => destruct o
           | |- context [let (_, _) := ?p in _] => destruct p
           end; hub_fields; trace_extension.
  - hub_fields. trace_extension.
  - trace_extension.
Qed.

Lemma hub_await_extends (h : Host) (s : Hub.t) (stream : list event) :
  exists tr,
    Hub.trace (snd (fst (Hub.await_checksum_ready h s stream))) = Hub.trace s ++ tr
    /\ sent tr = [].
Proof.
  revert s. induction stream as [|ev stream IH]; intros s; rewrite hub_await_unfold.
  - destruct (Hub.checksum_ready s); trace_extension.
  - destruct (Hub.checksum_ready s); [trace_extension|].
    destruct (hub_deliver_extends h s ev) as (tr1 & E1 & S1).
    destruct (IH (Hub.deliver h s ev)) as (tr2 & E2 & S2).
    destruct ev;
      try (exists (tr1 ++ tr2); rewrite E2, E1, sent_app, S1, S2;
           split; [now rewrite app_assoc|reflexivity]).
    trace_extension.
Qed.

(** [send_block] writes the whole block, whatever its length. *)
Lemma send_block_writes (h : Host) (s : Hub.t) (data : bytes) (stream : list event) :
  Hub.link_up s = true ->
  sent (Hub.trace (snd (fst (Hub.send_block h s data stream))))
  = sent (Hub.trace s) ++ pieces (Hub.hub_kind s) data.
Proof.
  intros Hup. rewrite send_block_armed by exact Hup.
  destruct (hub_await_extends h (armed s data) stream) as (tr & E & St).
  destruct (Hub.await_checksum_ready h (armed s data) stream) as [[[|e] s4] rest];
    cbn [fst snd] in *; hub_fields; rewrite E; unfold armed; hub_fields;
    rewrite !sent_app, St, sent_map_Tx; cbn [sent]; now rewrite ?app_nil_r.
Qed.

Lemma send_block_reply (h : Host) (s : Hub.t) (data : bytes) (b : byte) (more : bytes) :
  Hub.link_up s = true ->
  let r := Hub.send_block h s data [Nus (b :: more)] in
  (byte_val b = xor_bytes data 0 -> r = (Ok, acked s data, []))
  /\ (byte_val b <> xor_bytes data 0 ->
      fst (fst r) = Raise TimeoutError
      /\ In (CallbackRaised (RuntimeError_checksum (xor_bytes data 0) (byte_val b)))
            (Hub.trace (snd (fst r)))).
Proof.
  intros Hup. cbn zeta. rewrite send_block_armed by exact Hup. split; intros Hb.
  - now rewrite await_ack.
  - rewrite await_mismatch by exact Hb. rewrite hub_await_unfold.
    hub_fields. unfold armed. hub_fields. cbn [fst snd]. split; [reflexivity|].
    hub_fields. rewrite !in_app_iff. left. right. left. reflexivity.
Qed.

Lemma send_block_timeout (h : Host) (s : Hub.t) (data : bytes) (stream : list event) :
  Hub.link_up s = true -> no_reply stream ->
  fst (fst (Hub.send_block h s data stream)) = Raise TimeoutError.
Proof.
  intros Hup Hno. rewrite send_block_armed by exact Hup. rewrite hub_await_unfold.
  unfold armed at 1. hub_fields.
  destruct stream as [|[| | |] rest]; try contradiction; reflexivity.
Qed.

(** C1, as the code has it.  [send_message] of the older protocol object
    rejects more than 100 bytes before it changes or writes anything;
    for at most 100 bytes it succeeds exactly when the one-byte reply is
    the XOR of the bytes of the data starting from 0, fails with the
    checksum [ValueError] holding the expected and the received value on
    any other byte, and fails with [TimeoutError] when nothing arrives
    before the timeout.  [send_block] of the hub object has no length
    limit of its own: it writes the whole block whatever its length.  It
    succeeds exactly when the first byte of the reply is that XOR, and
    fails with [TimeoutError] when nothing arrives.  Any other reply byte
    raises the checksum [RuntimeError], with both values, inside the
    notification callback; the caller of [send_block] then sees
    [TimeoutError]. *)
Theorem block_send_outcomes (h : Host) (p : PUP.t) (s : Hub.t) (data : bytes) (b : byte) :
  PUP.link_up p = true -> Hub.link_up s = true ->
  ((100 < length data)%nat ->
   forall stream,
     PUP.send_message h p data stream = (Raise ValueError_too_much_data, p, stream))
  /\ ((length data <= 100)%nat ->
      (fst (fst (PUP.send_message h p data [Nus [b]])) = Ok
       <-> byte_val b = xor_bytes data 0)
      /\ (byte_val b <> xor_bytes data 0 ->
          fst (fst (PUP.send_message h p data [Nus [b]]))
          = Raise (ValueError_checksum (xor_bytes data 0) (Some (byte_val b))))
      /\ (forall stream, no_reply stream ->
          fst (fst (PUP.send_message h p data stream)) = Raise TimeoutError))
  /\ (forall stream,
        sent (Hub.trace (snd (fst (Hub.send_block h s data stream))))
        = sent (Hub.trace s) ++ pieces (Hub.hub_kind s) data)
  /\ (fst (fst (Hub.send_block h s data [Nus [b]])) = Ok
      <-> byte_val b = xor_bytes data 0)
  /\ (byte_val b <> xor_bytes data 0 ->
      fst (fst (Hub.send_block h s data [Nus [b]])) = Raise TimeoutError
      /\ In (CallbackRaised (RuntimeError_checksum (xor_bytes data 0) (byte_val b)))
            (Hub.trace (snd (fst (Hub.send_block h s data [Nus [b]])))))
  /\ (forall stream, no_reply stream ->
        fst (fst (Hub.send_block h s data stream)) = Raise TimeoutError).
Proof.
  intros Hp Hs.
  pose proof (send_block_reply h s data b [] Hs) as [Hok Hbad].
  refine (conj _ (conj _ (conj _ (conj _ (conj Hbad _))))).
  - intros Hlen stream. unfold PUP.send_message.
    apply Nat.ltb_lt in Hlen. now rewrite Hlen.
  - intros Hlen. pose proof (pup_send_message_reply h p data b [] [] Hlen Hp) as Hr.
    cbn [last] in Hr. refine (conj _ (conj _ _)).
    + rewrite Hr. destruct (Z.eq_dec (byte_val b) (xor_bytes data 0)) as [E|E].
      * rewrite (proj2 (Z.eqb_eq _ _) E). tauto.
      * rewrite (proj2 (Z.eqb_neq _ _) E). split; [discriminate|contradiction].
    + intros Hb. rewrite Hr. apply Z.eqb_neq in Hb. now rewrite Hb.
    + intros stream Hno. now apply pup_send_message_timeout.
  - intros stream. now apply send_block_writes.
  - destruct (Z.eq_dec (byte_val b) (xor_bytes data 0)) as [E|E].
    + rewrite (Hok E). tauto.
    + destruct (Hbad E) as [-> _]. split; [discriminate|contradiction].
  - intros stream Hno. now apply send_block_timeout.
Qed.

Lemma block_send_outcomes_witness :
  let h := sample_host in
  let p := PUP.init in
  let s := Hub.init OTHER_HUB in
  let data := [x01; x02] in
  let b := x03 in
  ((100 < length data)%nat ->
   forall stream,
     PUP.send_message h p data stream = (Raise ValueError_too_much_data, p, stream))
  /\ ((length data <= 100)%nat ->
      (fst (fst (PUP.send_message h p data [Nus [b]])) = Ok
       <-> byte_val b = xor_bytes data 0)
      /\ (byte_val b <> xor_bytes data 0 ->
          fst (fst (PUP.send_message h p data [Nus [b]]))
          = Raise (ValueError_checksum (xor_bytes data 0) (Some (byte_val b))))
      /\ (forall stream, no_reply stream ->
          fst (fst (PUP.send_message h p data stream)) = Raise TimeoutError))
  /\ (forall stream,
        sent (Hub.trace (snd (fst (Hub.send_block h s data stream))))
        = sent (Hub.trace s) ++ pieces (Hub.hub_kind s) data)
  /\ (fst (fst (Hub.send_block h s data [Nus [b]])) = Ok
      <-> byte_val b = xor_bytes data 0)
  /\ (byte_val b <> xor_bytes data 0 ->
      fst (fst (Hub.send_block h s data [Nus [b]])) = Raise TimeoutError
      /\ In (CallbackRaised (RuntimeError_checksum (xor_bytes data 0) (byte_val b)))
            (Hub.trace (snd (fst (Hub.send_block h s data [Nus [b]])))))
  /\ (forall stream, no_reply stream ->
        fst (fst (Hub.send_block h s data stream)) = Raise TimeoutError).
Proof.
  apply (block_send_outcomes sample_host PUP.init (Hub.init OTHER_HUB) [x01; x02] x03);
    reflexivity.
Defined.

(** C1 as stated fails on [send_block]: a reply with the wrong byte makes
    the call end in [TimeoutError], the checksum error having been raised
    in the notification callback, and a block of 101 bytes is written to
    the channel like any other. *)
Lemma send_block_wrong_byte_and_long_block :
  Hub.send_block sample_host (Hub.init OTHER_HUB) [x01] [Nus [x02]]
  = (Raise TimeoutError,
     Hub.with_trace
       [ReadyClear; SetExpected 1; Tx [x01];
        CallbackRaised (RuntimeError_checksum 1 2); SetExpected (-1)]
       (Hub.init OTHER_HUB),
     [])
  /\ sent (Hub.trace (snd (fst
       (Hub.send_block sample_host (Hub.init OTHER_HUB) (repeat x00 101) []))))
     = [repeat x00 101].
Proof. split; reflexivity. Qed.

(** ** The slot after a failed block *)

(** C6.  [send_message] of the older protocol object, one byte, no
    reply: the [TimeoutError] leaves [wait_for_checksum] with the state
    still [AWAITING_CHECKSUM], and output that arrives afterwards is
    taken as checksum bytes instead of reaching the line buffer. *)
Theorem send_message_timeout_stays_armed :
  let r := PUP.send_message sample_host PUP.init [x01] [] in
  fst (fst r) = Raise TimeoutError
  /\ PUP.state (snd (fst r)) = PUP.AWAITING_CHECKSUM
  /\ PUP.char_buf_ (PUP.deliver sample_host (snd (fst r)) (Nus [x68; x69])) = []
  /\ PUP.checksum (PUP.deliver sample_host (snd (fst r)) (Nus [x68; x69])) = Some 105.
Proof. repeat split. Qed.

(** ** Status notifications and buffered output during a transfer *)

Lemma terminal_app (tr1 tr2 : list effect) :
  terminal (tr1 ++ tr2) = terminal tr1 ++ terminal tr2.
Proof.
  induction tr1 as [|e tr1 IH]; [reflexivity|].
  destruct e; cbn [terminal app]; rewrite IH; try reflexivity.
  now rewrite app_assoc.
Qed.

Ltac same_lifecycle :=
  cbn [fst snd] in *; unfold lifecycle; hub_fields; rewrite ?terminal_app; cbn [terminal];
  rewrite ?app_nil_r; try reflexivity; try congruence.

(** While [loading] is set, a status notification leaves the hub
    object exactly as it was. *)
Lemma status_ignored_while_loading (h : Host) (s : Hub.t) (data : bytes) :
  Hub.loading s = true -> snd (Hub.pybricks_service_handler h s data) = s.
Proof.
  intros Hl. unfold Hub.pybricks_service_handler.
  destruct data as [|kind payload]; [reflexivity|].
  destruct (byte_val kind =? STATUS_REPORT h); [|reflexivity].
  destruct (unpack_u32_little payload); [|reflexivity].
  now rewrite Hl.
Qed.

Lemma hub_deliver_loading (h : Host) (s : Hub.t) (ev : event) :
  Hub.loading s = true -> lifecycle (Hub.deliver h s ev) = lifecycle s.
Proof.
  intros Hl. destruct ev as [data|data| |]; cbn [Hub.deliver].
  - unfold Hub.nus_handler. rewrite Hl.
    repeat match goal with
           | |- context [if ?c then _ else _] => destruct c
           | |- context [match ?l with [] => _ | _ :: _ => _ end] => destruct l
           end; same_lifecycle.
  - pose proof (status_ignored_while_loading h s data Hl) as E.
    destruct (Hub.pybricks_service_handler h s data) as [[|e] s1];
      cbn [snd] in E; subst s1; same_lifecycle.
  - same_lifecycle.
  - reflexivity.
Qed.

Lemma lifecycle_loading (s1 s2 : Hub.t) :
  lifecycle s1 = lifecycle s2 -> Hub.loading s1 = Hub.loading s2.
Proof. unfold lifecycle. congruence. Qed.

Lemma hub_await_loading (h : Host) (s : Hub.t) (stream : list event) :
  Hub.loading s = true ->
  lifecycle (snd (fst (Hub.await_checksum_ready h s stream))) = lifecycle s.
Proof.
  revert s. induction stream as [|ev stream IH]; intros s Hl; rewrite hub_await_unfold.
  - destruct (Hub.checksum_ready s); reflexivity.
  - destruct (Hub.checksum_ready s); [reflexivity|].
    pose proof (hub_deliver_loading h s ev Hl) as Hd.
    destruct ev; try (rewrite IH; [exact Hd|]; apply lifecycle_loading in Hd; congruence).
    reflexivity.
Qed.

Lemma write_pieces_lifecycle (s : Hub.t) (ps : list bytes) :
  lifecycle (snd (Hub.write_pieces s ps)) = lifecycle s.
Proof.
  revert s. induction ps as [|p ps IH]; intros s; [reflexivity|].
  cbn [Hub.write_pieces]. unfold Hub.write_gatt_char.
  destruct (Hub.link_up s); [|reflexivity].
  rewrite IH. same_lifecycle.
Qed.

Lemma send_block_loading (h : Host) (s : Hub.t) (data : bytes) (stream : list event) :
  Hub.loading s = true ->
  lifecycle (snd (fst (Hub.send_block h s data stream))) = lifecycle s.
Proof.
  intros Hl. unfold Hub.send_block.
  set (s2 := Hub.emit (SetExpected _) _).
  assert (H2 : lifecycle s2 = lifecycle s) by (subst s2; same_lifecycle).
  set (written := if is_boost (Hub.hub_kind s2) then _ else _).
  assert (Hw : lifecycle (snd written) = lifecycle s).
  { subst written. destruct (is_boost (Hub.hub_kind s2)).
    - now rewrite write_pieces_lifecycle.
    - unfold Hub.write_gatt_char. destruct (Hub.link_up s2); [|exact H2].
      rewrite <- H2. same_lifecycle. }
  destruct written as [[|e] s3]; cbn [snd] in Hw.
  - pose proof (hub_await_loading h s3 stream) as Ha.
    destruct (Hub.await_checksum_ready h s3 stream) as [[[|e] s4] rest];
      cbn [fst snd] in *.
    + rewrite Ha; [exact Hw|]. apply lifecycle_loading in Hw. congruence.
    + rewrite <- Hw, <- Ha; [same_lifecycle|].
      apply lifecycle_loading in Hw. congruence.
  - cbn [fst snd]. rewrite <- Hw. same_lifecycle.
Qed.

Lemma send_chunks_loading (h : Host) (s : Hub.t) (blocks : list bytes)
    (stream : list event) :
  Hub.loading s = true ->
  lifecycle (snd (fst (Hub.send_chunks h s blocks stream))) = lifecycle s.
Proof.
  revert s stream. induction blocks as [|c blocks IH]; intros s stream Hl; [reflexivity|].
  cbn [Hub.send_chunks].
  pose proof (send_block_loading h s c stream Hl) as Hb.
  destruct (Hub.send_block h s c stream) as [[[|e] s1] stream1]; cbn [fst snd] in *.
  - rewrite IH.
    + rewrite <- Hb. same_lifecycle.
    + apply lifecycle_loading in Hb. hub_fields. congruence.
  - exact Hb.
Qed.

(** C2, as the code has it.  While [loading] is set a status
    notification changes nothing in the hub object: the decoded value is
    dropped, not recorded.  The end of the transfer only clears the
    loading flag: whatever notifications arrived during the transfer,
    [program_running] is what it was before the transfer, the stopped
    signal is clear and nothing has been written to the terminal, until
    the next status notification arrives. *)
Theorem status_suppressed_not_replayed (h : Host) (s : Hub.t) (data mpy : bytes)
    (stream : list event) :
  snd (Hub.pybricks_service_handler h (Hub.with_loading true s) data)
  = Hub.with_loading true s
  /\ Hub.loading (snd (fst (Hub.run_transfer h s mpy stream))) = false
  /\ Hub.program_running (snd (fst (Hub.run_transfer h s mpy stream)))
     = Hub.program_running s
  /\ Hub.user_program_stopped (snd (fst (Hub.run_transfer h s mpy stream))) = false
  /\ terminal (Hub.trace (snd (fst (Hub.run_transfer h s mpy stream))))
     = terminal (Hub.trace s).
Proof.
  split; [now apply status_ignored_while_loading|].
  unfold Hub.run_transfer.
  set (s2 := Hub.emit StoppedClear _).
  assert (H2 : lifecycle s2 = (true, Hub.program_running s, false, terminal (Hub.trace s)))
    by (subst s2; same_lifecycle).
  assert (Hl : Hub.loading s2 = true) by (subst s2; reflexivity).
  set (body := match to_bytes4_little _ with Some _ => _ | None => _ end).
  assert (Hb : lifecycle (snd (fst body)) = lifecycle s2).
  { subst body. destruct (to_bytes4_little _) as [len|]; [|reflexivity].
    pose proof (send_block_loading h s2 len stream Hl) as H1.
    destruct (Hub.send_block h s2 len stream) as [[[|e] s3] stream1]; cbn [fst snd] in *.
    - rewrite send_chunks_loading; [exact H1|].
      apply lifecycle_loading in H1. congruence.
    - exact H1. }
  rewrite H2 in Hb. destruct body as [[result s4] rest]. cbn [fst snd] in *.
  unfold lifecycle in Hb. injection Hb as _ Hrun Hstop Hterm.
  hub_fields. auto.
Qed.

(** C2 as stated fails: a notification that the program is running
    arrives during the transfer of an empty payload, the transfer ends
    and [loading] is cleared, and [program_running] is still false; the
    same notification handled afterwards would set it. *)
Lemma running_status_lost_during_transfer :
  let running := [x00; x40; x00; x00; x00] in
  let r := Hub.run_transfer sample_host (Hub.init OTHER_HUB) []
             [Control running; Nus [x00]] in
  fst (fst r) = Ok
  /\ Hub.loading (snd (fst r)) = false
  /\ Hub.program_running (snd (fst r)) = false
  /\ Hub.program_running
       (snd (Hub.pybricks_service_handler sample_host (snd (fst r)) running)) = true.
Proof. repeat split. Qed.

Lemma write_appending (f : BytesIO.t) (data : bytes) :
  appending f ->
  appending (BytesIO.write f data)
  /\ BytesIO.getvalue (BytesIO.write f data) = BytesIO.getvalue f ++ data.
Proof.
  unfold appending, BytesIO.write, BytesIO.getvalue. destruct f as [buf pos].
  cbn [BytesIO.buf BytesIO.pos]. intros ->.
  rewrite Nat.sub_diag. cbn [repeat]. rewrite app_nil_r, firstn_all.
  rewrite skipn_all2 by lia. rewrite app_nil_r, length_app. auto.
Qed.

Lemma read_appending (f : BytesIO.t) :
  appending f -> BytesIO.read f = ([], f).
Proof.
  unfold appending, BytesIO.read. destruct f as [buf pos].
  cbn [BytesIO.buf BytesIO.pos]. intros ->.
  now rewrite skipn_all, Nat.max_id.
Qed.

(** While loading with no checksum awaited, output from the hub goes to
    the buffer and not to the terminal. *)
Lemma nus_buffered (h : Host) (s : Hub.t) (ds : list bytes) :
  Hub.loading s = true -> Hub.expected_checksum s = -1 ->
  appending (Hub.buffered_stdout s) ->
  let s1 := deliver_all h s (map Nus ds) in
  Hub.loading s1 = true
  /\ appending (Hub.buffered_stdout s1)
  /\ BytesIO.getvalue (Hub.buffered_stdout s1)
     = BytesIO.getvalue (Hub.buffered_stdout s) ++ concat ds
  /\ Hub.trace s1 = Hub.trace s.
Proof.
  revert s. induction ds as [|d ds IH]; intros s Hl He Ha; cbn zeta.
  - cbn. now rewrite app_nil_r.
  - cbn [map deliver_all fold_left Hub.deliver]. unfold Hub.nus_handler.
    rewrite He, Hl, Z.eqb_refl. cbn [negb].
    destruct (write_appending (Hub.buffered_stdout s) d Ha) as [Ha' Hv].
    destruct (IH (Hub.with_buffered_stdout (BytesIO.write (Hub.buffered_stdout s) d) s))
      as (I1 & I2 & I3 & I4); try assumption.
    unfold deliver_all in *. refine (conj I1 (conj I2 (conj _ _))).
    + rewrite I3. hub_fields. rewrite Hv. cbn [concat]. now rewrite app_assoc.
    + rewrite I4. reflexivity.
Qed.

(** With the buffer's position at its end, a status notification writes
    nothing of it to the terminal. *)
Lemma control_releases_nothing (h : Host) (s : Hub.t) (data : bytes) :
  appending (Hub.buffered_stdout s) ->
  appending (Hub.buffered_stdout (Hub.deliver h s (Control data)))
  /\ terminal (Hub.trace (Hub.deliver h s (Control data))) = terminal (Hub.trace s).
Proof.
  intros Ha. cbn [Hub.deliver]. unfold Hub.pybricks_service_handler.
  hub_fields. rewrite (read_appending _ Ha).
  repeat match goal with
         | |- context [if ?c then _ else _] => destruct c
         | |- context [match ?l with [] => _ | _ :: _ => _ end] => destruct l
         | |- context [match ?o with Some _ => _ | None => _ end] => destruct o
         end; hub_fields; rewrite ?terminal_app; cbn [terminal];
    rewrite ?app_nil_r; auto.
Qed.

(** C3.  Output that arrives during loading is stored in the buffer and
    no status notification after the end of loading ever writes it to
    the terminal: [read()] starts at the position that [write] left at
    the end of the buffer, so the transition writes the empty string. *)
Theorem buffered_output_never_released (h : Host) (kind : HubKind)
    (ds notifications : list bytes) :
  let s1 := deliver_all h (Hub.with_loading true (Hub.init kind)) (map Nus ds) in
  let s2 := deliver_all h (Hub.with_loading false s1) (map Control notifications) in
  BytesIO.getvalue (Hub.buffered_stdout s1) = concat ds
  /\ terminal (Hub.trace s1) = []
  /\ BytesIO.getvalue (Hub.buffered_stdout s2) = concat ds
  /\ terminal (Hub.trace s2) = [].
Proof.
  cbn zeta.
  destruct (nus_buffered h (Hub.with_loading true (Hub.init kind)) ds)
    as (_ & Ha & Hv & Ht); try reflexivity.
  set (s1 := deliver_all h _ (map Nus ds)) in *.
  cbn in Hv, Ht. rewrite Hv, Ht. split; [reflexivity|]. split; [reflexivity|].
  assert (Hgen : forall s, appending (Hub.buffered_stdout s) ->
            BytesIO.getvalue (Hub.buffered_stdout
                (deliver_all h s (map Control notifications)))
            = BytesIO.getvalue (Hub.buffered_stdout s)
            /\ terminal (Hub.trace (deliver_all h s (map Control notifications)))
               = terminal (Hub.trace s)).
  { induction notifications as [|n ns IH]; intros s Hs; [split; reflexivity|].
    cbn [map deliver_all fold_left].
    destruct (control_releases_nothing h s n Hs) as [Hs' Ht'].
    destruct (IH _ Hs') as [E1 E2]. unfold deliver_all in *.
    rewrite E1, E2, Ht'. split; [|reflexivity].
    clear - Hs. cbn [Hub.deliver]. unfold Hub.pybricks_service_handler.
    hub_fields. rewrite (read_appending _ Hs).
    repeat match goal with
           | |- context [if ?c then _ else _] => destruct c
           | |- context [match ?l with [] => _ | _ :: _ => _ end] => destruct l
           | |- context [match ?o with Some _ => _ | None => _ end] => destruct o
           end; reflexivity. }
  destruct (Hgen (Hub.with_loading false s1)) as [E1 E2]; [exact Ha|].
  rewrite E1, E2. hub_fields. rewrite Hv, Ht. auto.
Qed.

Example two_bytes_buffered_then_dropped :
  let s1 := Hub.deliver sample_host (Hub.with_loading true (Hub.init OTHER_HUB))
              (Nus [x68; x69]) in
  let s2 := Hub.deliver sample_host (Hub.with_loading false s1)
              (Control [x00; x40; x00; x00; x00]) in
  Hub.buffered_stdout s1 = BytesIO.mk [x68; x69] 2
  /\ Hub.program_running s2 = true
  /\ Hub.trace s2 = [Stdout []].
Proof. repeat split. Qed.

(** ** The transfer of a program *)

Lemma to_bytes4_little_ok (n : Z) :
  0 <= n < 2 ^ 32 ->
  exists block, to_bytes4_little n = Some block
                /\ length block = 4%nat
                /\ unpack_u32_little block = Some n.
Proof.
  intros Hn. unfold to_bytes4_little.
  replace ((0 <=? n) && (n <? 2 ^ 32)) with true
    by (symmetry; apply andb_true_iff; split; [apply Z.leb_le|apply Z.ltb_lt]; lia).
  eexists. split; [reflexivity|]. split; [reflexivity|].
  cbn [unpack_u32_little]. rewrite !byte_val_of_Z. f_equal.
  change (2 ^ 8) with 256. change (2 ^ 16) with (256 * 256).
  change (2 ^ 24) with (256 * 256 * 256).
  rewrite <- !Z.div_div by lia.
  pose proof (Z.div_mod n 256 ltac:(lia)) as E0.
  pose proof (Z.div_mod (n / 256) 256 ltac:(lia)) as E1.
  pose proof (Z.div_mod (n / 256 / 256) 256 ltac:(lia)) as E2.
  assert (H3 : 0 <= n / 256 / 256 / 256 < 256).
  { split.
    - repeat apply Z.div_pos; lia.
    - repeat (apply Z.div_lt_upper_bound; [lia|]). change (2 ^ 32) with 4294967296 in Hn. lia. }
  rewrite (Z.mod_small (n / 256 / 256 / 256)) by exact H3. lia.
Qed.

Lemma acked_trace (s : Hub.t) (data : bytes) :
  Hub.trace (acked s data) = Hub.trace s ++ block_effects (Hub.hub_kind s) data.
Proof.
  unfold acked, armed, block_effects. hub_fields. now rewrite <- !app_assoc.
Qed.

(** A block that the device acknowledges: written, then acknowledged,
    and only then does [send_block] return. *)
Lemma send_block_acked (h : Host) (s : Hub.t) (data : bytes) (stream : list event) :
  Hub.link_up s = true ->
  Hub.send_block h s data (ack data :: stream) = (Ok, acked s data, stream).
Proof.
  intros Hup. rewrite send_block_armed by exact Hup. unfold ack.
  rewrite await_ack by apply ack_value. reflexivity.
Qed.

Lemma send_chunks_acked (h : Host) (s : Hub.t) (blocks : list bytes) (tail : list event) :
  Hub.link_up s = true ->
  exists s',
    Hub.send_chunks h s blocks (map ack blocks ++ tail) = (Ok, s', tail)
    /\ Hub.trace s'
       = Hub.trace s ++ flat_map (chunk_effects (Hub.hub_kind s)) blocks.
Proof.
  revert s. induction blocks as [|c blocks IH]; intros s Hup.
  - exists s. split; [reflexivity|]. cbn. now rewrite app_nil_r.
  - cbn [map app Hub.send_chunks]. rewrite send_block_acked by exact Hup.
    destruct (IH (Hub.emit (Progress (length c)) (acked s c))) as (s' & E & T);
      [exact Hup|].
    exists s'. split; [exact E|]. rewrite T. cbn [flat_map].
    unfold chunk_effects at 2. hub_fields. rewrite acked_trace.
    unfold acked, armed. hub_fields. now rewrite <- !app_assoc.
Qed.

Lemma chunks_250 (mpy : bytes) :
  length mpy = 250%nat -> map (@length byte) (chunks 100 mpy) = [100; 100; 50]%nat.
Proof.
  intros Hlen. unfold chunks, range0. rewrite Hlen.
  change ((250 + 100 - 1) / 100)%nat with 3%nat.
  cbn [seq map Nat.mul Nat.add].
  rewrite !length_firstn, !length_skipn, Hlen. reflexivity.
Qed.

Ltac same_channel :=
  cbn [fst snd] in *; unfold channel; pup_fields; rewrite ?sent_app; cbn [sent];
  rewrite ?app_nil_r; try reflexivity; try congruence.

Lemma pup_line_handler_channel (h : Host) (s : PUP.t) (line : bytes) :
  channel (snd (PUP.line_handler h s line)) = channel s.
Proof.
  unfold PUP.line_handler.
  repeat match goal with
         | |- context [if ?c then _ else _] => destruct c
         | |- context [match ?o with Some _ => _ | None => _ end] => destruct o
         end; same_channel.
Qed.

Lemma pup_handle_lines_channel (h : Host) (s : PUP.t) (lines : list bytes) :
  channel (snd (@handle_lines PUP.t (PUP.glue h) s lines)) = channel s.
Proof.
  revert s. induction lines as [|l lines IH]; intros s; [reflexivity|].
  cbn [handle_lines line_handler PUP.glue].
  pose proof (pup_line_handler_channel h s l) as Hl.
  destruct (PUP.line_handler h s l) as [[|e] s1]; cbn [snd] in *.
  - now rewrite IH.
  - exact Hl.
Qed.

Lemma pup_feed_chars_channel (h : Host) (s : PUP.t) (data : bytes) :
  channel (@feed_chars PUP.t (PUP.glue h) s data) = channel s.
Proof.
  revert s. induction data as [|b data IH]; intros s; [reflexivity|].
  cbn [feed_chars char_handler char_buf set_char_buf PUP.glue].
  unfold PUP.char_handler.
  destruct (PUP.state s =? PUP.AWAITING_CHECKSUM); rewrite IH; same_channel.
Qed.

(** No notification handler of the older protocol object writes to the
    channel. *)
Lemma pup_deliver_channel (h : Host) (s : PUP.t) (data : bytes) :
  channel (PUP.deliver h s (Nus data)) = channel s.
Proof.
  unfold PUP.deliver, data_handler. cbn [EOL char_buf set_char_buf PUP.glue].
  set (s1 := feed_chars s data).
  assert (H1 : channel s1 = channel s) by apply pup_feed_chars_channel.
  destruct (split_lines _ CRLF _ []) as [[ls rest]|]; [|reflexivity].
  pose proof (pup_handle_lines_channel h (PUP.with_char_buf_ rest s1) ls) as Hh.
  destruct (handle_lines _ ls) as [[|e] s']; cbn [snd] in Hh.
  - rewrite Hh, <- H1. same_channel.
  - transitivity (channel s'); [same_channel|].
    rewrite Hh, <- H1. same_channel.
Qed.

(** A block that the device acknowledges. *)
Lemma pup_send_message_acked (h : Host) (s : PUP.t) (data : bytes) (stream : list event) :
  (length data <= 100)%nat -> PUP.link_up s = true ->
  exists s',
    PUP.send_message h s data (ack data :: stream) = (Ok, s', stream)
    /\ channel s' = (true, sent (PUP.trace s) ++ [data]).
Proof.
  intros Hlen Hup. unfold PUP.send_message, ack.
  destruct (100 <? length data)%nat eqn:E; [apply Nat.ltb_lt in E; lia|].
  destruct (pup_prepare_checksum_state s) as (P1 & P2 & P3).
  unfold PUP.write. rewrite P3, Hup.
  unfold PUP.wait_for_checksum. rewrite pup_await_unfold.
  set (s2 := PUP.emit (Tx data) (PUP.prepare_checksum s)).
  assert (C2 : channel s2 = (true, sent (PUP.trace s) ++ [data])).
  { subst s2. unfold PUP.prepare_checksum, PUP.set_state.
    destruct (_ =? _); same_channel. }
  replace (PUP.checksum_ready s2) with false by (subst s2; pup_fields; now rewrite P2).
  destruct (pup_deliver_awaiting h s2 (byte_of_Z (xor_bytes data 0)) [])
    as (D1 & D2 & D3 & D4); [subst s2; pup_fields; exact P1|].
  pose proof (pup_deliver_channel h s2 [byte_of_Z (xor_bytes data 0)]) as Cd.
  rewrite pup_await_unfold, D2, D3. cbn [last]. rewrite ack_value, Z.eqb_refl.
  eexists. split; [reflexivity|].
  rewrite <- C2, <- Cd. unfold PUP.prepare_checksum, PUP.set_state.
  repeat match goal with |- context [if ?c then _ else _] => destruct c end;
    same_channel.
Qed.

Lemma pup_send_chunks_acked (h : Host) (s : PUP.t) (blocks : list bytes)
    (tail : list event) :
  Forall (fun c => (length c <= 100)%nat) blocks -> PUP.link_up s = true ->
  exists s',
    PUP.send_chunks h s blocks (map ack blocks ++ tail) = (Ok, s', tail)
    /\ channel s' = (true, sent (PUP.trace s) ++ blocks).
Proof.
  revert s. induction blocks as [|c blocks IH]; intros s Hall Hup.
  - exists s. split; [reflexivity|]. unfold channel. now rewrite Hup, app_nil_r.
  - inversion Hall as [|? ? Hc Hrest]; subst.
    cbn [map app PUP.send_chunks].
    destruct (pup_send_message_acked h s c (map ack blocks ++ tail) Hc Hup)
      as (s1 & -> & C1).
    unfold channel in C1. injection C1 as U1 T1.
    destruct (IH (PUP.emit (Progress (length c)) s1) Hrest) as (s' & E & C');
      [pup_fields; exact U1|].
    exists s'. split; [exact E|]. rewrite C'. pup_fields.
    rewrite sent_app, T1. cbn [sent]. now rewrite app_nil_r, <- app_assoc.
Qed.

(** C4.  For a payload whose length fits in four bytes, sent over a
    connection that is up to a device that acknowledges every block:
    the first block is the length of the payload in four bytes, little
    endian; the blocks after it are the chunks of the payload, none
    empty, none longer than 100 bytes, and put together they are the
    payload; [run] sends the blocks in this order, each one written and
    then acknowledged before the next is started, and ends without an
    error; for 250 bytes the blocks have 4, 100, 100 and 50 bytes.  Both
    the hub object and the older protocol object do so. *)
Theorem program_transfer_blocks (h : Host) (s : Hub.t) (p : PUP.t) (mpy : bytes)
    (tail : list event) :
  Z.of_nat (length mpy) < 2 ^ 32 -> Hub.link_up s = true -> PUP.link_up p = true ->
  exists len_block,
    to_bytes4_little (Z.of_nat (length mpy)) = Some len_block
    /\ length len_block = 4%nat
    /\ unpack_u32_little len_block = Some (Z.of_nat (length mpy))
    /\ concat (chunks 100 mpy) = mpy
    /\ Forall (fun c => c <> [] /\ (length c <= 100)%nat) (chunks 100 mpy)
    /\ (exists s',
          Hub.run_transfer h s mpy (map ack (len_block :: chunks 100 mpy) ++ tail)
          = (Ok, s', tail)
          /\ Hub.trace s'
             = Hub.trace s ++ StoppedClear :: block_effects (Hub.hub_kind s) len_block
                 ++ flat_map (chunk_effects (Hub.hub_kind s)) (chunks 100 mpy))
    /\ (exists p',
          PUP.run_transfer h p mpy (map ack (len_block :: chunks 100 mpy) ++ tail)
          = (Ok, p', tail)
          /\ sent (PUP.trace p') = sent (PUP.trace p) ++ len_block :: chunks 100 mpy)
    /\ (length mpy = 250%nat ->
        map (@length byte) (len_block :: chunks 100 mpy) = [4; 100; 100; 50]%nat).
Proof.
  intros Hlen Hs Hp.
  destruct (to_bytes4_little_ok (Z.of_nat (length mpy)) ltac:(lia))
    as (len_block & Hto & Hl4 & Hun).
  exists len_block. refine (conj Hto (conj Hl4 (conj Hun (conj _ (conj _ _))))).
  - apply chunks_concat. lia.
  - apply Forall_forall. intros c Hc. split.
    + pose proof (chunks_nonempty 100 mpy ltac:(lia)) as Hne.
      rewrite Forall_forall in Hne. now apply Hne.
    + pose proof (chunks_bounded 100 mpy) as Hb.
      rewrite Forall_forall in Hb. now apply Hb.
  - refine (conj _ (conj _ _)).
    + unfold Hub.run_transfer. rewrite Hto. cbn [map app].
      set (s2 := Hub.emit StoppedClear _).
      rewrite send_block_acked by (subst s2; exact Hs).
      destruct (send_chunks_acked h (acked s2 len_block) (chunks 100 mpy) tail)
        as (s' & -> & T); [subst s2; exact Hs|].
      eexists. split; [reflexivity|]. hub_fields. rewrite T, acked_trace.
      subst s2. hub_fields. rewrite <- !app_assoc. reflexivity.
    + unfold PUP.run_transfer. rewrite Hto. cbn [map app].
      destruct (pup_send_message_acked h p len_block
                  (map ack (chunks 100 mpy) ++ tail)) as (p1 & -> & C1);
        [lia|exact Hp|].
      unfold channel in C1. injection C1 as U1 T1.
      destruct (pup_send_chunks_acked h p1 (chunks 100 mpy) tail) as (p' & -> & C');
        [apply chunks_bounded|exact U1|].
      exists p'. split; [reflexivity|].
      unfold channel in C'. injection C' as _ T'. rewrite T', T1.
      now rewrite <- app_assoc.
    + intros H250. cbn [map]. now rewrite Hl4, chunks_250.
Qed.

Lemma program_transfer_blocks_witness :
  exists len_block,
    to_bytes4_little (Z.of_nat (length sample_mpy)) = Some len_block
    /\ length len_block = 4%nat
    /\ unpack_u32_little len_block = Some (Z.of_nat (length sample_mpy))
    /\ concat (chunks 100 sample_mpy) = sample_mpy
    /\ Forall (fun c => c <> [] /\ (length c <= 100)%nat) (chunks 100 sample_mpy)
    /\ (exists s',
          Hub.run_transfer sample_host (Hub.init BOOST) sample_mpy
            (map ack (len_block :: chunks 100 sample_mpy) ++ [])
          = (Ok, s', [])
          /\ Hub.trace s'
             = Hub.trace (Hub.init BOOST)
                 ++ StoppedClear
                    :: block_effects (Hub.hub_kind (Hub.init BOOST)) len_block
                 ++ flat_map (chunk_effects (Hub.hub_kind (Hub.init BOOST)))
                      (chunks 100 sample_mpy))
    /\ (exists p',
          PUP.run_transfer sample_host PUP.init sample_mpy
            (map ack (len_block :: chunks 100 sample_mpy) ++ [])
          = (Ok, p', [])
          /\ sent (PUP.trace p')
             = sent (PUP.trace PUP.init) ++ len_block :: chunks 100 sample_mpy)
    /\ (length sample_mpy = 250%nat ->
        map (@length byte) (len_block :: chunks 100 sample_mpy)
        = [4; 100; 100; 50]%nat).
Proof.
  apply (program_transfer_blocks sample_host (Hub.init BOOST) PUP.init sample_mpy []).
  - vm_compute. reflexivity.
  - reflexivity.
  - reflexivity.
Defined.

Example transfer_of_250_bytes :
  let mpy := repeat x2a 250 in
  sent (Hub.trace (snd (fst
    (Hub.run_transfer sample_host (Hub.init OTHER_HUB) mpy
       (map ack ([xfa; x00; x00; x00] :: chunks 100 mpy))))))
  = [[xfa; x00; x00; x00]; repeat x2a 100; repeat x2a 100; repeat x2a 50].
Proof. vm_compute. reflexivity. Qed.

(** ** Log sentinels *)

Lemma forwarded_app (tr1 tr2 : list effect) :
  forwarded (tr1 ++ tr2) = forwarded tr1 ++ forwarded tr2.
Proof.
  induction tr1 as [|e tr1 IH]; [reflexivity|].
  destruct e; cbn [forwarded app]; rewrite IH; reflexivity.
Qed.

Lemma contains_false (token line : bytes) :
  ~ occurs token line -> contains token line = false.
Proof.
  intros Hn. destruct (contains token line) eqn:E; [|reflexivity].
  apply contains_iff in E. contradiction.
Qed.

(** C7, as the code has it.  A line is a log-open command when the token
    [PB_OF] occurs anywhere in it, and a log-close command when [PB_EOF]
    occurs anywhere in it and [PB_OF] does not; a command line is never
    forwarded.  Only a line in which neither token occurs anywhere is
    ordinary data: it goes to the open log file, or else to the output
    history and, when printing is on, to the terminal. *)
Theorem sentinel_token_matched_anywhere (h : Host) (s : Hub.t) (line : bytes) :
  let r := Hub.line_handler h s line in
  (occurs PB_OF line ->
     Hub.output (snd r) = Hub.output s
     /\ forwarded (Hub.trace (snd r)) = forwarded (Hub.trace s)
     /\ (Hub.log_file s <> None -> r = (Raise RuntimeError_log_already_open, s))
     /\ (fst r = Ok -> Hub.log_file s = None /\ Hub.log_file (snd r) <> None))
  /\ (~ occurs PB_OF line -> occurs PB_EOF line ->
      match Hub.log_file s with
      | None => r = (Raise RuntimeError_no_log_open, s)
      | Some f => r = (Ok, Hub.with_log_file None (Hub.emit (FileClose f) s))
      end)
  /\ (~ occurs PB_OF line -> ~ occurs PB_EOF line ->
      match Hub.log_file s, decode h line with
      | Some f, Some text => r = (Ok, Hub.emit (FileWrite f text) s)
      | Some f, None => r = (Raise UnicodeDecodeError, s)
      | None, Some text =>
          r = (Ok, if Hub.print_output s
                   then Hub.emit (Print text) (Hub.with_output (Hub.output s ++ [line]) s)
                   else Hub.with_output (Hub.output s ++ [line]) s)
      | None, None =>
          r = (if Hub.print_output s then Raise UnicodeDecodeError else Ok,
               Hub.with_output (Hub.output s ++ [line]) s)
      end).
Proof.
  cbn zeta. unfold Hub.line_handler. refine (conj _ (conj _ _)).
  - intros Ho. apply contains_iff in Ho. rewrite Ho.
    destruct (Hub.log_file s) as [f|] eqn:Hf.
    + cbn [fst snd]. repeat split; try reflexivity; discriminate.
    + destruct (Hub.script_dir s) as [dir|];
        [|cbn [fst snd]; repeat split; try reflexivity; try discriminate; congruence].
      destruct (decode h (skipn 6 line)) as [name|];
        [|cbn [fst snd]; repeat split; try reflexivity; try discriminate; congruence].
      repeat match goal with
             | |- context [if ?c then _ else _] => destruct c eqn:?
             end; cbn [fst snd]; hub_fields; rewrite ?forwarded_app; cbn [forwarded];
        rewrite ?app_nil_r; repeat split; try reflexivity; try discriminate; congruence.
  - intros Hno Hc. rewrite (contains_false _ _ Hno).
    apply contains_iff in Hc. rewrite Hc. destruct (Hub.log_file s); reflexivity.
  - intros Hno Hnc. rewrite (contains_false _ _ Hno), (contains_false _ _ Hnc).
    destruct (Hub.log_file s), (decode h line), (Hub.print_output s); reflexivity.
Qed.

(** C7 as stated fails: with a log file open, a line that has [PB_EOF]
    after two other bytes closes the log, and a line that has [PB_OF]
    after two other bytes is refused as a second log-open command;
    neither is written to the open file. *)
Lemma token_after_other_bytes_is_a_command :
  let s := Hub.with_log_file (Some "log.txt"%string) (Hub.init OTHER_HUB) in
  starts_with PB_EOF [x61; x20; x50; x42; x5f; x45; x4f; x46] = false
  /\ Hub.line_handler sample_host s [x61; x20; x50; x42; x5f; x45; x4f; x46]
     = (Ok, Hub.with_trace [FileClose "log.txt"%string] (Hub.init OTHER_HUB))
  /\ starts_with PB_OF [x61; x20; x50; x42; x5f; x4f; x46] = false
  /\ Hub.line_handler sample_host s [x61; x20; x50; x42; x5f; x4f; x46]
     = (Raise RuntimeError_log_already_open, s).
Proof. repeat split. Qed.

Lemma sentinel_token_matched_anywhere_witness :
  Hub.line_handler sample_host
    (Hub.with_log_file (Some "log.txt"%string) (Hub.init OTHER_HUB))
    [x61; x20; x50; x42; x5f; x4f; x46]
  = (Raise RuntimeError_log_already_open,
     Hub.with_log_file (Some "log.txt"%string) (Hub.init OTHER_HUB)).
Proof.
  apply (sentinel_token_matched_anywhere sample_host
           (Hub.with_log_file (Some "log.txt"%string) (Hub.init OTHER_HUB))
           [x61; x20; x50; x42; x5f; x4f; x46]).
  - exists [x61; x20], []. reflexivity.
  - discriminate.
Defined.

(** ** Compilation before the transfer *)

(** [compile_file] refuses every ABI version but 5, once the script
    could be opened. *)
Lemma compile_file_other_abi (h : Host) (path : String.string) (abi : Z)
    (compile_args : option (list String.string)) :
  source_opens h path = true -> abi <> 5 ->
  compile_file h path abi compile_args = inl ValueError_mpy_version.
Proof.
  intros Hsrc Habi. unfold compile_file. rewrite Hsrc.
  apply Z.eqb_neq in Habi. now rewrite Habi.
Qed.

(** When the compilation fails, [run] has written nothing. *)
Lemma failed_compilation_writes_nothing (h : Host) (s : Hub.t) (py_path : String.string)
    (print_output : bool) (stream : list event) (e : exn) :
  call_compile_file h py_path None None = inl e ->
  Hub.run h s py_path print_output stream
  = (Raise e,
     Hub.with_script_dir (Some (fst (path_split h py_path)))
       (Hub.with_print_output print_output
          (Hub.with_output [] (Hub.with_log_file None s))),
     stream).
Proof. intros Hc. unfold Hub.run. now rewrite Hc. Qed.

(** C9.  [compile_file] has no default for [abi], and both [run]
    methods call it with the path alone: the call raises [TypeError]
    before the body of [compile_file] runs, so every [run] ends there,
    with nothing written to the channel. *)
Theorem run_calls_compile_file_without_abi (h : Host) (s : Hub.t) (p : PUP.t)
    (py_path : String.string) (print_output : bool) (stream : list event) :
  call_compile_file h py_path None None = inl TypeError_missing_abi
  /\ fst (fst (Hub.run h s py_path print_output stream)) = Raise TypeError_missing_abi
  /\ Hub.trace (snd (fst (Hub.run h s py_path print_output stream))) = Hub.trace s
  /\ fst (fst (PUP.run h p py_path print_output stream)) = Raise TypeError_missing_abi
  /\ PUP.trace (snd (fst (PUP.run h p py_path print_output stream))) = PUP.trace p.
Proof. repeat split. Qed.

(** ** The two tasks of the interactive session *)

Lemma session_invariant_start (hub0 : Hub.t) :
  session_invariant (Session.pipe_and_wait hub0).
Proof. unfold session_invariant. cbn. repeat split; discriminate. Qed.

Ltac session_cases :=
  repeat match goal with
         | H : context [match ?x with _ => _ end] |- _ =>
             destruct x eqn:?; try discriminate H
         | H : Some _ = Some _ |- _ => injection H as <-
         end.

Lemma session_invariant_step (h : Host) (s s' : Session.t) (l : Session.label) :
  session_invariant s -> Session.step h s l = Some s' -> session_invariant s'.
Proof.
  unfold session_invariant. intros (Hcount & Hmust & Hnc & Hcreated) Hstep.
  destruct s as [hb p mc n w cb]. cbn [Session.cancel_calls Session.callback_due
    Session.wait_task Session.must_cancel Session.pipe_task Session.hub] in *.
  destruct l; cbn in Hstep; session_cases;
    cbn [Session.cancel_calls Session.callback_due Session.wait_task
         Session.must_cancel Session.pipe_task Session.hub Session.with_pipe
         Session.with_hub Session.with_wait Session.wait_returns
         Session.done_callback Session.pipe_done] in *;
    subst;
    repeat match goal with
           | x : Session.pipe_state |- _ => destruct x
           | x : Session.wait_state |- _ => destruct x
           | x : bool |- _ => destruct x
           end;
    cbn [count wait_returned pipe_suspended Session.pipe_done] in *;
    try discriminate;
    intuition (try discriminate; try congruence; try lia).
Qed.

Lemma session_invariant_steps (h : Host) (s s' : Session.t) (ls : list Session.label) :
  session_invariant s -> Session.steps h s ls = Some s' -> session_invariant s'.
Proof.
  revert s. induction ls as [|l ls IH]; intros s Hinv; cbn [Session.steps].
  - now intros [= <-].
  - destruct (Session.step h s l) as [s1|] eqn:E; [|discriminate].
    apply IH. eapply session_invariant_step; eassumption.
Qed.

(** C8.  In every state that the session reaches, however the event
    loop orders the steps: [pipe_task.cancel()] has been called at most
    once, not at all before [wait_for_program_end] returned, and exactly
    once when its done callback has run; the stdin task has never ended
    as cancelled, and a cancellation that is pending is taken by
    [except asyncio.CancelledError: pass], so the task returns; and end
    of input on stdin makes the stdin task return and leaves the end
    watcher, the callback and the hub object as they were. *)
Theorem end_watcher_cancels_stdin_pump (h : Host) (hub0 : Hub.t)
    (ls : list Session.label) (s : Session.t) :
  Session.steps h (Session.pipe_and_wait hub0) ls = Some s ->
  (Session.cancel_calls s <= 1)%nat
  /\ (Session.wait_task s <> Session.WaitReturned ->
      Session.cancel_calls s = 0%nat /\ Session.must_cancel s = false)
  /\ (Session.wait_task s = Session.WaitReturned ->
      Session.callback_due s = false -> Session.cancel_calls s = 1%nat)
  /\ Session.pipe_task s <> Session.PipeCancelled
  /\ (Session.must_cancel s = true ->
      exists s', Session.step h s Session.CancelDelivered = Some s'
                 /\ Session.pipe_task s' = Session.PipeReturned
                 /\ Session.must_cancel s' = false)
  /\ (forall s', Session.step h s Session.StdinEOF = Some s' ->
      Session.pipe_task s' = Session.PipeReturned
      /\ Session.wait_task s' = Session.wait_task s
      /\ Session.callback_due s' = Session.callback_due s
      /\ Session.cancel_calls s' = Session.cancel_calls s
      /\ Session.must_cancel s' = false
      /\ Session.hub s' = Session.hub s).
Proof.
  intros Hsteps.
  pose proof (session_invariant_steps h _ _ ls (session_invariant_start hub0) Hsteps)
    as (Hcount & Hmust & Hnc & _).
  destruct s as [hb p mc n w cb].
  cbn [Session.cancel_calls Session.callback_due Session.wait_task
       Session.must_cancel Session.pipe_task Session.hub] in *.
  refine (conj _ (conj _ (conj _ (conj Hnc (conj _ _))))).
  - destruct w, cb; cbn [count wait_returned] in Hcount; lia.
  - intros Hw. split.
    + destruct w, cb; cbn [count wait_returned] in Hcount; try lia. congruence.
    + destruct mc; [|reflexivity]. destruct (Hmust eq_refl) as [_ Hn].
      destruct w, cb; cbn [count wait_returned] in Hcount; try lia. congruence.
  - intros -> ->. cbn [count wait_returned] in Hcount. lia.
  - intros ->. destruct (Hmust eq_refl) as [Hp _].
    destruct p; try discriminate Hp; eexists; (split; [reflexivity|split; reflexivity]).
  - intros s' Hstep. cbn in Hstep.
    destruct p; try discriminate Hstep. destruct mc; [discriminate Hstep|].
    injection Hstep as <-. repeat split.
Qed.

Lemma end_watcher_cancels_stdin_pump_witness :
  exists s,
    Session.steps sample_host (Session.pipe_and_wait (Hub.init OTHER_HUB))
      [Session.PipeStart; Session.WaitStart; Session.Connected;
       Session.StdinData [x61];
       Session.Deliver (Control [x00; x00; x00; x00; x00]);
       Session.StoppedWake; Session.SettleElapsed; Session.DoneCallback] = Some s
    /\ Session.wait_task s = Session.WaitReturned
    /\ Session.pipe_task s = Session.PipeWriting
    /\ Session.cancel_calls s = 1%nat
    /\ exists s', Session.step sample_host s Session.CancelDelivered = Some s'
                  /\ Session.pipe_task s' = Session.PipeReturned
                  /\ Session.must_cancel s' = false.
Proof.
  eexists. split; [reflexivity|].
  split; [reflexivity|]. split; [reflexivity|]. split; [reflexivity|].
  eapply (end_watcher_cancels_stdin_pump sample_host (Hub.init OTHER_HUB)
            [Session.PipeStart; Session.WaitStart; Session.Connected;
             Session.StdinData [x61];
             Session.Deliver (Control [x00; x00; x00; x00; x00]);
             Session.StoppedWake; Session.SettleElapsed; Session.DoneCallback]);
    reflexivity.
Defined.

Example stdin_exhausted_watcher_still_waiting :
  option_map (fun s => (Session.pipe_task s, Session.wait_task s, Session.cancel_calls s))
    (Session.steps sample_host (Session.pipe_and_wait (Hub.init OTHER_HUB))
       [Session.PipeStart; Session.WaitStart; Session.Connected; Session.StdinEOF])
  = Some (Session.PipeReturned, Session.WaitStopped, 0%nat).
Proof. reflexivity. Qed.

(** * Further properties *)

(** ** What [data_handler] takes out of the buffer *)

(** X1.  [data_handler] of [CharacterGlue] loses no byte and invents
    none: the lines it hands to [line_handler] in one call, each followed
    by the marker, and then what stays in the buffer, are the buffer as
    it was followed by the data of the call. *)
Theorem data_handler_keeps_every_byte (s : CharacterGlue.t) (eol data : bytes) :
  CharacterGlue.glue_EOL s = Some eol -> eol <> [] ->
  exists new rest,
    data_handler s data
    = Some (Ok, CharacterGlue.mk (Some eol) rest (CharacterGlue.printed s ++ new))
    /\ concat (map (fun l => l ++ eol) new) ++ rest
       = CharacterGlue.glue_char_buf s ++ data.
Proof.
  intros Heol Hne. rewrite glue_data_handler. rewrite Heol. cbn zeta.
  destruct (split_lines_total eol (S (length (CharacterGlue.glue_char_buf s ++ data)))
              (CharacterGlue.glue_char_buf s ++ data) [] Hne)
    as (ls & rest & E); [lia|].
  rewrite E. destruct (split_lines_rebuild _ _ _ _ _ _ Hne E) as (new & -> & Hcat & _).
  exists new, rest. split; [reflexivity|exact Hcat].
Qed.

Lemma data_handler_keeps_every_byte_witness :
  exists new rest,
    data_handler (CharacterGlue.mk (Some CRLF) [x61] []) [x62; x0d; x0a; x63]
    = Some (Ok, CharacterGlue.mk (Some CRLF) rest ([] ++ new))
    /\ concat (map (fun l => l ++ CRLF) new) ++ rest = [x61] ++ [x62; x0d; x0a; x63].
Proof.
  apply (data_handler_keeps_every_byte (CharacterGlue.mk (Some CRLF) [x61] [])
           CRLF [x62; x0d; x0a; x63]).
  - reflexivity.
  - discriminate.
Defined.

(** X2.  No line that [data_handler] hands to [line_handler] holds the
    marker, and after the call the buffer holds none either, whatever
    the buffer held before. *)
Theorem data_handler_lines_hold_no_marker (s : CharacterGlue.t) (eol data : bytes) :
  CharacterGlue.glue_EOL s = Some eol -> eol <> [] ->
  exists new rest,
    data_handler s data
    = Some (Ok, CharacterGlue.mk (Some eol) rest (CharacterGlue.printed s ++ new))
    /\ Forall (fun l => contains eol l = false) new
    /\ contains eol rest = false.
Proof.
  intros Heol Hne. rewrite glue_data_handler. rewrite Heol. cbn zeta.
  destruct (split_lines_total eol (S (length (CharacterGlue.glue_char_buf s ++ data)))
              (CharacterGlue.glue_char_buf s ++ data) [] Hne)
    as (ls & rest & E); [lia|].
  rewrite E. destruct (split_lines_rebuild _ _ _ _ _ _ Hne E) as (new & -> & _ & Hall).
  exists new, rest. split; [reflexivity|]. split.
  - eapply Forall_impl; [|exact Hall]. intros l Hl. unfold contains.
    apply Z.leb_gt. exact Hl.
  - unfold contains. apply Z.leb_gt. eapply split_lines_drained, E.
Qed.

Lemma data_handler_lines_hold_no_marker_witness :
  exists new rest,
    data_handler (CharacterGlue.mk (Some CRLF) [x61; x0d; x0a; x62] []) [x0d; x0a; x0d]
    = Some (Ok, CharacterGlue.mk (Some CRLF) rest ([] ++ new))
    /\ Forall (fun l => contains CRLF l = false) new
    /\ contains CRLF rest = false.
Proof.
  apply (data_handler_lines_hold_no_marker
           (CharacterGlue.mk (Some CRLF) [x61; x0d; x0a; x62] []) CRLF [x0d; x0a; x0d]).
  - reflexivity.
  - discriminate.
Defined.

(** ** More on [send_block] and the transfer *)

(** X3.  The chunks of the list comprehension in [run]: as many as the
    length divided by the chunk size, rounded up; chunk [k] starts at
    offset [k * n] and has [n] bytes, or what is left of the data when
    that is less. *)
Theorem chunks_shape (n : nat) (data : bytes) (k : nat) :
  (0 < n)%nat ->
  length (chunks n data) = ((length data + n - 1) / n)%nat
  /\ (forall c, nth_error (chunks n data) k = Some c ->
      c = firstn n (skipn (k * n) data)
      /\ (k * n < length data)%nat
      /\ length c = Nat.min n (length data - k * n)).
Proof.
  intros Hn. unfold chunks, range0. rewrite !length_map, length_seq.
  split; [reflexivity|]. intros c Hc.
  rewrite map_map in Hc. rewrite nth_error_map in Hc.
  destruct (nth_error (seq 0 _) k) as [j|] eqn:Hj; [|discriminate].
  injection Hc as <-.
  pose proof (nth_error_In _ _ Hj) as Hin. apply in_seq in Hin.
  assert (Hk : (k < (length data + n - 1) / n)%nat).
  { assert (Hs : nth_error (seq 0 ((length data + n - 1) / n)) k <> None) by congruence.
    apply nth_error_Some in Hs. now rewrite length_seq in Hs. }
  assert (j = k).
  { apply nth_error_nth with (d := 0%nat) in Hj.
    rewrite seq_nth in Hj by exact Hk. lia. }
  subst j. split; [reflexivity|]. split.
  - pose proof (Nat.div_mod_eq (length data + n - 1) n) as E.
    pose proof (Nat.mod_upper_bound (length data + n - 1) n ltac:(lia)) as U.
    nia.
  - now rewrite length_firstn, length_skipn.
Qed.

Lemma chunks_shape_witness :
  length (chunks 100 (repeat x00 250)) = ((length (repeat x00 250) + 100 - 1) / 100)%nat
  /\ (forall c, nth_error (chunks 100 (repeat x00 250)) 2 = Some c ->
      c = firstn 100 (skipn (2 * 100) (repeat x00 250))
      /\ (2 * 100 < length (repeat x00 250))%nat
      /\ length c = Nat.min 100 (length (repeat x00 250) - 2 * 100)).
Proof. apply (chunks_shape 100 (repeat x00 250) 2). lia. Defined.

(** X4.  On a connection that is up [send_block] writes the block whole
    and in order: as one write on most hubs, and on the BOOST Move hub
    as writes of at most 20 bytes, none empty, that put together are the
    block. *)
Theorem send_block_writes_in_pieces (h : Host) (s : Hub.t) (data : bytes)
    (stream : list event) :
  Hub.link_up s = true ->
  sent (Hub.trace (snd (fst (Hub.send_block h s data stream))))
  = sent (Hub.trace s) ++ pieces (Hub.hub_kind s) data
  /\ concat (pieces (Hub.hub_kind s) data) = data
  /\ (Hub.hub_kind s = BOOST ->
      Forall (fun p => p <> [] /\ (length p <= 20)%nat) (pieces (Hub.hub_kind s) data))
  /\ (Hub.hub_kind s = OTHER_HUB -> pieces (Hub.hub_kind s) data = [data]).
Proof.
  intros Hup. split; [now apply send_block_writes|]. unfold pieces.
  destruct (Hub.hub_kind s); cbn [is_boost]; repeat split; try discriminate.
  - apply chunks_concat. lia.
  - intros _. apply Forall_forall. intros p Hp. split.
    + pose proof (chunks_nonempty 20 data ltac:(lia)) as Hne.
      rewrite Forall_forall in Hne. now apply Hne.
    + pose proof (chunks_bounded 20 data) as Hb.
      rewrite Forall_forall in Hb. now apply Hb.
  - cbn. now rewrite app_nil_r.
Qed.

Lemma send_block_writes_in_pieces_witness :
  sent (Hub.trace (snd (fst
    (Hub.send_block sample_host (Hub.init BOOST) (repeat x01 45) []))))
  = sent (Hub.trace (Hub.init BOOST)) ++ pieces (Hub.hub_kind (Hub.init BOOST)) (repeat x01 45)
  /\ concat (pieces (Hub.hub_kind (Hub.init BOOST)) (repeat x01 45)) = repeat x01 45
  /\ (Hub.hub_kind (Hub.init BOOST) = BOOST ->
      Forall (fun p => p <> [] /\ (length p <= 20)%nat)
        (pieces (Hub.hub_kind (Hub.init BOOST)) (repeat x01 45)))
  /\ (Hub.hub_kind (Hub.init BOOST) = OTHER_HUB ->
      pieces (Hub.hub_kind (Hub.init BOOST)) (repeat x01 45) = [repeat x01 45]).
Proof.
  apply (send_block_writes_in_pieces sample_host (Hub.init BOOST) (repeat x01 45) []).
  reflexivity.
Defined.

(** X5.  On a connection that is down [send_block] fails with the
    transport's error at its first write: nothing is written, no
    notification is waited for, and the slot is back at -1.  The one
    exception is the empty block on a BOOST Move hub, for which there is
    nothing to write. *)
Theorem send_block_on_lost_link (h : Host) (s : Hub.t) (data : bytes)
    (stream : list event) :
  Hub.link_up s = false -> Hub.hub_kind s = OTHER_HUB \/ data <> [] ->
  fst (fst (Hub.send_block h s data stream)) = Raise BleakError
  /\ snd (Hub.send_block h s data stream) = stream
  /\ sent (Hub.trace (snd (fst (Hub.send_block h s data stream)))) = sent (Hub.trace s)
  /\ Hub.expected_checksum (snd (fst (Hub.send_block h s data stream))) = -1.
Proof.
  intros Hdown Hcase. unfold Hub.send_block.
  set (s2 := Hub.emit (SetExpected _) _).
  assert (Hl2 : Hub.link_up s2 = false) by (subst s2; hub_fields; exact Hdown).
  assert (Ht2 : sent (Hub.trace s2) = sent (Hub.trace s))
    by (subst s2; hub_fields; rewrite !sent_app; cbn; now rewrite !app_nil_r).
  assert (Hw : (if is_boost (Hub.hub_kind s2)
                then Hub.write_pieces s2 (chunks 20 data)
                else Hub.write_gatt_char s2 data) = (Raise BleakError, s2)).
  { replace (Hub.hub_kind s2) with (Hub.hub_kind s) by (subst s2; reflexivity).
    destruct (Hub.hub_kind s) eqn:Hk; cbn [is_boost].
    - destruct Hcase as [Hc|Hc]; [discriminate|].
      pose proof (chunks_concat 20 data ltac:(lia)) as Hcat.
      destruct (chunks 20 data) as [|p ps]; [cbn in Hcat; congruence|].
      cbn [Hub.write_pieces]. unfold Hub.write_gatt_char. now rewrite Hl2.
    - unfold Hub.write_gatt_char. now rewrite Hl2. }
  rewrite Hw. cbn [fst snd]. hub_fields. rewrite sent_app, Ht2. cbn.
  now rewrite app_nil_r.
Qed.

Lemma send_block_on_lost_link_witness :
  let s := Hub.with_link_up false (Hub.init BOOST) in
  fst (fst (Hub.send_block sample_host s [x01] [Nus [x01]])) = Raise BleakError
  /\ snd (Hub.send_block sample_host s [x01] [Nus [x01]]) = [Nus [x01]]
  /\ sent (Hub.trace (snd (fst (Hub.send_block sample_host s [x01] [Nus [x01]]))))
     = sent (Hub.trace s)
  /\ Hub.expected_checksum (snd (fst (Hub.send_block sample_host s [x01] [Nus [x01]]))) = -1.
Proof.
  apply (send_block_on_lost_link sample_host (Hub.with_link_up false (Hub.init BOOST))
           [x01] [Nus [x01]]).
  - reflexivity.
  - right. discriminate.
Defined.

Lemma acks_app (tr1 tr2 : list effect) : acks (tr1 ++ tr2) = (acks tr1 + acks tr2)%nat.
Proof.
  induction tr1 as [|e tr1 IH]; [reflexivity|].
  destruct e; cbn [acks app]; rewrite IH; reflexivity.
Qed.

Ltac count_acks :=
  cbn [fst snd] in *; hub_fields; rewrite ?acks_app; cbn [acks]; try lia.

(** A notification either leaves the readiness event clear, or it is
    the matching checksum, which sets the event once and resets the
    slot. *)
Lemma hub_deliver_ready (h : Host) (s : Hub.t) (ev : event) :
  Hub.checksum_ready s = false ->
  (Hub.checksum_ready (Hub.deliver h s ev) = false
   /\ acks (Hub.trace (Hub.deliver h s ev)) = acks (Hub.trace s))
  \/ (Hub.checksum_ready (Hub.deliver h s ev) = true
      /\ acks (Hub.trace (Hub.deliver h s ev)) = S (acks (Hub.trace s))
      /\ Hub.expected_checksum (Hub.deliver h s ev) = -1).
Proof.
  intros Hr. destruct ev as [data|data| |]; cbn [Hub.deliver].
  - unfold Hub.nus_handler.
    repeat match goal with
           | |- context [if ?c then _ else _] => destruct c
           | |- context [match ?l with [] => _ | _ :: _ => _ end] => destruct l
           end;
      first [ left; split; [hub_fields; assumption|count_acks]
            | right; split; [reflexivity|split; [count_acks|reflexivity]] ].
  - left. unfold Hub.pybricks_service_handler.
    repeat match goal with
           | |- context [if ?c then _ else _] => destruct c
           | |- context [match ?l with [] => _ | _ :: _ => _ end] => destruct l
           | |- context [match ?o with Some _ => _ | None => _ end] => destruct o
           | |- context [let (_, _) := ?p in _] => destruct p
           end; (split; [hub_fields; assumption|count_acks]).
  - left. split; [hub_fields; assumption|count_acks].
  - left. split; [assumption|reflexivity].
Qed.

Lemma hub_await_acks (h : Host) (s : Hub.t) (stream : list event) :
  Hub.checksum_ready s = false ->
  match Hub.await_checksum_ready h s stream with
  | (Ok, s', _) =>
      acks (Hub.trace s') = S (acks (Hub.trace s))
      /\ Hub.expected_checksum s' = -1 /\ Hub.checksum_ready s' = true
  | (Raise e, s', _) =>
      acks (Hub.trace s') = acks (Hub.trace s) /\ Hub.checksum_ready s' = false
  end.
Proof.
  revert s. induction stream as [|ev stream IH]; intros s Hr; rewrite hub_await_unfold, Hr.
  - auto.
  - destruct (hub_deliver_ready h s ev Hr) as [[Hr' Ha]|(Hr' & Ha & He)].
    + specialize (IH _ Hr'). rewrite Ha in IH.
      destruct ev; try exact IH. auto.
    + destruct ev; try (rewrite hub_await_unfold, Hr'; auto).
      cbn [Hub.deliver] in Hr'. congruence.
Qed.

Lemma acks_map_Tx (ps : list bytes) : acks (map Tx ps) = 0%nat.
Proof. induction ps as [|p ps IH]; [reflexivity|exact IH]. Qed.

(** [write_pieces] writes the pieces in order and stops at the first
    write that fails: what it has written is the first [j] pieces. *)
Lemma write_pieces_prefix (s : Hub.t) (ps : list bytes) :
  exists j,
    (j <= length ps)%nat
    /\ snd (Hub.write_pieces s ps)
       = Hub.with_trace (Hub.trace s ++ map Tx (firstn j ps)) s
    /\ (fst (Hub.write_pieces s ps) = Ok -> j = length ps).
Proof.
  revert s. induction ps as [|p ps IH]; intros s.
  - exists 0%nat. destruct s. cbn. rewrite app_nil_r. auto.
  - cbn [Hub.write_pieces]. unfold Hub.write_gatt_char.
    destruct (Hub.link_up s) eqn:Hup.
    + destruct (IH (Hub.emit (Tx p) s)) as (j & Hle & Hs & Hok).
      exists (S j). split; [cbn [length]; lia|]. split.
      * rewrite Hs. hub_fields. cbn [firstn map]. now rewrite <- app_assoc.
      * intros Hr. cbn [length]. f_equal. now apply Hok.
    + exists 0%nat. destruct s. cbn. rewrite app_nil_r.
      split; [lia|]. split; [reflexivity|discriminate].
Qed.

(** What [send_block] has done by the time it starts to wait: the slot
    is armed, the event is clear, and the first [j] writes of the block
    are made, all of them when no write failed. *)
Lemma send_block_written (s : Hub.t) (data : bytes) :
  let s2 := Hub.emit (SetExpected (xor_bytes data 0))
              (Hub.with_expected_checksum (xor_bytes data 0)
                 (Hub.emit ReadyClear (Hub.with_checksum_ready false s))) in
  let written := if is_boost (Hub.hub_kind s2)
                 then Hub.write_pieces s2 (chunks 20 data)
                 else Hub.write_gatt_char s2 data in
  Hub.checksum_ready (snd written) = false
  /\ acks (Hub.trace (snd written)) = acks (Hub.trace s)
  /\ Hub.hub_kind (snd written) = Hub.hub_kind s
  /\ exists j,
       (j <= length (pieces (Hub.hub_kind s) data))%nat
       /\ sent (Hub.trace (snd written))
          = sent (Hub.trace s) ++ firstn j (pieces (Hub.hub_kind s) data)
       /\ (fst written = Ok -> j = length (pieces (Hub.hub_kind s) data)).
Proof.
  cbn zeta. set (s2 := Hub.emit (SetExpected _) _).
  assert (H2 : Hub.checksum_ready s2 = false /\ acks (Hub.trace s2) = acks (Hub.trace s)
               /\ Hub.hub_kind s2 = Hub.hub_kind s
               /\ sent (Hub.trace s2) = sent (Hub.trace s)).
  { subst s2. hub_fields. rewrite !acks_app, !sent_app. cbn.
    rewrite !app_nil_r. repeat split; lia. }
  destruct H2 as (R2 & A2 & K2 & S2). unfold pieces. rewrite K2.
  destruct (is_boost (Hub.hub_kind s)).
  - destruct (write_pieces_prefix s2 (chunks 20 data)) as (j & Hle & Hs & Hok).
    rewrite Hs. cbn [Hub.with_trace Hub.checksum_ready Hub.trace Hub.hub_kind].
    refine (conj R2 (conj _ (conj K2 _))).
    + rewrite acks_app, acks_map_Tx. lia.
    + exists j. split; [exact Hle|]. split; [|exact Hok].
      now rewrite sent_app, sent_map_Tx, S2.
  - unfold Hub.write_gatt_char. destruct (Hub.link_up s2); cbn [fst snd].
    + refine (conj R2 (conj _ (conj K2 _))).
      * cbn [Hub.emit Hub.with_trace Hub.trace]. rewrite acks_app. cbn [acks]. lia.
      * exists 1%nat. cbn [Hub.emit Hub.with_trace Hub.trace length firstn].
        rewrite sent_app, S2. repeat split. lia.
    + refine (conj R2 (conj A2 (conj K2 _))).
      exists 0%nat. cbn [firstn length]. rewrite app_nil_r.
      split; [lia|]. split; [exact S2|discriminate].
Qed.

(** X6.  Every [send_block] that returns was acknowledged by exactly
    one matching checksum: the readiness event, cleared when the call
    begins, is set once during the call and is set when the call
    returns.  No call, whether it returns or raises, sets the event more
    than once, and when any call ends the slot is back at -1. *)
Theorem send_block_one_ack (h : Host) (s : Hub.t) (data : bytes) (stream : list event) :
  match fst (fst (Hub.send_block h s data stream)) with
  | Ok =>
      acks (Hub.trace (snd (fst (Hub.send_block h s data stream))))
      = S (acks (Hub.trace s))
      /\ Hub.checksum_ready (snd (fst (Hub.send_block h s data stream))) = true
  | Raise _ =>
      (acks (Hub.trace s)
       <= acks (Hub.trace (snd (fst (Hub.send_block h s data stream))))
       <= S (acks (Hub.trace s)))%nat
  end
  /\ Hub.expected_checksum (snd (fst (Hub.send_block h s data stream))) = -1.
Proof.
  pose proof (send_block_written s data) as Hw. cbn zeta in Hw.
  unfold Hub.send_block.
  destruct (if is_boost _ then _ else _) as [[|e] s3]; cbn [fst snd] in Hw;
    destruct Hw as (R3 & A3 & _ & _).
  - pose proof (hub_await_acks h s3 stream R3) as Ha.
    destruct (Hub.await_checksum_ready h s3 stream) as [[[|e] s4] rest];
      cbn [fst snd]; hub_fields; rewrite ?acks_app; cbn [acks];
      intuition lia.
  - cbn [fst snd]. hub_fields. rewrite acks_app. cbn [acks]. intuition lia.
Qed.

(** X7.  When [send_block] has failed, for whatever reason, a
    notification that arrives afterwards is no longer read as a
    checksum: it is hub output, buffered while loading and written to
    the terminal otherwise. *)
Theorem late_ack_after_failure_is_output (h : Host) (s : Hub.t) (data late : bytes)
    (stream : list event) (e : exn) :
  fst (fst (Hub.send_block h s data stream)) = Raise e ->
  Hub.nus_handler (snd (fst (Hub.send_block h s data stream))) late
  = if Hub.loading (snd (fst (Hub.send_block h s data stream)))
    then (Ok, Hub.with_buffered_stdout
                (BytesIO.write
                   (Hub.buffered_stdout (snd (fst (Hub.send_block h s data stream)))) late)
                (snd (fst (Hub.send_block h s data stream))))
    else (Ok, Hub.emit (Stdout late) (snd (fst (Hub.send_block h s data stream)))).
Proof.
  intros Hfail. pose proof (send_block_failure_disarms h s data stream e Hfail) as Hd.
  unfold Hub.nus_handler. rewrite Hd. reflexivity.
Qed.

Lemma late_ack_after_failure_is_output_witness :
  let s' := snd (fst (Hub.send_block sample_host (Hub.init OTHER_HUB) [x05] [])) in
  Hub.nus_handler s' [x05]
  = if Hub.loading s'
    then (Ok, Hub.with_buffered_stdout (BytesIO.write (Hub.buffered_stdout s') [x05]) s')
    else (Ok, Hub.emit (Stdout [x05]) s').
Proof.
  apply (late_ack_after_failure_is_output sample_host (Hub.init OTHER_HUB) [x05] [x05] []
           TimeoutError).
  reflexivity.
Defined.

Lemma hub_deliver_kind (h : Host) (s : Hub.t) (ev : event) :
  Hub.hub_kind (Hub.deliver h s ev) = Hub.hub_kind s.
Proof.
  destruct ev as [data|data| |]; cbn [Hub.deliver]; try reflexivity.
  - unfold Hub.nus_handler.
    repeat match goal with
           | |- context [if ?c then _ else _] => destruct c
           | |- context [match ?l with [] => _ | _ :: _ => _ end] => destruct l
           end; reflexivity.
  - unfold Hub.pybricks_service_handler.
    repeat match goal with
           | |- context [if ?c then _ else _] => destruct c
           | |- context [match ?l with [] => _ | _ :: _ => _ end] => destruct l
           | |- context [match ?o with Some _ => _ | None => _ end] => destruct o
           | |- context [let (_, _) := ?p in _] => destruct p
           end; reflexivity.
Qed.

Lemma hub_await_kind (h : Host) (s : Hub.t) (stream : list event) :
  Hub.hub_kind (snd (fst (Hub.await_checksum_ready h s stream))) = Hub.hub_kind s.
Proof.
  revert s. induction stream as [|ev stream IH]; intros s; rewrite hub_await_unfold.
  - destruct (Hub.checksum_ready s); reflexivity.
  - destruct (Hub.checksum_ready s); [reflexivity|].
    destruct ev; try (rewrite IH; apply hub_deliver_kind). reflexivity.
Qed.

(** Whatever happens, what [send_block] has written is the first [j]
    writes of its block, all of them when it returns. *)
Lemma send_block_prefix (h : Host) (s : Hub.t) (data : bytes) (stream : list event) :
  Hub.hub_kind (snd (fst (Hub.send_block h s data stream))) = Hub.hub_kind s
  /\ exists j,
       (j <= length (pieces (Hub.hub_kind s) data))%nat
       /\ sent (Hub.trace (snd (fst (Hub.send_block h s data stream))))
          = sent (Hub.trace s) ++ firstn j (pieces (Hub.hub_kind s) data)
       /\ (fst (fst (Hub.send_block h s data stream)) = Ok
           -> j = length (pieces (Hub.hub_kind s) data)).
Proof.
  pose proof (send_block_written s data) as Hw. cbn zeta in Hw.
  unfold Hub.send_block.
  destruct (if is_boost _ then _ else _) as [[|e] s3]; cbn [fst snd] in Hw;
    destruct Hw as (_ & _ & K3 & j & Hle & Hs & Hok).
  - pose proof (hub_await_kind h s3 stream) as Hk.
    destruct (hub_await_extends h s3 stream) as (tr & Et & St).
    destruct (Hub.await_checksum_ready h s3 stream) as [[[|e] s4] rest];
      cbn [fst snd] in *; hub_fields; (split; [congruence|]);
      exists j; (split; [exact Hle|]); (split; [|intros _; now apply Hok]);
      rewrite Et, ?sent_app, St, Hs; cbn [sent]; now rewrite ?app_nil_r.
  - cbn [fst snd]. hub_fields. split; [exact K3|].
    exists j. split; [exact Hle|]. split; [|discriminate].
    rewrite sent_app, Hs. cbn [sent]. now rewrite app_nil_r.
Qed.

Lemma firstn_app_short {A} (j : nat) (l more : list A) :
  (j <= length l)%nat -> firstn j (l ++ more) = firstn j l.
Proof.
  intros Hle. rewrite firstn_app.
  replace (j - length l)%nat with 0%nat by lia. cbn [firstn]. apply app_nil_r.
Qed.

Lemma send_chunks_prefix (h : Host) (s : Hub.t) (blocks : list bytes)
    (stream : list event) :
  exists j,
    (j <= length (concat (map (pieces (Hub.hub_kind s)) blocks)))%nat
    /\ sent (Hub.trace (snd (fst (Hub.send_chunks h s blocks stream))))
       = sent (Hub.trace s)
           ++ firstn j (concat (map (pieces (Hub.hub_kind s)) blocks))
    /\ (fst (fst (Hub.send_chunks h s blocks stream)) = Ok
        -> j = length (concat (map (pieces (Hub.hub_kind s)) blocks))).
Proof.
  revert s stream. induction blocks as [|c blocks IH]; intros s stream.
  - exists 0%nat. cbn. rewrite app_nil_r. auto.
  - cbn [Hub.send_chunks map concat].
    destruct (send_block_prefix h s c stream) as (Hk & j1 & Hle1 & Hs1 & Hok1).
    destruct (Hub.send_block h s c stream) as [[[|e] s1] stream1]; cbn [fst snd] in *.
    + specialize (Hok1 eq_refl). subst j1. rewrite firstn_all in Hs1.
      destruct (IH (Hub.emit (Progress (length c)) s1) stream1) as (j & Hle & Hsent & Hok).
      replace (Hub.hub_kind (Hub.emit (Progress (length c)) s1)) with (Hub.hub_kind s)
        in Hle, Hsent, Hok by (symmetry; exact Hk).
      exists (length (pieces (Hub.hub_kind s) c) + j)%nat.
      split; [rewrite length_app; lia|]. split.
      * rewrite Hsent. hub_fields. rewrite sent_app, Hs1. cbn [sent].
        rewrite app_nil_r, firstn_app_2. now rewrite <- !app_assoc.
      * intros Hr. rewrite length_app. f_equal. now apply Hok.
    + exists j1. split; [rewrite length_app; lia|]. split; [|discriminate].
      now rewrite firstn_app_short.
Qed.

(** X8.  The transfer fails fast and keeps the order: whatever arrives
    and whatever happens to the connection, what [run] has written when
    the transfer ends is an initial stretch of the writes of the whole
    transfer, which are those of the length block and then those of each
    chunk in turn (one write a block, or on the BOOST Move hub its
    pieces of 20 bytes): no write is made out of order and none is left
    out before a later one.  When the transfer ends without an error
    all of them are made. *)
Theorem transfer_writes_a_prefix (h : Host) (s : Hub.t) (mpy : bytes)
    (stream : list event) :
  exists j,
    sent (Hub.trace (snd (fst (Hub.run_transfer h s mpy stream))))
    = sent (Hub.trace s)
        ++ firstn j (concat (map (pieces (Hub.hub_kind s)) (transfer_blocks mpy)))
    /\ match fst (fst (Hub.run_transfer h s mpy stream)) with
       | Ok =>
           sent (Hub.trace (snd (fst (Hub.run_transfer h s mpy stream))))
           = sent (Hub.trace s)
               ++ concat (map (pieces (Hub.hub_kind s)) (transfer_blocks mpy))
       | Raise _ => True
       end.
Proof.
  unfold Hub.run_transfer, transfer_blocks.
  set (s2 := Hub.emit StoppedClear _).
  assert (S2 : sent (Hub.trace s2) = sent (Hub.trace s))
    by (subst s2; hub_fields; rewrite sent_app; cbn; now rewrite app_nil_r).
  assert (K2 : Hub.hub_kind s2 = Hub.hub_kind s) by reflexivity.
  destruct (to_bytes4_little (Z.of_nat (length mpy))) as [len_block|].
  - cbn [map concat].
    destruct (send_block_prefix h s2 len_block stream) as (Hk & j1 & Hle1 & Hs1 & Hok1).
    rewrite K2 in Hk, Hle1, Hs1, Hok1.
    destruct (Hub.send_block h s2 len_block stream) as [[[|e] s3] stream1];
      cbn [fst snd] in *.
    + specialize (Hok1 eq_refl). subst j1. rewrite firstn_all in Hs1.
      destruct (send_chunks_prefix h s3 (chunks 100 mpy) stream1) as (j & Hle & Hsent & Hok).
      rewrite Hk in Hle, Hsent, Hok.
      destruct (Hub.send_chunks h s3 (chunks 100 mpy) stream1) as [[r s4] rest].
      cbn [fst snd] in *.
      exists (length (pieces (Hub.hub_kind s) len_block) + j)%nat. hub_fields. split.
      * rewrite Hsent, Hs1, S2, firstn_app_2. now rewrite <- !app_assoc.
      * destruct r; [|exact I]. rewrite Hsent, Hs1, S2, (Hok eq_refl), firstn_all.
        now rewrite <- !app_assoc.
    + exists j1. hub_fields. split; [|exact I].
      rewrite Hs1, S2. now rewrite firstn_app_short.
  - exists 0%nat. cbn [fst snd map concat firstn]. hub_fields.
    rewrite S2, app_nil_r. split; [reflexivity|exact I].
Qed.

(** ** Status reports and hub output outside a transfer *)

Lemma status_report_step (h : Host) (s : Hub.t) (data : bytes) (now : bool) :
  Hub.loading s = false -> status_of h data = Some now ->
  let s' := Hub.deliver h s (Control data) in
  Hub.loading s' = false
  /\ Hub.program_running s' = now
  /\ Hub.user_program_stopped s' = Hub.user_program_stopped s || negb now.
Proof.
  intros Hl Hst. cbn zeta. cbn [Hub.deliver]. unfold Hub.pybricks_service_handler.
  unfold status_of in Hst. destruct data as [|kind payload]; [discriminate|].
  destruct (byte_val kind =? STATUS_REPORT h); [|discriminate].
  destruct (unpack_u32_little payload) as [flags|]; [|discriminate].
  injection Hst as Hnow. rewrite Hnow, Hl. cbn [negb].
  destruct (BytesIO.read (Hub.buffered_stdout (Hub.with_program_running now s)))
    as [held f].
  destruct (Hub.program_running s) eqn:Hp, now, (Hub.user_program_stopped s) eqn:Hu;
    cbn; auto.
Qed.

Lemma last_cons {A} (b d : A) (bs : list A) : last (b :: bs) d = last bs b.
Proof.
  revert b d. induction bs as [|c bs IH]; intros b d; [reflexivity|].
  change (last (b :: c :: bs) d) with (last (c :: bs) d).
  rewrite (IH c d). symmetry. apply IH.
Qed.

(** X9.  Outside a transfer the running flag follows the status
    reports: after any number of them it is what the last one said, and
    the stopped signal is set as soon as one of them says that the
    program is not running, whether the flag changed or not. *)
Theorem running_flag_follows_status_reports (h : Host) (s : Hub.t)
    (reports : list bytes) (says : list bool) :
  Hub.loading s = false -> map (status_of h) reports = map Some says ->
  let s' := deliver_all h s (map Control reports) in
  Hub.program_running s' = last says (Hub.program_running s)
  /\ Hub.user_program_stopped s' = Hub.user_program_stopped s || existsb negb says
  /\ Hub.loading s' = false.
Proof.
  revert s says. induction reports as [|d ds IH]; intros s says Hl Hmap; cbn zeta.
  - destruct says; [|discriminate]. cbn. now rewrite orb_false_r.
  - destruct says as [|b bs]; [discriminate|]. cbn [map] in Hmap.
    injection Hmap as Hd Hds.
    destruct (status_report_step h s d b Hl Hd) as (Hl' & Hp & Hu).
    cbn [map deliver_all fold_left].
    destruct (IH (Hub.deliver h s (Control d)) bs Hl' Hds) as (I1 & I2 & I3).
    unfold deliver_all in *. rewrite I1, I2, I3, Hp, Hu. cbn [existsb].
    split; [|split; [now rewrite orb_assoc|reflexivity]].
    symmetry. apply last_cons.
Qed.

Lemma running_flag_follows_status_reports_witness :
  let s' := deliver_all sample_host (Hub.init OTHER_HUB)
              (map Control [[x00; x40; x00; x00; x00]; [x00; x00; x01; x00; x00]]) in
  Hub.program_running s' = last [true; false] (Hub.program_running (Hub.init OTHER_HUB))
  /\ Hub.user_program_stopped s'
     = Hub.user_program_stopped (Hub.init OTHER_HUB) || existsb negb [true; false]
  /\ Hub.loading s' = false.
Proof.
  apply (running_flag_follows_status_reports sample_host (Hub.init OTHER_HUB)
           [[x00; x40; x00; x00; x00]; [x00; x00; x01; x00; x00]] [true; false]);
    reflexivity.
Defined.

(** X10.  A notification on the control characteristic that is not a
    well-formed status report changes nothing, loading or not: an empty
    one makes the handler raise [IndexError], a status report whose
    payload is not four bytes makes it raise the error of
    [struct.unpack], and any other kind of event is ignored. *)
Theorem malformed_control_notification (h : Host) (s : Hub.t) (data : bytes) :
  status_of h data = None ->
  snd (Hub.pybricks_service_handler h s data) = s
  /\ fst (Hub.pybricks_service_handler h s data)
     = match data with
       | [] => Raise IndexError
       | kind :: payload =>
           if (byte_val kind =? STATUS_REPORT h) && negb (length payload =? 4)%nat
           then Raise StructError else Ok
       end.
Proof.
  unfold status_of, Hub.pybricks_service_handler.
  destruct data as [|kind payload]; [auto|].
  destruct (byte_val kind =? STATUS_REPORT h); [|auto].
  destruct (unpack_u32_little payload) eqn:E; [discriminate|]. intros _.
  split; [reflexivity|]. cbn [andb fst].
  destruct payload as [|b0 [|b1 [|b2 [|b3 [|b4 rest]]]]]; try reflexivity.
  discriminate E.
Qed.

Lemma malformed_control_notification_witness :
  snd (Hub.pybricks_service_handler sample_host (Hub.init OTHER_HUB) [x00; x40; x00]) 
  = Hub.init OTHER_HUB
  /\ fst (Hub.pybricks_service_handler sample_host (Hub.init OTHER_HUB) [x00; x40; x00])
     = if (byte_val x00 =? STATUS_REPORT sample_host) && negb (length [x40; x00] =? 4)%nat
       then Raise StructError else Ok.
Proof.
  apply (malformed_control_notification sample_host (Hub.init OTHER_HUB) [x00; x40; x00]).
  reflexivity.
Defined.

(** X11.  Outside a transfer, with no checksum awaited, what the hub
    sends goes to the terminal at once, byte for byte and in the order
    of arrival; nothing of it is buffered. *)
Theorem hub_output_reaches_terminal_in_order (h : Host) (s : Hub.t) (ds : list bytes) :
  Hub.loading s = false -> Hub.expected_checksum s = -1 ->
  let s' := deliver_all h s (map Nus ds) in
  terminal (Hub.trace s') = terminal (Hub.trace s) ++ concat ds
  /\ Hub.buffered_stdout s' = Hub.buffered_stdout s
  /\ Hub.expected_checksum s' = -1.
Proof.
  revert s. induction ds as [|d ds IH]; intros s Hl He; cbn zeta.
  - cbn. now rewrite app_nil_r.
  - cbn [map deliver_all fold_left Hub.deliver]. unfold Hub.nus_handler.
    rewrite He, Hl, Z.eqb_refl. cbn [negb].
    destruct (IH (Hub.emit (Stdout d) s)) as (I1 & I2 & I3); try assumption.
    unfold deliver_all in *. rewrite I1, I2, I3. hub_fields.
    rewrite terminal_app. cbn [terminal concat]. now rewrite app_nil_r, <- app_assoc.
Qed.

Lemma hub_output_reaches_terminal_in_order_witness :
  let s' := deliver_all sample_host (Hub.init OTHER_HUB) (map Nus [[x68]; [x69; x0a]]) in
  terminal (Hub.trace s') = terminal (Hub.trace (Hub.init OTHER_HUB)) ++ concat [[x68]; [x69; x0a]]
  /\ Hub.buffered_stdout s' = Hub.buffered_stdout (Hub.init OTHER_HUB)
  /\ Hub.expected_checksum s' = -1.
Proof.
  apply (hub_output_reaches_terminal_in_order sample_host (Hub.init OTHER_HUB)
           [[x68]; [x69; x0a]]); reflexivity.
Defined.

(** X12.  No notification makes the hub object look at lines:
    [nus_handler] returns before the code that would split the stream
    and call [line_handler], so whatever arrives, the output history and
    the log file stay as they are and nothing is printed as a line or
    written to a log file. *)
Theorem hub_notifications_never_reach_line_handler (h : Host) (s : Hub.t)
    (evs : list event) :
  Hub.output (deliver_all h s evs) = Hub.output s
  /\ Hub.log_file (deliver_all h s evs) = Hub.log_file s
  /\ forwarded (Hub.trace (deliver_all h s evs)) = forwarded (Hub.trace s).
Proof.
  revert s. induction evs as [|ev evs IH]; intros s; [auto|].
  cbn [deliver_all fold_left]. destruct (IH (Hub.deliver h s ev)) as (I1 & I2 & I3).
  unfold deliver_all in *. rewrite I1, I2, I3. clear.
  destruct ev as [data|data| |]; cbn [Hub.deliver]; auto.
  - unfold Hub.nus_handler.
    repeat match goal with
           | |- context [if ?c then _ else _] => destruct c
           | |- context [match ?l with [] => _ | _ :: _ => _ end] => destruct l
           end; hub_fields; rewrite ?forwarded_app; cbn [forwarded];
      rewrite ?app_nil_r; auto.
  - unfold Hub.pybricks_service_handler.
    repeat match goal with
           | |- context [if ?c then _ else _] => destruct c
           | |- context [match ?l with [] => _ | _ :: _ => _ end] => destruct l
           | |- context [match ?o with Some _ => _ | None => _ end] => destruct o
           | |- context [let (_, _) := ?p in _] => destruct p
           end; hub_fields; rewrite ?forwarded_app; cbn [forwarded];
      rewrite ?app_nil_r; auto.
Qed.

(** ** More on the older protocol object *)

Lemma pup_feed_chars_state (h : Host) (s : PUP.t) (data : bytes) :
  PUP.state (@feed_chars PUP.t (PUP.glue h) s data) = PUP.state s.
Proof.
  revert s. induction data as [|b data IH]; intros s; [reflexivity|].
  cbn [feed_chars char_handler char_buf set_char_buf PUP.glue].
  unfold PUP.char_handler.
  destruct (PUP.state s =? PUP.AWAITING_CHECKSUM); rewrite IH; reflexivity.
Qed.

(** No notification changes [state]. *)
Lemma pup_deliver_state (h : Host) (s : PUP.t) (ev : event) :
  PUP.state (PUP.deliver h s ev) = PUP.state s.
Proof.
  destruct ev as [data| | |]; cbn [PUP.deliver]; try reflexivity.
  destruct (pup_data_handler_total h s data) as (r & s' & -> & Hh).
  unfold handshake in Hh. injection Hh as E _ _ _.
  rewrite pup_feed_chars_state in E. destruct r; pup_fields; exact E.
Qed.

Lemma pup_deliver_all_state (h : Host) (s : PUP.t) (evs : list event) :
  PUP.state (pup_deliver_all h s evs) = PUP.state s.
Proof.
  revert s. induction evs as [|ev evs IH]; intros s; [reflexivity|].
  cbn [pup_deliver_all fold_left]. unfold pup_deliver_all in IH.
  now rewrite IH, pup_deliver_state.
Qed.

(** X13.  [wait_until_state_is_not] cannot be ended by the hub: no
    notification changes [state], so the loop ends at its first test
    when the state already differs from the one given, and never ends
    when it is the one given. *)
Theorem polling_ends_at_once_or_never (h : Host) (s : PUP.t) (state : Z)
    (evs : list event) (rest : list (list event)) :
  (PUP.state s <> state ->
   wait_until_state_is_not h s state (evs :: rest)
   = Some (pup_deliver_all h s evs, rest))
  /\ (PUP.state s = state ->
      forall rounds, wait_until_state_is_not h s state rounds = None).
Proof.
  split.
  - intros Hne. cbn [wait_until_state_is_not].
    rewrite pup_deliver_all_state. apply Z.eqb_neq in Hne. now rewrite Hne.
  - intros Heq rounds. revert s Heq.
    induction rounds as [|r rounds IH]; intros s Heq; [reflexivity|].
    cbn [wait_until_state_is_not]. rewrite pup_deliver_all_state, Heq, Z.eqb_refl.
    cbn [negb]. apply IH. now rewrite pup_deliver_all_state.
Qed.

Lemma polling_ends_at_once_or_never_witness :
  wait_until_state_is_not sample_host PUP.init PUP.RUNNING [[Nus [x68]]; []]
  = Some (pup_deliver_all sample_host PUP.init [Nus [x68]], [[]]).
Proof.
  apply (polling_ends_at_once_or_never sample_host PUP.init PUP.RUNNING [Nus [x68]] [[]]).
  discriminate.
Defined.

Lemma pup_set_state_idle (s : PUP.t) : PUP.state (PUP.set_state PUP.IDLE s) = PUP.IDLE.
Proof.
  unfold PUP.set_state. destruct (PUP.IDLE =? PUP.state s) eqn:E; [|reflexivity].
  apply Z.eqb_eq in E. now symmetry.
Qed.

(** When [send_message] gets a reply, matching or not, it leaves the
    state [IDLE]. *)
Lemma pup_send_message_reply_state (h : Host) (s : PUP.t) (data : bytes) (b : byte)
    (more : bytes) (stream : list event) :
  (length data <= 100)%nat -> PUP.link_up s = true ->
  PUP.state (snd (fst (PUP.send_message h s data (Nus (b :: more) :: stream)))) = PUP.IDLE
  /\ snd (PUP.send_message h s data (Nus (b :: more) :: stream)) = stream.
Proof.
  intros Hlen Hup. unfold PUP.send_message.
  destruct (100 <? length data)%nat eqn:E; [apply Nat.ltb_lt in E; lia|].
  destruct (pup_prepare_checksum_state s) as (P1 & P2 & P3).
  unfold PUP.write. rewrite P3, Hup.
  unfold PUP.wait_for_checksum. rewrite pup_await_unfold.
  replace (PUP.checksum_ready (PUP.emit (Tx data) (PUP.prepare_checksum s)))
    with false by (pup_fields; now rewrite P2).
  destruct (pup_deliver_awaiting h (PUP.emit (Tx data) (PUP.prepare_checksum s)) b more)
    as (D1 & D2 & D3 & D4); [pup_fields; exact P1|].
  rewrite pup_await_unfold, D2, D3.
  destruct (_ =? _); cbn [fst snd]; split; try reflexivity; apply pup_set_state_idle.
Qed.

(** X14.  When the reply to [send_message] comes as one notification of
    several bytes, every byte of it is taken as the checksum in turn and
    the last one is the one compared: the call succeeds exactly when the
    last byte is the XOR of the data.  With or without a match the state
    is [IDLE] afterwards, so the bytes that follow reach the line
    buffer. *)
Theorem send_message_compares_last_byte (h : Host) (s : PUP.t) (data : bytes) (b : byte)
    (more : bytes) (stream : list event) :
  (length data <= 100)%nat -> PUP.link_up s = true ->
  let r := PUP.send_message h s data (Nus (b :: more) :: stream) in
  (fst (fst r) = Ok <-> byte_val (last (b :: more) x00) = xor_bytes data 0)
  /\ (byte_val (last (b :: more) x00) <> xor_bytes data 0 ->
      fst (fst r) = Raise (ValueError_checksum (xor_bytes data 0)
                             (Some (byte_val (last (b :: more) x00)))))
  /\ PUP.state (snd (fst r)) = PUP.IDLE
  /\ (forall c, PUP.char_handler (snd (fst r)) c = (Some c, snd (fst r))).
Proof.
  intros Hlen Hup. cbn zeta.
  pose proof (pup_send_message_reply h s data b more stream Hlen Hup) as Hr.
  destruct (pup_send_message_reply_state h s data b more stream Hlen Hup) as [Hst _].
  refine (conj _ (conj _ (conj Hst _))).
  - rewrite Hr.
    destruct (Z.eq_dec (byte_val (last (b :: more) x00)) (xor_bytes data 0)) as [E|E].
    + rewrite (proj2 (Z.eqb_eq _ _) E). tauto.
    + rewrite (proj2 (Z.eqb_neq _ _) E). split; [discriminate|contradiction].
  - intros Hne. rewrite Hr. apply Z.eqb_neq in Hne. now rewrite Hne.
  - intros c. unfold PUP.char_handler. now rewrite Hst.
Qed.

Lemma send_message_compares_last_byte_witness :
  let r := PUP.send_message sample_host PUP.init [x01] [Nus [x07; x01]] in
  (fst (fst r) = Ok <-> byte_val (last [x07; x01] x00) = xor_bytes [x01] 0)
  /\ (byte_val (last [x07; x01] x00) <> xor_bytes [x01] 0 ->
      fst (fst r) = Raise (ValueError_checksum (xor_bytes [x01] 0)
                             (Some (byte_val (last [x07; x01] x00)))))
  /\ PUP.state (snd (fst r)) = PUP.IDLE
  /\ (forall c, PUP.char_handler (snd (fst r)) c = (Some c, snd (fst r))).
Proof.
  apply (send_message_compares_last_byte sample_host PUP.init [x01] x07 [x01] []).
  - cbn. lia.
  - reflexivity.
Defined.

Lemma pup_wait_for_checksum_state (h : Host) (s s' : PUP.t) (stream rest : list event)
    (reply : option Z) :
  PUP.wait_for_checksum h s stream = (inr reply, s', rest) -> PUP.state s' = PUP.IDLE.
Proof.
  unfold PUP.wait_for_checksum.
  destruct (PUP.await_checksum_ready h s stream) as [[[|e] s1] rest1]; [|discriminate].
  intros [= _ <- _]. apply pup_set_state_idle.
Qed.

Lemma pup_send_message_ok_state (h : Host) (s : PUP.t) (data : bytes)
    (stream : list event) :
  fst (fst (PUP.send_message h s data stream)) = Ok ->
  PUP.state (snd (fst (PUP.send_message h s data stream))) = PUP.IDLE.
Proof.
  unfold PUP.send_message.
  destruct (100 <? length data)%nat; [discriminate|].
  destruct (PUP.write (PUP.prepare_checksum s) data) as [[|e] s2]; [|discriminate].
  destruct (PUP.wait_for_checksum h s2 stream) as [[[e|reply] s3] rest] eqn:Ew;
    [discriminate|].
  apply pup_wait_for_checksum_state in Ew.
  destruct reply as [r|]; [|discriminate].
  destruct (r =? xor_bytes data 0); [|discriminate]. intros _. exact Ew.
Qed.

Lemma pup_transfer_ok_state (h : Host) (s : PUP.t) (mpy : bytes) (stream : list event) :
  fst (fst (PUP.run_transfer h s mpy stream)) = Ok ->
  PUP.state (snd (fst (PUP.run_transfer h s mpy stream))) = PUP.IDLE.
Proof.
  unfold PUP.run_transfer.
  destruct (to_bytes4_little _) as [len_block|]; [|discriminate].
  pose proof (pup_send_message_ok_state h s len_block stream) as H1.
  destruct (PUP.send_message h s len_block stream) as [[[|e] s1] stream1];
    cbn [fst snd] in *; [|discriminate].
  specialize (H1 eq_refl). revert s1 stream1 H1.
  induction (chunks 100 mpy) as [|c blocks IH]; intros s1 stream1 H1; cbn [PUP.send_chunks].
  - intros _. exact H1.
  - pose proof (pup_send_message_ok_state h s1 c stream1) as Hc.
    destruct (PUP.send_message h s1 c stream1) as [[[|e] s2] stream2];
      cbn [fst snd] in *; [|discriminate].
    apply IH. pup_fields. now apply Hc.
Qed.

(** X15.  [run] with [wait] does not wait for the program: a transfer
    that succeeded leaves the state [IDLE], nothing sets it to
    [RUNNING], and so [wait_until_state_is_not(RUNNING)] returns at its
    first test, after the sleep of 0.2 s and one of 0.1 s, whatever the
    hub sends in between. *)
Theorem run_wait_returns_at_first_poll (h : Host) (s : PUP.t) (mpy : bytes)
    (stream evs0 evs1 : list event) (rest : list (list event)) :
  fst (fst (PUP.run_transfer h s mpy stream)) = Ok ->
  run_wait h (snd (fst (PUP.run_transfer h s mpy stream))) true (evs0 :: evs1 :: rest)
  = Some (pup_deliver_all h
            (pup_deliver_all h (snd (fst (PUP.run_transfer h s mpy stream))) evs0) evs1,
          rest).
Proof.
  intros Hok. pose proof (pup_transfer_ok_state h s mpy stream Hok) as Hst.
  cbn [run_wait].
  apply (polling_ends_at_once_or_never h _ PUP.RUNNING evs1 rest).
  rewrite pup_deliver_all_state, Hst. discriminate.
Qed.

Lemma run_wait_returns_at_first_poll_witness :
  let s' := snd (fst (PUP.run_transfer sample_host PUP.init sample_mpy
                        (map ack ([x05; x00; x00; x00] :: chunks 100 sample_mpy)))) in
  run_wait sample_host s' true ([Nus [x68]] :: [] :: [])
  = Some (pup_deliver_all sample_host (pup_deliver_all sample_host s' [Nus [x68]]) [], []).
Proof.
  apply (run_wait_returns_at_first_poll sample_host PUP.init sample_mpy
           (map ack ([x05; x00; x00; x00] :: chunks 100 sample_mpy)) [Nus [x68]] [] []).
  vm_compute. reflexivity.
Defined.

(** ** Log files *)

Lemma pup_handle_lines_app (h : Host) (s : PUP.t) (ls1 ls2 : list bytes) :
  @handle_lines PUP.t (PUP.glue h) s (ls1 ++ ls2)
  = match @handle_lines PUP.t (PUP.glue h) s ls1 with
    | (Ok, s1) => @handle_lines PUP.t (PUP.glue h) s1 ls2
    | (Raise e, s1) => (Raise e, s1)
    end.
Proof.
  revert s. induction ls1 as [|l ls1 IH]; intros s; [reflexivity|].
  cbn [app handle_lines]. destruct (line_handler s l) as [[|e] s1]; [apply IH|reflexivity].
Qed.

(** With a log file open, lines that hold no token go to the file. *)
Lemma pup_lines_to_log (h : Host) (s : PUP.t) (f : String.string)
    (lines : list bytes) (texts : list String.string) :
  PUP.log_file s = Some f ->
  Forall (fun l => contains PB_OF l = false /\ contains PB_EOF l = false) lines ->
  map (decode h) lines = map Some texts ->
  @handle_lines PUP.t (PUP.glue h) s lines
  = (Ok, PUP.with_trace (PUP.trace s ++ map (FileWrite f) texts) s).
Proof.
  revert s texts. induction lines as [|l lines IH]; intros s texts Hf Hall Hdec.
  - destruct texts; [|discriminate]. destruct s. cbn. now rewrite app_nil_r.
  - destruct texts as [|t texts]; [discriminate|]. injection Hdec as Hl Hdec.
    inversion Hall as [|? ? [Ho Hc] Hrest]; subst.
    cbn [handle_lines line_handler PUP.glue]. unfold PUP.line_handler.
    rewrite Ho, Hc, Hf, Hl.
    rewrite (IH (PUP.emit (FileWrite f t) s) texts); try assumption.
    pup_fields. cbn [map]. now rewrite <- app_assoc.
Qed.

(** X16.  A log from open to close: a line with [PB_OF] opens the file
    named by what follows the first six bytes of the line, the lines
    after it that hold neither token are written to that file in order,
    and a line with [PB_EOF] closes it.  None of these lines reaches the
    output history or the terminal, and afterwards no log is open. *)
Theorem log_from_open_to_close (h : Host) (s : PUP.t) (open_line close_line : bytes)
    (name : String.string) (lines : list bytes) (texts : list String.string) :
  PUP.log_file s = None ->
  contains PB_OF open_line = true ->
  decode h (skipn 6 open_line) = Some name -> can_open h name = true ->
  Forall (fun l => contains PB_OF l = false /\ contains PB_EOF l = false) lines ->
  map (decode h) lines = map Some texts ->
  contains PB_OF close_line = false -> contains PB_EOF close_line = true ->
  @handle_lines PUP.t (PUP.glue h) s (open_line :: lines ++ [close_line])
  = (Ok, PUP.with_trace
           (PUP.trace s ++ FileOpen name :: map (FileWrite name) texts ++ [FileClose name])
           s).
Proof.
  intros Hnone Hopen Hname Hcan Hall Hdec Hc1 Hc2.
  cbn [handle_lines line_handler PUP.glue]. unfold PUP.line_handler at 1.
  rewrite Hopen, Hnone, Hname, Hcan.
  rewrite pup_handle_lines_app.
  rewrite (pup_lines_to_log h _ name lines texts); try assumption; [|reflexivity].
  cbn [handle_lines line_handler PUP.glue]. unfold PUP.line_handler.
  rewrite Hc1, Hc2. pup_fields. destruct s. cbn in *. subst.
  now rewrite <- !app_assoc.
Qed.

Lemma log_from_open_to_close_witness :
  @handle_lines PUP.t (PUP.glue sample_host) PUP.init
    ([x50; x42; x5f; x4f; x46; x20; x61] :: [[x68; x69]] ++ [PB_EOF])
  = (Ok, PUP.with_trace
           (PUP.trace PUP.init
              ++ FileOpen "a"%string :: map (FileWrite "a"%string) ["hi"%string]
              ++ [FileClose "a"%string])
           PUP.init).
Proof.
  apply (log_from_open_to_close sample_host PUP.init
           [x50; x42; x5f; x4f; x46; x20; x61] PB_EOF "a"%string [[x68; x69]]
           ["hi"%string]); try reflexivity.
  repeat constructor.
Defined.

(** ** Lines that end in [b"\r\n"] *)

Lemma contains_false_find (sub l : bytes) : contains sub l = false -> find l sub < 0.
Proof. unfold contains. intros Hc. now apply Z.leb_gt. Qed.

(** A line that holds no [CRLF] ends at the first [CRLF] after it: the
    marker cannot begin inside the line, since its two bytes differ. *)
Lemma find_after_line (l more : bytes) :
  contains CRLF l = false -> find (l ++ CRLF ++ more) CRLF = Z.of_nat (length l).
Proof.
  induction l as [|b l IH]; intros Hc; [reflexivity|].
  apply contains_false_find in Hc. cbn [find] in Hc.
  destruct (starts_with CRLF (b :: l)) eqn:E; [lia|].
  destruct (find l CRLF <? 0) eqn:F; [|apply Z.ltb_ge in F; lia].
  assert (Hl : contains CRLF l = false) by (unfold contains; apply Z.leb_gt; now apply Z.ltb_lt).
  cbn [app find]. specialize (IH Hl).
  assert (E' : starts_with CRLF (b :: l ++ CRLF ++ more) = false).
  { destruct l as [|c l]; cbn [app starts_with CRLF] in *.
    - destruct (Byte.eqb x0d b) eqn:Eb; [|reflexivity].
      apply Byte.byte_dec_bl in Eb. subst b. reflexivity.
    - exact E. }
  rewrite E', IH.
  destruct (Z.of_nat (length l) <? 0) eqn:G; [apply Z.ltb_lt in G; lia|].
  cbn [length]. lia.
Qed.

Lemma split_encoded_lines (lines : list bytes) (partial : bytes) (r : nat)
    (acc : list bytes) :
  Forall (fun l => contains CRLF l = false) lines -> contains CRLF partial = false ->
  (length lines < r)%nat ->
  split_lines r CRLF (concat (map (fun l => l ++ CRLF) lines) ++ partial) acc
  = Some (acc ++ lines, partial).
Proof.
  intros Hall Hp. revert r acc.
  induction Hall as [|l lines Hl Hall IH]; intros r acc Hr.
  - destruct r as [|r]; [cbn in Hr; lia|]. cbn [map concat app split_lines].
    apply contains_false_find in Hp. apply Z.ltb_lt in Hp. rewrite Hp.
    now rewrite app_nil_r.
  - destruct r as [|r]; [lia|]. cbn [map concat split_lines].
    rewrite <- !app_assoc. rewrite (find_after_line l _ Hl).
    destruct (Z.of_nat (length l) <? 0) eqn:G; [apply Z.ltb_lt in G; lia|].
    rewrite Nat2Z.id.
    rewrite firstn_app, firstn_all, Nat.sub_diag. cbn [firstn]. rewrite app_nil_r.
    rewrite app_assoc, skipn_app.
    replace (length l + length CRLF - length (l ++ CRLF))%nat with 0%nat
      by (rewrite length_app; lia).
    rewrite skipn_all2 by (rewrite length_app; lia). cbn [skipn app].
    rewrite IH by (cbn [length] in Hr; lia). now rewrite <- app_assoc.
Qed.

(** Successive calls on the fragments do what one call on their
    concatenation does. *)
Lemma feed_fragments_as_one_call (s : CharacterGlue.t) (fragments : list bytes) :
  CharacterGlue.glue_EOL s <> Some [] -> fragments <> [] ->
  feed_fragments s fragments = data_handler s (concat fragments).
Proof.
  intros Heol. revert s Heol.
  induction fragments as [|d rest IH]; intros s Heol Hne; [congruence|].
  destruct (glue_data_handler_total s d Heol) as (s1 & H1 & E1).
  cbn [feed_fragments concat]. rewrite H1.
  rewrite (glue_data_handler_app s s1 d _ Heol H1).
  destruct rest as [|d' rest'].
  - cbn [feed_fragments concat]. rewrite glue_data_handler, app_nil_r.
    pose proof (glue_data_handler_drained _ _ _ H1) as Hd. unfold drained in Hd.
    destruct s1 as [[eol|] buf out]; cbn in *; [|reflexivity].
    apply Z.ltb_lt in Hd. rewrite Hd. now rewrite app_nil_r.
  - apply IH; [now rewrite E1|discriminate].
Qed.

(** X17.  Lines sent with [b"\r\n"] after each come out as they went
    in: if no line holds the marker, then however the transport cuts the
    stream into notifications, the lines handed to [line_handler] are
    exactly those lines, in order, and an unfinished last line waits in
    the buffer. *)
Theorem crlf_lines_come_out_as_sent (lines fragments : list bytes) (partial : bytes) :
  Forall (fun l => contains CRLF l = false) lines -> contains CRLF partial = false ->
  fragments <> [] ->
  concat fragments = concat (map (fun l => l ++ CRLF) lines) ++ partial ->
  feed_fragments (CharacterGlue.init (Some CRLF)) fragments
  = Some (Ok, CharacterGlue.mk (Some CRLF) partial lines).
Proof.
  intros Hall Hp Hne Hcat.
  rewrite feed_fragments_as_one_call by (try discriminate; assumption).
  rewrite glue_data_handler, Hcat. cbn [CharacterGlue.init CharacterGlue.glue_EOL
    CharacterGlue.glue_char_buf CharacterGlue.printed app].
  rewrite split_encoded_lines; try assumption; [reflexivity|].
  rewrite length_app, length_concat, map_map.
  assert (length lines <= list_sum (map (fun l => length (l ++ CRLF)) lines))%nat.
  { clear. induction lines as [|l lines IH]; [cbn; lia|].
    unfold list_sum in *. cbn [map fold_right]. rewrite length_app.
    cbn [CRLF length]. lia. }
  lia.
Qed.

Lemma crlf_lines_come_out_as_sent_witness :
  feed_fragments (CharacterGlue.init (Some CRLF))
    [[x68; x69; x0d]; [x0a; x0d; x0a; x79]; [x6f]]
  = Some (Ok, CharacterGlue.mk (Some CRLF) [x79; x6f] [[x68; x69]; []]).
Proof.
  apply (crlf_lines_come_out_as_sent [[x68; x69]; []]
           [[x68; x69; x0d]; [x0a; x0d; x0a; x79]; [x6f]] [x79; x6f]);
    try reflexivity; try discriminate.
  repeat constructor.
Defined.

(** ** More on the interactive session *)

Lemma hub_deliver_link (h : Host) (s : Hub.t) (ev : event) :
  ev <> LinkLost -> Hub.link_up (Hub.deliver h s ev) = Hub.link_up s.
Proof.
  intros Hne. destruct ev as [data|data| |]; cbn [Hub.deliver]; try reflexivity;
    [| |congruence].
  - unfold Hub.nus_handler.
    repeat match goal with
           | |- context [if ?c then _ else _] => destruct c
           | |- context [match ?l with [] => _ | _ :: _ => _ end] => destruct l
           end; reflexivity.
  - unfold Hub.pybricks_service_handler.
    repeat match goal with
           | |- context [if ?c then _ else _] => destruct c
           | |- context [match ?l with [] => _ | _ :: _ => _ end] => destruct l
           | |- context [match ?o with Some _ => _ | None => _ end] => destruct o
           | |- context [let (_, _) := ?p in _] => destruct p
           end; reflexivity.
Qed.

Lemma session_step_forwards (h : Host) (s s' : Session.t) (l : Session.label) :
  Hub.link_up (Session.hub s) = true -> is_link_loss l = false ->
  Session.step h s l = Some s' ->
  Hub.link_up (Session.hub s') = true
  /\ sent (Hub.trace (Session.hub s'))
     = sent (Hub.trace (Session.hub s)) ++ stdin_chunks [l].
Proof.
  intros Hup Hl Hstep. destruct s as [hb p mc n w cb].
  cbn [Session.hub] in *.
  destruct l; cbn in Hstep; cbn [stdin_chunks];
    try (session_cases; cbn [Session.hub Session.with_pipe Session.with_hub
           Session.with_wait Session.wait_returns Session.done_callback];
         rewrite ?app_nil_r; hub_fields; rewrite ?sent_app; cbn [sent];
         rewrite ?app_nil_r; now auto).
  - (* StdinData *)
    destruct p; try discriminate Hstep. destruct mc; [discriminate Hstep|].
    destruct (_ && _); [|discriminate Hstep].
    unfold Hub.write_gatt_char in Hstep. rewrite Hup in Hstep.
    injection Hstep as <-. cbn [Session.hub Session.with_pipe Session.with_hub].
    hub_fields. rewrite sent_app. cbn [sent]. auto.
  - (* Deliver *)
    injection Hstep as <-. cbn [Session.hub Session.with_hub].
    assert (Hne : ev <> LinkLost) by (intros ->; discriminate Hl).
    rewrite (hub_deliver_link h hb ev Hne).
    destruct (hub_deliver_extends h hb ev) as (tr & -> & St).
    rewrite sent_app, St. auto.
Qed.

(** X18.  While the connection stays up, what the session writes to the
    hub is what was read from stdin, chunk by chunk, unchanged and in
    the order read, and nothing else. *)
Theorem stdin_is_forwarded_in_order (h : Host) (s s' : Session.t)
    (ls : list Session.label) :
  Hub.link_up (Session.hub s) = true -> existsb is_link_loss ls = false ->
  Session.steps h s ls = Some s' ->
  sent (Hub.trace (Session.hub s'))
  = sent (Hub.trace (Session.hub s)) ++ stdin_chunks ls.
Proof.
  intros Hup Hno. revert s Hup.
  induction ls as [|l ls IH]; intros s Hup Hsteps.
  - injection Hsteps as <-. cbn. now rewrite app_nil_r.
  - cbn [existsb] in Hno. apply orb_false_iff in Hno as [Hl Hls].
    cbn [Session.steps] in Hsteps.
    destruct (Session.step h s l) as [s1|] eqn:E; [|discriminate].
    destruct (session_step_forwards h s s1 l Hup Hl E) as [Hup1 Hs1].
    rewrite (IH Hls s1 Hup1 Hsteps), Hs1, <- app_assoc. f_equal.
    destruct l; reflexivity.
Qed.

Lemma stdin_is_forwarded_in_order_witness :
  exists s',
    Session.steps sample_host (Session.pipe_and_wait (Hub.init OTHER_HUB))
      [Session.PipeStart; Session.Connected; Session.StdinData [x61]; Session.WriteDone;
       Session.Deliver (Nus [x3e]); Session.StdinData [x62; x0d]] = Some s'
    /\ sent (Hub.trace (Session.hub s')) = [[x61]; [x62; x0d]].
Proof.
  eexists. split; [reflexivity|].
  apply (stdin_is_forwarded_in_order sample_host
           (Session.pipe_and_wait (Hub.init OTHER_HUB)) _
           [Session.PipeStart; Session.Connected; Session.StdinData [x61];
            Session.WriteDone; Session.Deliver (Nus [x3e]);
            Session.StdinData [x62; x0d]]); reflexivity.
Defined.

(** Once [pipe_task.cancel()] has been called, the stdin task is done or
    has the cancellation pending. *)
Lemma session_cancelled_step (h : Host) (s s' : Session.t) (l : Session.label) :
  (Session.cancel_calls s >= 1)%nat ->
  Session.must_cancel s = true \/ Session.pipe_done (Session.pipe_task s) = true ->
  Session.step h s l = Some s' ->
  (Session.cancel_calls s' >= 1)%nat
  /\ (Session.must_cancel s' = true \/ Session.pipe_done (Session.pipe_task s') = true)
  /\ sent (Hub.trace (Session.hub s')) = sent (Hub.trace (Session.hub s)).
Proof.
  intros Hn Hj Hstep. destruct s as [hb p mc n w cb].
  cbn [Session.cancel_calls Session.must_cancel Session.pipe_task Session.hub] in *.
  destruct l; cbn in Hstep;
    try (session_cases;
         cbn [Session.cancel_calls Session.must_cancel Session.pipe_task Session.hub
              Session.with_pipe Session.with_hub Session.with_wait Session.wait_returns
              Session.done_callback Session.pipe_done] in *;
         hub_fields; rewrite ?sent_app; cbn [sent]; rewrite ?app_nil_r;
         repeat split; try lia; try tauto;
         try (destruct Hj; [discriminate|discriminate]);
         try (destruct Hj as [Hj|Hj]; discriminate Hj);
         now auto).
  - (* DoneCallback *)
    destruct cb; [|discriminate Hstep]. injection Hstep as <-.
    cbn [Session.cancel_calls Session.must_cancel Session.pipe_task Session.hub
         Session.done_callback].
    repeat split; try lia. destruct (Session.pipe_done p) eqn:Hp; auto.
  - (* Deliver *)
    injection Hstep as <-.
    cbn [Session.cancel_calls Session.must_cancel Session.pipe_task Session.hub
         Session.with_hub].
    destruct (hub_deliver_extends h hb ev) as (tr & -> & St).
    rewrite sent_app, St, app_nil_r. auto.
Qed.

(** X19.  After the done callback of the end watcher has run, the
    session writes nothing more to the hub, whatever stdin delivers and
    in whatever order the loop goes on. *)
Theorem nothing_written_after_cancel (h : Host) (hub0 : Hub.t)
    (before after : list Session.label) (s s' : Session.t) :
  Session.steps h (Session.pipe_and_wait hub0) before = Some s ->
  Session.cancel_calls s = 1%nat ->
  Session.steps h s after = Some s' ->
  sent (Hub.trace (Session.hub s')) = sent (Hub.trace (Session.hub s)).
Proof.
  intros Hbefore Hn Hafter.
  assert (Hj : Session.must_cancel s = true
               \/ Session.pipe_done (Session.pipe_task s) = true).
  { assert (Hgen : forall ls s0 s1,
              ((Session.cancel_calls s0 >= 1)%nat ->
               Session.must_cancel s0 = true
               \/ Session.pipe_done (Session.pipe_task s0) = true) ->
              Session.steps h s0 ls = Some s1 ->
              ((Session.cancel_calls s1 >= 1)%nat ->
               Session.must_cancel s1 = true
               \/ Session.pipe_done (Session.pipe_task s1) = true)).
    { induction ls as [|l ls IH]; intros s0 s1 H0 Hs.
      - now injection Hs as <-.
      - cbn [Session.steps] in Hs.
        destruct (Session.step h s0 l) as [sm|] eqn:E; [|discriminate].
        apply (IH sm s1); [|exact Hs]. clear IH Hs. intros Hm.
        destruct (Nat.eq_dec (Session.cancel_calls s0) 0) as [Hz|Hnz].
        + destruct s0 as [hb p mc n w cb]. cbn [Session.cancel_calls] in Hz. subst n.
          destruct l; cbn in E; session_cases;
            cbn [Session.cancel_calls Session.must_cancel Session.pipe_task
                 Session.with_pipe Session.with_hub Session.with_wait
                 Session.wait_returns Session.done_callback] in *; try lia.
          destruct (Session.pipe_done p); auto.
        + apply (session_cancelled_step h s0 sm l); [lia|apply H0; lia|exact E]. }
    apply (Hgen before (Session.pipe_and_wait hub0) s); [cbn; lia|exact Hbefore|lia]. }
  clear Hbefore. assert (Hge : (Session.cancel_calls s >= 1)%nat) by lia. clear Hn.
  revert s Hj Hge Hafter. induction after as [|l ls IH]; intros s Hj Hge Hafter.
  - now injection Hafter as <-.
  - cbn [Session.steps] in Hafter.
    destruct (Session.step h s l) as [sm|] eqn:E; [|discriminate].
    destruct (session_cancelled_step h s sm l Hge Hj E) as (Hge' & Hj' & Hs).
    rewrite (IH sm Hj' Hge' Hafter). exact Hs.
Qed.

Lemma nothing_written_after_cancel_witness :
  exists s s',
    Session.steps sample_host (Session.pipe_and_wait (Hub.init OTHER_HUB))
      [Session.PipeStart; Session.WaitStart; Session.Connected;
       Session.Deliver (Control [x00; x00; x00; x00; x00]);
       Session.StoppedWake; Session.SettleElapsed; Session.DoneCallback] = Some s
    /\ Session.steps sample_host s [Session.CancelDelivered; Session.Deliver (Nus [x3e])]
       = Some s'
    /\ sent (Hub.trace (Session.hub s')) = sent (Hub.trace (Session.hub s)).
Proof.
  eexists. eexists. split; [reflexivity|]. split; [reflexivity|].
  apply (nothing_written_after_cancel sample_host (Hub.init OTHER_HUB)
           [Session.PipeStart; Session.WaitStart; Session.Connected;
            Session.Deliver (Control [x00; x00; x00; x00; x00]);
            Session.StoppedWake; Session.SettleElapsed; Session.DoneCallback]
           [Session.CancelDelivered; Session.Deliver (Nus [x3e])]); reflexivity.
Defined.

Lemma stops_app (tr1 tr2 : list effect) : stops (tr1 ++ tr2) = (stops tr1 + stops tr2)%nat.
Proof.
  induction tr1 as [|e tr1 IH]; [reflexivity|].
  destruct e; cbn [stops app]; rewrite IH; reflexivity.
Qed.

(** The stopped signal is set only by a handler that records it. *)
Lemma hub_deliver_stops (h : Host) (s : Hub.t) (ev : event) :
  (stops (Hub.trace s) <= stops (Hub.trace (Hub.deliver h s ev)))%nat
  /\ (Hub.user_program_stopped (Hub.deliver h s ev) = true ->
      Hub.user_program_stopped s = true
      \/ (stops (Hub.trace s) < stops (Hub.trace (Hub.deliver h s ev)))%nat).
Proof.
  destruct ev as [data|data| |]; cbn [Hub.deliver].
  - unfold Hub.nus_handler.
    repeat match goal with
           | |- context [if ?c then _ else _] => destruct c
           | |- context [match ?l with [] => _ | _ :: _ => _ end] => destruct l
           end; hub_fields; rewrite ?stops_app; cbn [stops]; (split; [lia|auto]).
  - unfold Hub.pybricks_service_handler.
    repeat match goal with
           | |- context [if ?c then _ else _] => destruct c
           | |- context [match ?l with [] => _ | _ :: _ => _ end] => destruct l
           | |- context [match ?o with Some _ => _ | None => _ end] => destruct o
           | |- context [let (_, _) := ?p in _] => destruct p
           end; hub_fields; rewrite ?stops_app; cbn [stops];
      (split; [lia|]); first [ now auto | intros _; right; lia ].
  - hub_fields. split; [lia|auto].
  - split; [lia|auto].
Qed.

Lemma session_stop_seen_step (h : Host) (n0 : nat) (s s' : Session.t) (l : Session.label) :
  (n0 <= stops (Hub.trace (Session.hub s)))%nat ->
  (Hub.user_program_stopped (Session.hub s) = true
   \/ past_first_stop (Session.wait_task s) = true ->
   (n0 < stops (Hub.trace (Session.hub s)))%nat) ->
  Session.step h s l = Some s' ->
  (n0 <= stops (Hub.trace (Session.hub s')))%nat
  /\ (Hub.user_program_stopped (Session.hub s') = true
      \/ past_first_stop (Session.wait_task s') = true ->
      (n0 < stops (Hub.trace (Session.hub s')))%nat).
Proof.
  intros Hle Hk Hstep. destruct s as [hb p mc n w cb].
  cbn [Session.hub Session.wait_task] in *.
  assert (Hk1 := fun H => Hk (or_introl H)).
  assert (Hk2 := fun H => Hk (or_intror H)). clear Hk.
  destruct l; cbn in Hstep;
    try (session_cases;
         cbn [Session.hub Session.wait_task Session.with_pipe Session.with_hub
              Session.with_wait Session.wait_returns Session.done_callback
              past_first_stop] in *;
         hub_fields; rewrite ?stops_app; cbn [stops]; rewrite ?Nat.add_0_r;
         (split; [lia|]); intros [Hc|Hc];
         first [ discriminate Hc
               | congruence
               | apply Hk1; assumption
               | apply Hk1; reflexivity
               | apply Hk2; reflexivity
               | apply Hk2; assumption
               | specialize (Hk2 eq_refl); lia ];
         fail).
  - (* StdinData *)
    destruct p; try discriminate Hstep. destruct mc; [discriminate Hstep|].
    destruct (_ && _); [|discriminate Hstep].
    unfold Hub.write_gatt_char in Hstep.
    destruct (Hub.link_up hb); injection Hstep as <-;
      cbn [Session.hub Session.wait_task Session.with_pipe Session.with_hub];
      hub_fields; rewrite ?stops_app; cbn [stops]; rewrite ?Nat.add_0_r;
      (split; [lia|]); intros [Hc|Hc]; auto.
  - (* Deliver *)
    injection Hstep as <-. cbn [Session.hub Session.wait_task Session.with_hub].
    destruct (hub_deliver_stops h hb ev) as [Hmono Hset].
    split; [lia|]. intros [Hc|Hc].
    + destruct (Hset Hc) as [Hold|Hnew]; [|lia].
      specialize (Hk1 Hold). lia.
    + specialize (Hk2 Hc). lia.
Qed.

(** X20.  The end watcher returns, and so [pipe_task.cancel()] is
    called, only after the hub has reported that the program is not
    running: in a session that starts with the stopped signal clear,
    the signal has been set at least once by the time either happens. *)
Theorem cancel_only_after_stop_report (h : Host) (hub0 : Hub.t)
    (ls : list Session.label) (s : Session.t) :
  Hub.user_program_stopped hub0 = false ->
  Session.steps h (Session.pipe_and_wait hub0) ls = Some s ->
  Session.wait_task s = Session.WaitReturned \/ (1 <= Session.cancel_calls s)%nat ->
  (stops (Hub.trace hub0) < stops (Hub.trace (Session.hub s)))%nat.
Proof.
  intros Hclear Hsteps Hdone.
  pose proof (session_invariant_steps h _ _ ls (session_invariant_start hub0) Hsteps)
    as (Hcount & _).
  assert (Hw : Session.wait_task s = Session.WaitReturned).
  { destruct Hdone as [|Hn]; [assumption|].
    destruct (Session.wait_task s), (Session.callback_due s);
      cbn [count wait_returned] in Hcount; try lia; reflexivity. }
  clear Hdone Hcount.
  assert (Hgen : forall ls s0 s1,
            (stops (Hub.trace hub0) <= stops (Hub.trace (Session.hub s0)))%nat ->
            (Hub.user_program_stopped (Session.hub s0) = true
             \/ past_first_stop (Session.wait_task s0) = true ->
             (stops (Hub.trace hub0) < stops (Hub.trace (Session.hub s0)))%nat) ->
            Session.steps h s0 ls = Some s1 ->
            (Hub.user_program_stopped (Session.hub s1) = true
             \/ past_first_stop (Session.wait_task s1) = true ->
             (stops (Hub.trace hub0) < stops (Hub.trace (Session.hub s1)))%nat)).
  { clear. induction ls as [|l ls IH]; intros s0 s1 Hle Hk Hs.
    - now injection Hs as <-.
    - cbn [Session.steps] in Hs.
      destruct (Session.step h s0 l) as [sm|] eqn:E; [|discriminate].
      destruct (session_stop_seen_step h _ s0 sm l Hle Hk E) as [Hle' Hk'].
      exact (IH sm s1 Hle' Hk' Hs). }
  apply (Hgen ls (Session.pipe_and_wait hub0) s); [cbn; lia| |exact Hsteps|].
  - cbn. intros [Hc|Hc]; congruence.
  - right. now rewrite Hw.
Qed.

Lemma cancel_only_after_stop_report_witness :
  exists s,
    Session.steps sample_host (Session.pipe_and_wait (Hub.init OTHER_HUB))
      [Session.PipeStart; Session.WaitStart;
       Session.Deliver (Control [x00; x00; x00; x00; x00]);
       Session.StoppedWake; Session.SettleElapsed] = Some s
    /\ (stops (Hub.trace (Hub.init OTHER_HUB)) < stops (Hub.trace (Session.hub s)))%nat.
Proof.
  eexists. split; [reflexivity|].
  apply (cancel_only_after_stop_report sample_host (Hub.init OTHER_HUB)
           [Session.PipeStart; Session.WaitStart;
            Session.Deliver (Control [x00; x00; x00; x00; x00]);
            Session.StoppedWake; Session.SettleElapsed]).
  - reflexivity.
  - reflexivity.
  - left. reflexivity.
Defined.

(** ** The terminal in raw mode *)

Lemma list_set_length {A} (l l' : list A) (i : nat) (v : A) :
  Tty.list_set l i v = Some l' -> length l' = length l /\ (i < length l)%nat.
Proof.
  unfold Tty.list_set. destruct (i <? length l)%nat eqn:E; [|discriminate].
  apply Nat.ltb_lt in E. intros H.
  assert (l' = firstn i l ++ v :: skipn (S i) l) by congruence. subst l'. clear H.
  rewrite length_app, length_firstn.
  change (length (v :: skipn (S i) l)) with (S (length (skipn (S i) l))).
  rewrite length_skipn. lia.
Qed.

Lemma list_set_nth {A} (l l' : list A) (i j : nat) (v : A) :
  Tty.list_set l i v = Some l' ->
  nth_error l' j = if (j =? i)%nat then Some v else nth_error l j.
Proof.
  unfold Tty.list_set. destruct (i <? length l)%nat eqn:E; [|discriminate].
  apply Nat.ltb_lt in E. intros H.
  assert (l' = firstn i l ++ v :: skipn (S i) l) by congruence. subst l'. clear H.
  destruct (Nat.eqb_spec j i) as [->|Hne].
  - rewrite nth_error_app2 by (rewrite length_firstn; lia).
    rewrite length_firstn. replace (i - Nat.min i (length l))%nat with 0%nat by lia.
    reflexivity.
  - destruct (Nat.lt_ge_cases j i) as [Hlt|Hge].
    + rewrite nth_error_app1 by (rewrite length_firstn; lia).
      now rewrite nth_error_firstn, (proj2 (Nat.ltb_lt _ _) Hlt).
    + rewrite nth_error_app2 by (rewrite length_firstn; lia).
      rewrite length_firstn. replace (Nat.min i (length l)) with i by lia.
      destruct (j - i)%nat as [|d] eqn:Ed; [lia|]. cbn [nth_error].
      rewrite nth_error_skipn. f_equal. lia.
Qed.

(** X21.  The flags of the raw mode: in the local flags every bit of
    [ECHO] and of [ICANON] is off and every other bit is as it was; in
    the input flags every bit of [INLCR] is on, every bit of [ICRNL]
    that is not one of [INLCR] is off, and every other bit is as it was;
    output flags, control flags and speeds are untouched. *)
Theorem raw_mode_flags (k : Tty.Termios) (m m' : Tty.mode) (i : Z) :
  Tty.raw_mode k m = Some m' -> 0 <= i ->
  Z.testbit (Tty.lflag m') i
  = Z.testbit (Tty.lflag m) i
    && negb (Z.testbit (Tty.ECHO k) i || Z.testbit (Tty.ICANON k) i)
  /\ Z.testbit (Tty.iflag m') i
     = Z.testbit (Tty.INLCR k) i
       || (Z.testbit (Tty.iflag m) i && negb (Z.testbit (Tty.ICRNL k) i))
  /\ Z.land (Tty.lflag m') (Z.lor (Tty.ECHO k) (Tty.ICANON k)) = 0
  /\ Z.land (Tty.iflag m') (Tty.INLCR k) = Tty.INLCR k
  /\ (Tty.oflag m', Tty.cflag m', Tty.ispeed m', Tty.ospeed m')
     = (Tty.oflag m, Tty.cflag m, Tty.ispeed m, Tty.ospeed m).
Proof.
  unfold Tty.raw_mode. intros Hraw Hi.
  destruct (Tty.list_set (Tty.cc m) _ _) as [cc1|]; [|discriminate].
  destruct (Tty.list_set cc1 _ _) as [cc2|]; [|discriminate].
  destruct (Tty.list_set cc2 _ _) as [cc3|]; [|discriminate].
  injection Hraw as <-. cbn [Tty.lflag Tty.iflag Tty.oflag Tty.cflag Tty.ispeed Tty.ospeed].
  refine (conj _ (conj _ (conj _ (conj _ eq_refl)))).
  - now rewrite Z.land_spec, Z.lnot_spec, Z.lor_spec by exact Hi.
  - rewrite Z.lor_spec, Z.land_spec, Z.lnot_spec by exact Hi. apply orb_comm.
  - apply Z.bits_inj'. intros n Hn.
    rewrite !Z.land_spec, Z.lnot_spec, Z.lor_spec, Z.bits_0 by exact Hn.
    destruct (Z.testbit (Tty.lflag m) n), (Z.testbit (Tty.ECHO k) n),
      (Z.testbit (Tty.ICANON k) n); reflexivity.
  - apply Z.bits_inj'. intros n Hn.
    rewrite Z.land_spec, Z.lor_spec, Z.land_spec, Z.lnot_spec by exact Hn.
    destruct (Z.testbit (Tty.iflag m) n), (Z.testbit (Tty.ICRNL k) n),
      (Z.testbit (Tty.INLCR k) n); reflexivity.
Qed.

Lemma raw_mode_flags_witness :
  exists m',
    Tty.raw_mode linux_termios sample_mode = Some m'
    /\ Tty.lflag m' = 35377 /\ Tty.iflag m' = 17472
    /\ Z.land (Tty.lflag m') (Z.lor (Tty.ECHO linux_termios) (Tty.ICANON linux_termios)) = 0
    /\ Z.land (Tty.iflag m') (Tty.INLCR linux_termios) = Tty.INLCR linux_termios.
Proof.
  eexists. split; [reflexivity|]. split; [reflexivity|]. split; [reflexivity|].
  split.
  - apply (raw_mode_flags linux_termios sample_mode _ 0); [reflexivity|lia].
  - reflexivity.
Defined.

(** X22.  The control characters of the raw mode: the assignments
    succeed exactly when the three indices are inside the list; then the
    list keeps its length, has 24 for the interrupt character, 1 for the
    minimum count and 0 for the timeout (the indices being three
    different ones), and every other entry is as it was. *)
Theorem raw_mode_control_characters (k : Tty.Termios) (m : Tty.mode) :
  (Tty.raw_mode k m = None <->
   (length (Tty.cc m) <= Nat.max (Tty.VINTR k) (Nat.max (Tty.VMIN k) (Tty.VTIME k)))%nat)
  /\ (forall m', Tty.raw_mode k m = Some m' ->
      length (Tty.cc m') = length (Tty.cc m)
      /\ nth_error (Tty.cc m') (Tty.VTIME k) = Some (Tty.CcInt 0)
      /\ (Tty.VMIN k <> Tty.VTIME k ->
          nth_error (Tty.cc m') (Tty.VMIN k) = Some (Tty.CcInt 1))
      /\ (Tty.VINTR k <> Tty.VMIN k -> Tty.VINTR k <> Tty.VTIME k ->
          nth_error (Tty.cc m') (Tty.VINTR k) = Some (Tty.CcInt 24))
      /\ (forall j, j <> Tty.VINTR k -> j <> Tty.VMIN k -> j <> Tty.VTIME k ->
          nth_error (Tty.cc m') j = nth_error (Tty.cc m) j)).
Proof.
  unfold Tty.raw_mode.
  destruct (Tty.list_set (Tty.cc m) (Tty.VINTR k) (Tty.CcInt 24)) as [cc1|] eqn:E1.
  2:{ split; [|discriminate]. unfold Tty.list_set in E1.
      destruct (_ <? _)%nat eqn:L in E1; [discriminate|]. apply Nat.ltb_ge in L.
      split; [lia|reflexivity]. }
  destruct (list_set_length _ _ _ _ E1) as [L1 B1].
  destruct (Tty.list_set cc1 (Tty.VMIN k) (Tty.CcInt 1)) as [cc2|] eqn:E2.
  2:{ split; [|discriminate]. unfold Tty.list_set in E2.
      destruct (_ <? _)%nat eqn:L in E2; [discriminate|]. apply Nat.ltb_ge in L.
      split; [lia|reflexivity]. }
  destruct (list_set_length _ _ _ _ E2) as [L2 B2].
  destruct (Tty.list_set cc2 (Tty.VTIME k) (Tty.CcInt 0)) as [cc3|] eqn:E3.
  2:{ split; [|discriminate]. unfold Tty.list_set in E3.
      destruct (_ <? _)%nat eqn:L in E3; [discriminate|]. apply Nat.ltb_ge in L.
      split; [lia|reflexivity]. }
  destruct (list_set_length _ _ _ _ E3) as [L3 B3].
  split; [split; [discriminate|lia]|].
  intros m' [= <-]. cbn [Tty.cc].
  pose proof (fun j => list_set_nth _ _ _ j _ E1) as N1.
  pose proof (fun j => list_set_nth _ _ _ j _ E2) as N2.
  pose proof (fun j => list_set_nth _ _ _ j _ E3) as N3.
  refine (conj _ (conj _ (conj _ (conj _ _)))).
  - lia.
  - now rewrite N3, Nat.eqb_refl.
  - intros H1. rewrite N3, (proj2 (Nat.eqb_neq _ _) H1), N2. now rewrite Nat.eqb_refl.
  - intros H1 H2.
    rewrite N3, (proj2 (Nat.eqb_neq _ _) H2), N2, (proj2 (Nat.eqb_neq _ _) H1), N1.
    now rewrite Nat.eqb_refl.
  - intros j H1 H2 H3.
    now rewrite N3, (proj2 (Nat.eqb_neq _ _) H3), N2, (proj2 (Nat.eqb_neq _ _) H2),
      N1, (proj2 (Nat.eqb_neq _ _) H1).
Qed.

Lemma raw_mode_control_characters_witness :
  exists m',
    Tty.raw_mode linux_termios sample_mode = Some m'
    /\ nth_error (Tty.cc m') (Tty.VINTR linux_termios) = Some (Tty.CcInt 24).
Proof.
  eexists. split; [reflexivity|].
  apply (raw_mode_control_characters linux_termios sample_mode);
    [reflexivity|discriminate|discriminate].
Defined.

(** ** The compiler and the build directory *)





(** ** Responses of the JSON dialect *)

Lemma pop_until_others (data_id : String.string) (others : list RPC.message)
    (rest : list RPC.message) :
  Forall (for_another data_id) others ->
  RPC.pop_until data_id (others ++ rest) = RPC.pop_until data_id rest.
Proof.
  induction 1 as [|d ds (v & Hv & Hid) _ IH]; [reflexivity|].
  cbn [app RPC.pop_until]. now rewrite Hv, Hid.
Qed.

(** X25.  The response to a command is the first queued message that
    carries its id, and what is returned is that message's ["r"].  The
    messages queued ahead of it, which carry other ids, are taken out of
    the queue and dropped; those behind it stay. *)
Theorem response_found_in_queue (rounds : nat) (data_id : String.string)
    (ahead behind : list RPC.message) (response : RPC.message) (result : RPC.json)
    (arrivals : list (list RPC.message)) :
  Forall (for_another data_id) ahead ->
  RPC.lookup "i"%string response = Some (RPC.JStr data_id) ->
  RPC.lookup "r"%string response = Some result ->
  RPC.await_response (S rounds) data_id (ahead ++ response :: behind) arrivals
  = (inr result, behind, arrivals).
Proof.
  intros Hahead Hi Hr. cbn [RPC.await_response].
  rewrite pop_until_others by exact Hahead. cbn [RPC.pop_until].
  rewrite Hi. cbn [RPC.is_id]. now rewrite String.eqb_refl, Hr.
Qed.

Lemma response_found_in_queue_witness :
  RPC.await_response 30 "ABCD"%string
    ([[("i"%string, RPC.JStr "WXYZ"%string)]]
       ++ [("i"%string, RPC.JStr "ABCD"%string); ("r"%string, RPC.JInt 7)] :: [])
    []
  = (inr (RPC.JInt 7), [], []).
Proof.
  apply (response_found_in_queue 29 "ABCD"%string
           [[("i"%string, RPC.JStr "WXYZ"%string)]] []
           [("i"%string, RPC.JStr "ABCD"%string); ("r"%string, RPC.JInt 7)]
           (RPC.JInt 7) []).
  - repeat constructor. exists (RPC.JStr "WXYZ"%string). split; reflexivity.
  - reflexivity.
  - reflexivity.
Defined.

Lemma await_response_none (rounds : nat) (data_id : String.string)
    (i_data : list RPC.message) (arrivals : list (list RPC.message)) :
  Forall (for_another data_id) i_data ->
  Forall (Forall (for_another data_id)) arrivals ->
  RPC.await_response rounds data_id i_data arrivals
  = (inr RPC.JNull,
     match rounds with
     | O => i_data
     | S r => nth r arrivals []
     end,
     skipn rounds arrivals).
Proof.
  revert i_data arrivals. induction rounds as [|r IH]; intros i_data arrivals Hq Ha.
  - reflexivity.
  - cbn [RPC.await_response].
    rewrite <- (app_nil_r i_data), pop_until_others by exact Hq. cbn [RPC.pop_until].
    destruct arrivals as [|a rest].
    + rewrite IH by constructor. destruct r as [|[|r]]; reflexivity.
    + inversion Ha as [|? ? Ha1 Ha2]; subst. cbn [app].
      rewrite IH by assumption. cbn [skipn]. destruct r; reflexivity.
Qed.

(** X26.  When no message with the id of the command arrives,
    [send_command_and_get_response] gives up after 30 rounds, that is 30
    sleeps of 0.1 s, and returns [None].  Everything queued before the
    last sleep has been dropped; what arrived during the last sleep is
    still queued. *)
Theorem response_never_arrives (data_id : String.string) (i_data : list RPC.message)
    (arrivals : list (list RPC.message)) :
  Forall (for_another data_id) i_data ->
  Forall (Forall (for_another data_id)) arrivals ->
  RPC.await_response 30 data_id i_data arrivals
  = (inr RPC.JNull, nth 29 arrivals [], skipn 30 arrivals).
Proof. intros Hq Ha. now rewrite await_response_none. Qed.

Lemma response_never_arrives_witness :
  RPC.await_response 30 "ABCD"%string [[("i"%string, RPC.JStr "WXYZ"%string)]] []
  = (inr RPC.JNull, nth 29 [] [], skipn 30 []).
Proof.
  apply (response_never_arrives "ABCD"%string [[("i"%string, RPC.JStr "WXYZ"%string)]] []).
  - repeat constructor. exists (RPC.JStr "WXYZ"%string). split; reflexivity.
  - constructor.
Defined.

(** ** Output through the older protocol object *)

Lemma pup_feed_chars_passing (h : Host) (s : PUP.t) (data : bytes) :
  PUP.state s <> PUP.AWAITING_CHECKSUM ->
  @feed_chars PUP.t (PUP.glue h) s data
  = PUP.with_char_buf_ (PUP.char_buf_ s ++ data) s.
Proof.
  intros Hst. apply Z.eqb_neq in Hst. revert s Hst.
  induction data as [|b data IH]; intros s Hst.
  - destruct s. cbn. now rewrite app_nil_r.
  - cbn [feed_chars char_handler char_buf set_char_buf PUP.glue].
    unfold PUP.char_handler. rewrite Hst. rewrite IH by exact Hst.
    pup_fields. now rewrite <- app_assoc.
Qed.

Lemma pup_lines_to_output (h : Host) (s : PUP.t) (lines : list bytes)
    (texts : list String.string) :
  PUP.log_file s = None ->
  Forall (fun l => contains PB_OF l = false /\ contains PB_EOF l = false) lines ->
  (PUP.print_output s = true -> map (decode h) lines = map Some texts) ->
  @handle_lines PUP.t (PUP.glue h) s lines
  = (Ok, PUP.with_trace
           (PUP.trace s ++ if PUP.print_output s then map Print texts else [])
           (PUP.with_output (PUP.output s ++ lines) s)).
Proof.
  revert s texts. induction lines as [|l lines IH]; intros s texts Hlog Hall Hdec.
  - destruct (PUP.print_output s) eqn:Hp.
    + specialize (Hdec eq_refl). destruct texts; [|discriminate].
      destruct s. cbn in *. subst. now rewrite !app_nil_r.
    + destruct s. cbn in *. subst. now rewrite !app_nil_r.
  - inversion Hall as [|? ? [Ho Hc] Hrest]; subst.
    cbn [handle_lines line_handler PUP.glue]. unfold PUP.line_handler.
    rewrite Ho, Hc, Hlog. destruct (PUP.print_output s) eqn:Hp.
    + specialize (Hdec eq_refl). destruct texts as [|t texts]; [discriminate|].
      injection Hdec as Hl Hdec. rewrite Hl.
      rewrite (IH _ texts); try assumption; [|pup_fields; now intros _].
      pup_fields. rewrite Hp. cbn [map]. now rewrite <- !app_assoc.
    + rewrite (IH _ texts); try assumption; [|pup_fields; congruence].
      pup_fields. rewrite Hp. now rewrite <- !app_assoc.
Qed.

(** X27.  Output of the program through the older protocol object:
    when no checksum is awaited and no log is open, the complete lines
    of a notification, which hold neither the marker nor a log token,
    are appended to the output history in order, and printed when
    printing is on; an unfinished last line waits in the buffer. *)
Theorem pup_output_lines_reach_history (h : Host) (s : PUP.t) (lines : list bytes)
    (partial : bytes) (texts : list String.string) :
  PUP.state s <> PUP.AWAITING_CHECKSUM ->
  PUP.char_buf_ s = [] -> PUP.log_file s = None ->
  Forall (fun l => contains CRLF l = false) lines ->
  Forall (fun l => contains PB_OF l = false /\ contains PB_EOF l = false) lines ->
  contains CRLF partial = false ->
  (PUP.print_output s = true -> map (decode h) lines = map Some texts) ->
  PUP.deliver h s (Nus (concat (map (fun l => l ++ CRLF) lines) ++ partial))
  = PUP.with_trace
      (PUP.trace s ++ if PUP.print_output s then map Print texts else [])
      (PUP.with_output (PUP.output s ++ lines) (PUP.with_char_buf_ partial s)).
Proof.
  intros Hst Hbuf Hlog Hcr Htok Hp Hdec.
  unfold PUP.deliver, data_handler. cbn [EOL char_buf set_char_buf PUP.glue].
  rewrite pup_feed_chars_passing by exact Hst. rewrite Hbuf. cbn [app].
  cbn [PUP.with_char_buf_ PUP.char_buf_].
  rewrite split_encoded_lines; try assumption.
  - cbn [app]. rewrite (pup_lines_to_output h _ lines texts); try assumption.
    reflexivity.
  - rewrite length_app, length_concat, map_map.
    assert (length lines <= list_sum (map (fun l => length (l ++ CRLF)) lines))%nat.
    { clear. induction lines as [|l lines IH]; [cbn; lia|].
      unfold list_sum in *. cbn [map fold_right]. rewrite length_app.
      cbn [CRLF length]. lia. }
    lia.
Qed.

Lemma pup_output_lines_reach_history_witness :
  PUP.deliver sample_host PUP.init
    (Nus (concat (map (fun l => l ++ CRLF) [[x68; x69]]) ++ [x3e]))
  = PUP.with_trace
      (PUP.trace PUP.init ++ if PUP.print_output PUP.init then map Print ["hi"%string] else [])
      (PUP.with_output (PUP.output PUP.init ++ [[x68; x69]])
         (PUP.with_char_buf_ [x3e] PUP.init)).
Proof.
  apply (pup_output_lines_reach_history sample_host PUP.init [[x68; x69]] [x3e]
           ["hi"%string]); try reflexivity; try discriminate; repeat constructor.
Defined.
